(** * File-manager prototypes: directory listing and thumbnail cache

    A shallow embedding of the logic of the GUI prototypes under
    [file manager/]:

    - [file_manager.py]        Tk  [FileManager]: listing, go-up,
                                   opening entries
    - [files - Copy (2).py]    Qt  [ModernFileManager]: listing,
                                   navigation, copy and paste, and
                                   [ThumbnailCache]
    - [files.py]               Qt  [ModernFileExplorer]: navigation,
                                   status line, sizes in print

    ([files - Copy.py] hands listing and navigation to Qt's
    [QFileSystemModel] and has no logic of its own to embed.)

    The operating system, Pillow and Qt are the environment: a file system
    is a function from path strings to nodes, the image libraries are a
    record of what each of their calls does.  A widget is the record of
    the values the code stores in it, with a log of the directory reads
    and dialogs.  Paths follow the POSIX flavour of [os.path] and
    [pathlib]; characters are code points below 256. *)

From Stdlib Require Import ZArith NArith List String Ascii Bool Lia.
From Stdlib Require Import Permutation Sorted DecimalString.
From Stdlib Require OrderedTypeEx.
From stdpp Require Import base option list gmap strings.

Local Open Scope string_scope.
Local Open Scope list_scope.

(* ===================================================================== *)
(** ** Python values: strings, tuples, exceptions *)
(* ===================================================================== *)

Module Py.

(** Exceptions the modelled calls raise.  All of them derive from
    [Exception]; all but [TypeError] are [OSError] or derive from it
    ([PIL.UnidentifiedImageError] is a subclass of [OSError]). *)
Inductive exn : Type :=
| OSError
| FileNotFoundError
| NotADirectoryError
| PermissionError
| UnidentifiedImageError
| TypeError.

(** Error numbers with which a system call fails on a path that is not
    simply missing. *)
Inductive errno : Type :=
| ENOTDIR
| EACCES
| ELOOP
| ENAMETOOLONG
| EIO.

(** The exception Python raises for an error number: the subclass of
    [OSError] that belongs to it, or [OSError] itself. *)
Definition os_error (e : errno) : exn :=
  match e with
  | ENOTDIR => NotADirectoryError
  | EACCES => PermissionError
  | ELOOP | ENAMETOOLONG | EIO => OSError
  end.

Definition isinstance_PermissionError (e : exn) : bool :=
  match e with PermissionError => true | _ => false end.

Definition isinstance_OSError (e : exn) : bool :=
  match e with TypeError => false | _ => true end.

Definition isinstance_Exception (e : exn) : bool := true.

(** Outcome of a call: a value or a raised exception. *)
Inductive result (A : Type) : Type :=
| Ok (a : A)
| Raise (e : exn).
Arguments Ok {A} a.
Arguments Raise {A} e.

(** [str.lower()] on code points below 256: the ASCII capitals and the
    Latin-1 capitals (U+00C0..U+00DE without the multiplication sign
    U+00D7) move up by 32; everything else is unchanged. *)
Definition lower_char (c : ascii) : ascii :=
  let n := N_of_ascii c in
  if ((65 <=? n) && (n <=? 90) ||
      (192 <=? n) && (n <=? 214) ||
      (216 <=? n) && (n <=? 222))%N
  then ascii_of_N (n + 32) else c.

Fixpoint lower (s : string) : string :=
  match s with
  | EmptyString => EmptyString
  | String c s' => String (lower_char c) (lower s')
  end.

(** [a < b] on [str] is [String.ltb]: lexicographic on code points. *)
Definition str_lt (a b : string) : bool := String.ltb a b.

(** [False < True] on [bool]. *)
Definition bool_lt (a b : bool) : bool := negb a && b.

(** [a < b] on [(bool, str)] tuples: the first components that differ
    decide, by their own [<]. *)
Definition tuple_lt (a b : bool * string) : bool :=
  if Bool.eqb (fst a) (fst b) then str_lt (snd a) (snd b)
  else bool_lt (fst a) (fst b).

(** [list.sort(key=...)] and [sorted(..., key=...)]: a stable sort that
    compares keys with [<] only.  Every stable sort returns the same
    list, so insertion from the right stands for the library's merge
    sort: an element goes in front of the first one that is not
    strictly below it, hence in front of its equals that came later. *)
Section Sort.
Context {A K : Type} (lt : K -> K -> bool) (key : A -> K).

Fixpoint insert_by (x : A) (l : list A) : list A :=
  match l with
  | [] => [x]
  | y :: l' => if lt (key y) (key x) then y :: insert_by x l'
               else x :: y :: l'
  end.

Fixpoint sort_by (l : list A) : list A :=
  match l with
  | [] => []
  | x :: l' => insert_by x (sort_by l')
  end.
End Sort.

(** [sorted(l, key=key)] for a key function that can raise: the keys
    are computed first, one call per element in list order, and the
    first exception ends the call; then the elements are sorted by
    their keys. *)
Section SortedKey.
Context {A K : Type} (lt : K -> K -> bool) (key : A -> result K).

Fixpoint keyed (l : list A) : result (list (K * A)) :=
  match l with
  | [] => Ok []
  | x :: l' =>
      match key x with
      | Raise e => Raise e
      | Ok k =>
          match keyed l' with
          | Raise e => Raise e
          | Ok kl => Ok ((k, x) :: kl)
          end
      end
  end.

Definition sorted (l : list A) : result (list A) :=
  match keyed l with
  | Raise e => Raise e
  | Ok kl => Ok (List.map snd (sort_by lt fst kl))
  end.
End SortedKey.

(** Decimal digits of a natural number, as [str(int)] prints them. *)
Definition decimal (n : N) : string := NilEmpty.string_of_uint (N.to_uint n).

(** Nearest integer to [num / den], ties to the even neighbour: the
    rounding of [format(x, '.1f')] on a float that holds [x] exactly. *)
Definition round_half_even (num den : N) : N :=
  let q := (num / den)%N in
  let r := (num mod den)%N in
  match (2 * r ?= den)%N with
  | Lt => q
  | Gt => (q + 1)%N
  | Eq => if N.even q then q else (q + 1)%N
  end.

(** The float nearest to the integer [n], which is an integer itself:
    [n] when it has at most 53 bits, else [n] rounded to its 53 leading
    bits, ties to the even mantissa.  (No [OverflowError]: the integers
    converted are file sizes, below [2^63] and so far below [2^1024].) *)
Definition float_of_int (n : N) : N :=
  if (N.size n <=? 53)%N then n
  else
    let ulp := (2 ^ (N.size n - 53))%N in
    (round_half_even n ulp * ulp)%N.

(** The tenths that [format(n / 1024, '.1f')] prints.  The quotient of
    two integers is the float nearest to it, and dividing by a power of
    two moves the exponent only: the float holds
    [float_of_int n / 1024] exactly, and the format rounds that. *)
Definition tenths_kb (n : N) : N :=
  round_half_even (float_of_int n * 10) 1024.

(** [f"{n / 1024:.1f} KB"] for a byte count [n]. *)
Definition format_kb (n : N) : string :=
  let tenths := tenths_kb n in
  decimal (tenths / 10) ++ "." ++ decimal (tenths mod 10) ++ " KB".

End Py.

(* ===================================================================== *)
(** ** The operating system: [os] and [os.path] (POSIX) *)
(* ===================================================================== *)

Module Os.
Import Py.

(** What a path names.  A directory lists its children in the order the
    file system enumerates them; a broken link is a dangling symbolic
    link, on which [stat] fails as on a missing path; a blocked path is
    one on which every system call fails with the error number given
    (a child of a directory that cannot be searched: [EACCES]; a loop of
    links: [ELOOP]; ...). *)
Inductive node : Type :=
| Directory (st_size : N) (readable : bool) (entries : list string)
| RegularFile (st_size : N)
| BrokenLink
| Blocked (e : errno).

Definition filesystem : Type := string -> option node.

(** [os.listdir(p)] *)
Definition listdir (fs : filesystem) (p : string) : result (list string) :=
  match fs p with
  | None => Raise FileNotFoundError
  | Some BrokenLink => Raise FileNotFoundError
  | Some (Blocked e) => Raise (os_error e)
  | Some (RegularFile _) => Raise NotADirectoryError
  | Some (Directory _ false _) => Raise PermissionError
  | Some (Directory _ true entries) => Ok entries
  end.

(** [os.path.isdir(p)]: never raises, [False] whenever [stat] fails. *)
Definition isdir (fs : filesystem) (p : string) : bool :=
  match fs p with
  | Some (Directory _ _ _) => true
  | _ => false
  end.

(** [os.path.getsize(p)]: [os.stat(p).st_size], or what [stat] raises. *)
Definition getsize (fs : filesystem) (p : string) : result N :=
  match fs p with
  | Some (Directory n _ _) => Ok n
  | Some (RegularFile n) => Ok n
  | Some BrokenLink => Raise FileNotFoundError
  | Some (Blocked e) => Raise (os_error e)
  | None => Raise FileNotFoundError
  end.

Definition sep : ascii := "/"%char.

Definition is_sep (c : ascii) : bool := Ascii.eqb c sep.

Fixpoint endswith_sep (s : string) : bool :=
  match s with
  | EmptyString => false
  | String c EmptyString => is_sep c
  | String _ s' => endswith_sep s'
  end.

Definition startswith_sep (s : string) : bool :=
  match s with
  | String c _ => is_sep c
  | EmptyString => false
  end.

(** [os.path.join(a, b)] *)
Definition join (a b : string) : string :=
  if startswith_sep b then b
  else if String.eqb a "" || endswith_sep a then a ++ b
  else a ++ "/" ++ b.

Fixpoint drop_while (f : ascii -> bool) (l : list ascii) : list ascii :=
  match l with
  | [] => []
  | c :: l' => if f c then drop_while f l' else l
  end.

(** [s.rstrip('/')] on a list of characters. *)
Definition rstrip_sep (l : list ascii) : list ascii :=
  rev (drop_while is_sep (rev l)).

(** [p[:p.rfind('/') + 1]] on a list of characters. *)
Definition upto_last_sep (l : list ascii) : list ascii :=
  rev (drop_while (fun c => negb (is_sep c)) (rev l)).

(** [os.path.dirname(p)]:
    [head = p[:i]; if head and head != sep*len(head): head = head.rstrip(sep)] *)
Definition dirname (p : string) : string :=
  let head := upto_last_sep (list_ascii_of_string p) in
  string_of_list_ascii
    (if negb (forallb is_sep head) then rstrip_sep head else head).

End Os.

(* ===================================================================== *)
(** ** Statements with effects: state and exceptions *)
(* ===================================================================== *)

Module Eff.
Import Py.

(** A method body over the object state [S]: it ends with a value or
    with a raised exception, and the mutations made so far stay. *)
Definition M (S A : Type) : Type := S -> result A * S.

Definition ret {S A} (a : A) : M S A := fun s => (Ok a, s).

Definition bind {S A B} (c : M S A) (k : A -> M S B) : M S B :=
  fun s => match c s with
           | (Ok a, s') => k a s'
           | (Raise e, s') => (Raise e, s')
           end.

Definition get_state {S} : M S S := fun s => (Ok s, s).

Definition modify {S} (f : S -> S) : M S unit := fun s => (Ok tt, f s).

(** A library call that touches no object state. *)
Definition call {S A} (r : result A) : M S A := fun s => (r, s).

(** [try: body  except E: handler], where [catches e] says whether
    [e] is an instance of [E]. *)
Definition try_except {S A} (body : M S A) (catches : exn -> bool)
    (handler : exn -> M S A) : M S A :=
  fun s => match body s with
           | (Ok a, s') => (Ok a, s')
           | (Raise e, s') => if catches e then handler e s'
                              else (Raise e, s')
           end.

(** A method of a sub-object run on the field that holds it. *)
Definition zoom {S T A} (field : S -> T) (store : T -> S -> S)
    (c : M T A) : M S A :=
  fun s => let '(r, t) := c (field s) in (r, store t s).

Declare Scope eff_scope.
Delimit Scope eff_scope with eff.
Notation "x <- c ;; k" := (bind c (fun x => k))
  (at level 100, c at next level, right associativity) : eff_scope.
Notation "c ;;; k" := (bind c (fun _ => k))
  (at level 100, right associativity) : eff_scope.

(** [for x in l: body] *)
Fixpoint for_each {S A} (l : list A) (body : A -> M S unit) : M S unit :=
  match l with
  | [] => ret tt
  | x :: l' => bind (body x) (fun _ => for_each l' body)
  end.

End Eff.

(* ===================================================================== *)
(** ** [pathlib.PurePosixPath] *)
(* ===================================================================== *)

Module Pathlib.
Import Py.

(** A parsed path: the root ([""], ["/"] or ["//"]) and the components. *)
Record Path : Type := { root : string; tail : list string }.

(** [rel.split('/')] on a list of characters; [acc] holds the current
    component reversed. *)
Fixpoint split_sep (acc : list ascii) (l : list ascii) : list string :=
  match l with
  | [] => [string_of_list_ascii (rev acc)]
  | c :: l' => if Os.is_sep c
               then string_of_list_ascii (rev acc) :: split_sep [] l'
               else split_sep (c :: acc) l'
  end.

Definition keep_part (x : string) : bool :=
  negb (String.eqb x "") && negb (String.eqb x ".").

(** [posixpath.splitroot]: exactly two leading slashes are kept. *)
Definition splitroot (p : string) : string * string :=
  match p with
  | String c1 rest1 =>
      if negb (Os.is_sep c1) then ("", p)
      else match rest1 with
           | String c2 rest2 =>
               if negb (Os.is_sep c2) then ("/", rest1)
               else if Os.startswith_sep rest2 then ("/", rest1)
               else ("//", rest2)
           | EmptyString => ("/", rest1)
           end
  | EmptyString => ("", p)
  end.

(** [Path(p)] *)
Definition parse (p : string) : Path :=
  let '(r, rel) := splitroot p in
  {| root := r;
     tail := if String.eqb p "" then []
             else List.filter keep_part (split_sep [] (list_ascii_of_string rel)) |}.

Fixpoint join_parts (l : list string) : string :=
  match l with
  | [] => ""
  | [x] => x
  | x :: l' => x ++ "/" ++ join_parts l'
  end.

(** [str(p)] *)
Definition str (p : Path) : string :=
  let s := (root p ++ join_parts (tail p))%string in
  if String.eqb s "" then "." else s.

(** [p.parent] *)
Definition parent (p : Path) : Path :=
  match tail p with
  | [] => p
  | _ => {| root := root p; tail := removelast (tail p) |}
  end.

(** [p.name] *)
Definition name (p : Path) : string := List.last (tail p) "".

(** The characters before and after the last ["."] of a name. *)
Fixpoint split_last_dot (l : list ascii) : option (list ascii * list ascii) :=
  match l with
  | [] => None
  | c :: l' =>
      match split_last_dot l' with
      | Some (before, after) => Some (c :: before, after)
      | None => if Ascii.eqb c "."%char then Some ([], l') else None
      end
  end.

(** [p.suffix]: [name[i:]] for [i = name.rfind('.')] when
    [0 < i < len(name) - 1], else the empty string. *)
Definition suffix (p : Path) : string :=
  match split_last_dot (list_ascii_of_string (name p)) with
  | Some (_ :: _, (_ :: _) as after) =>
      String "."%char (string_of_list_ascii after)
  | _ => ""
  end.

(** A child yielded by [p.iterdir()] for a directory entry [x]. *)
Definition child (p : Path) (x : string) : Path :=
  {| root := root p; tail := tail p ++ [x] |}.

(** [p.iterdir()], consumed whole: [os.listdir(p)] mapped to children. *)
Definition iterdir (fs : Os.filesystem) (p : Path) : result (list Path) :=
  match Os.listdir fs (str p) with
  | Ok names => Ok (List.map (child p) names)
  | Raise e => Raise e
  end.

(** [_ignore_error(e)]: the error numbers [ENOENT], [ENOTDIR], [EBADF]
    and [ELOOP] mean that nothing is there ([ENOENT] is how [stat] fails
    on a missing path and on a broken link). *)
Definition ignore_error (e : errno) : bool :=
  match e with
  | ENOTDIR | ELOOP => true
  | EACCES | ENAMETOOLONG | EIO => false
  end.

(** [p.is_dir()]: [False] when [stat] fails because nothing is there;
    any other failure of [stat] is raised again. *)
Definition is_dir (fs : Os.filesystem) (p : Path) : result bool :=
  match fs (str p) with
  | Some (Os.Directory _ _ _) => Ok true
  | Some (Os.RegularFile _) => Ok false
  | Some Os.BrokenLink => Ok false
  | None => Ok false
  | Some (Os.Blocked e) =>
      if ignore_error e then Ok false else Raise (os_error e)
  end.

End Pathlib.

(* ===================================================================== *)
(** ** [file_manager.py]: the Tk [FileManager] *)
(* ===================================================================== *)

Module Tk.
Import Py Eff.
Local Open Scope eff_scope.

(** What the user and the system see besides the widgets: directory
    reads and error dialogs, oldest first. *)
Inductive event : Type :=
| Listdir (path : string)
| Showerror (title message : string).

(** A [Treeview] row: [values=(item, size, item_type)]. *)
Definition row : Type := string * string * string.

Record FileManager : Type := {
  current_path : string;
  path_label : string;
  tree : list row;
  log : list event
}.

Definition set_current_path (p : string) (self : FileManager) : FileManager :=
  {| current_path := p; path_label := path_label self;
     tree := tree self; log := log self |}.

Definition set_path_label (p : string) (self : FileManager) : FileManager :=
  {| current_path := current_path self; path_label := p;
     tree := tree self; log := log self |}.

Definition set_tree (t : list row) (self : FileManager) : FileManager :=
  {| current_path := current_path self; path_label := path_label self;
     tree := t; log := log self |}.

Definition emit (ev : event) (self : FileManager) : FileManager :=
  {| current_path := current_path self; path_label := path_label self;
     tree := tree self; log := log self ++ [ev] |}.

(** [os.listdir(self.current_path)], recorded in the log. *)
Definition os_listdir (fs : Os.filesystem) (p : string)
    : M FileManager (list string) :=
  modify (emit (Listdir p)) ;;; call (Os.listdir fs p).

(** The sort key [(not os.path.isdir(os.path.join(cur, x)), x.lower())]. *)
Definition sort_key (fs : Os.filesystem) (cur : string) (x : string)
    : bool * string :=
  (negb (Os.isdir fs (Os.join cur x)), lower x).

(** The size column of one entry:
    [size = ""; if not is_dir: try: size = f"..KB" except OSError: size = "N/A"] *)
Definition size_column (fs : Os.filesystem) (full_path : string)
    (is_dir : bool) : M FileManager string :=
  if negb is_dir then
    try_except
      (n <- call (Os.getsize fs full_path) ;; ret (format_kb n))
      isinstance_OSError
      (fun _ => ret "N/A")
  else ret "".

(** The body of [for item in items]. *)
Definition insert_item (fs : Os.filesystem) (cur : string) (item : string)
    : M FileManager unit :=
  let full_path := Os.join cur item in
  let is_dir := Os.isdir fs full_path in
  size <- size_column fs full_path is_dir ;;
  let item_type := if is_dir then "Folder" else "File" in
  modify (fun self => set_tree (tree self ++ [(item, size, item_type)]) self).

(** [FileManager.refresh_file_list] (the second definition of the class,
    which replaces the first). *)
Definition refresh_file_list (fs : Os.filesystem) : M FileManager unit :=
  modify (set_tree []) ;;;
  self <- get_state ;;
  let cur := current_path self in
  modify (set_path_label cur) ;;;
  try_except
    (items <- os_listdir fs cur ;;
     let items := sort_by tuple_lt (sort_key fs cur) items in
     for_each items (insert_item fs cur))
    isinstance_PermissionError
    (fun _ => modify (emit (Showerror "Error" "Permission Denied"))).

(** [FileManager.go_up] *)
Definition go_up (fs : Os.filesystem) : M FileManager unit :=
  self <- get_state ;;
  let parent_path := Os.dirname (current_path self) in
  if negb (String.eqb parent_path (current_path self)) then
    modify (set_current_path parent_path) ;;;
    refresh_file_list fs
  else ret tt.

End Tk.

(* ===================================================================== *)
(** ** [files - Copy (2).py]: [ThumbnailCache] *)
(* ===================================================================== *)

Module Thumb.
Import Py Eff.
Local Open Scope eff_scope.

(** A [QPixmap], as far as the code can tell pixmaps apart: the null
    pixmap [QPixmap()], [QIcon.fromTheme(name).pixmap(w, h)], or the
    pixels of the file at [path] at a pixel size. *)
Inductive pixmap : Type :=
| NullPixmap
| ThemePixmap (icon_name : string) (requested : Z * Z)
| FilePixmap (path : string) (size : Z * Z).

(** The image libraries, as the calls of [_make_thumbnail] see them:
    - [pillow_available]: [Image is not None];
    - [image_open path]: [Image.open(path)], the pixel size of the image
      or the exception;
    - [image_load path]: [img.thumbnail(..)] and
      [img.convert('RGBA').tobytes(..)], which decode the pixels and
      whose results the method drops;
    - [qimage_roundtrip]: the statement
      [QPixmap.fromImage(QPixmap.fromImage(QPixmap()).toImage())], whose
      inner call passes a [QPixmap] where a [QImage] is expected (PyQt6
      raises [TypeError] there);
    - [qpixmap_load path]: [QPixmap(path)], its pixel size, or [None]
      for the null pixmap Qt gives when it cannot load the file. *)
Record Env : Type := {
  pillow_available : bool;
  image_open : string -> result (Z * Z);
  image_load : string -> result unit;
  qimage_roundtrip : result unit;
  qpixmap_load : string -> option (Z * Z)
}.

(** Reads of a source file, for counting them. *)
Inductive access : Type :=
| ImageOpen (path : string)
| QPixmapLoad (path : string).

Record ThumbnailCache : Type := {
  cache : gmap (string * (Z * Z)) pixmap;
  thumb_size : Z * Z;
  accesses : list access
}.

(** [ThumbnailCache(thumb_size)] *)
Definition init (size : Z * Z) : ThumbnailCache :=
  {| cache := ∅; thumb_size := size; accesses := [] |}.

Definition set_cache (c : gmap (string * (Z * Z)) pixmap)
    (self : ThumbnailCache) : ThumbnailCache :=
  {| cache := c; thumb_size := thumb_size self; accesses := accesses self |}.

Definition touch (a : access) (self : ThumbnailCache) : ThumbnailCache :=
  {| cache := cache self; thumb_size := thumb_size self;
     accesses := accesses self ++ [a] |}.

(** [QSize.scaled(box, Qt.KeepAspectRatio)], in Qt's integer
    arithmetic: the largest size of the source's aspect ratio inside
    the box. *)
Definition qsize_scaled (src box : Z * Z) : Z * Z :=
  let '(wd, ht) := src in
  let '(bw, bh) := box in
  if (wd =? 0)%Z || (ht =? 0)%Z then box
  else
    let rw := Z.quot (bh * wd) ht in
    if (rw <=? bw)%Z then (rw, bh)
    else (bw, Z.quot (bw * ht) wd).

(** [pix.scaled(w, h, KeepAspectRatio, SmoothTransformation)] for a
    pixmap loaded from [path] with pixel size [src]: an empty box gives
    the null pixmap, and no side gets below one pixel. *)
Definition scaled (path : string) (src box : Z * Z) : pixmap :=
  if (fst box <=? 0)%Z || (snd box <=? 0)%Z then NullPixmap
  else
    let '(w, h) := qsize_scaled src box in
    FilePixmap path (Z.max w 1, Z.max h 1).

(** [ThumbnailCache._make_thumbnail] *)
Definition _make_thumbnail (env : Env) (path : string)
    : M ThumbnailCache pixmap :=
  self <- get_state ;;
  if negb (pillow_available env) then
    ret (ThemePixmap "text-x-generic" (thumb_size self))
  else
    try_except
      (modify (touch (ImageOpen path)) ;;;
       img <- call (image_open env path) ;;
       data <- call (image_load env path) ;;
       qimg <- call (qimage_roundtrip env) ;;
       modify (touch (QPixmapLoad path)) ;;;
       match qpixmap_load env path with
       | None => ret (ThemePixmap "image-x-generic" (thumb_size self))
       | Some src => ret (scaled path src (thumb_size self))
       end)
      isinstance_Exception
      (fun _ => ret (ThemePixmap "text-x-generic" (thumb_size self))).

(** [ThumbnailCache.get] *)
Definition get (env : Env) (path : string)
    : M ThumbnailCache pixmap :=
  self <- get_state ;;
  let key := (path, thumb_size self) in
  match cache self !! key with
  | Some pix => ret pix
  | None =>
      pix <- _make_thumbnail env path ;;
      modify (fun self => set_cache (<[key := pix]> (cache self)) self) ;;;
      ret pix
  end.

End Thumb.

(* ===================================================================== *)
(** ** [files - Copy (2).py]: the Qt [ModernFileManager] *)
(* ===================================================================== *)

Module Qt.
Import Py Eff.
Local Open Scope eff_scope.

Inductive event : Type :=
| Listdir (path : string)
| Warning (title prefix : string) (e : exn).

(** A [QIcon]: from the icon theme or wrapping a pixmap. *)
Inductive qicon : Type :=
| IconFromTheme (icon_name : string)
| IconOfPixmap (pix : Thumb.pixmap).

(** A [QListWidgetItem]: text, icon and the [UserRole] data. *)
Record item : Type := { text : string; icon : qicon; data : string }.

Record ModernFileManager : Type := {
  current_path : string;
  list_model : list item;
  thumb_cache : Thumb.ThumbnailCache;
  log : list event
}.

Definition set_list_model (l : list item) (self : ModernFileManager)
    : ModernFileManager :=
  {| current_path := current_path self; list_model := l;
     thumb_cache := thumb_cache self; log := log self |}.

Definition set_thumb_cache (c : Thumb.ThumbnailCache)
    (self : ModernFileManager) : ModernFileManager :=
  {| current_path := current_path self; list_model := list_model self;
     thumb_cache := c; log := log self |}.

Definition emit (ev : event) (self : ModernFileManager) : ModernFileManager :=
  {| current_path := current_path self; list_model := list_model self;
     thumb_cache := thumb_cache self; log := log self ++ [ev] |}.

(** The sort key [(not p.is_dir(), p.name.lower())]. *)
Definition sort_key (fs : Os.filesystem) (p : Pathlib.Path)
    : result (bool * string) :=
  match Pathlib.is_dir fs p with
  | Ok d => Ok (negb d, lower (Pathlib.name p))
  | Raise e => Raise e
  end.

Definition image_suffixes : list string :=
  [".png"; ".jpg"; ".jpeg"; ".bmp"; ".gif"; ".webp"].

(** [pix.isNull()]; a theme pixmap is null when the theme lacks the icon. *)
Definition isNull (theme_has : string -> bool) (pix : Thumb.pixmap) : bool :=
  match pix with
  | Thumb.NullPixmap => true
  | Thumb.ThemePixmap icon_name _ => negb (theme_has icon_name)
  | Thumb.FilePixmap _ _ => false
  end.

(** The body of [for p in entries]. *)
Definition add_entry (fs : Os.filesystem) (env : Thumb.Env)
    (theme_has : string -> bool) (p : Pathlib.Path)
    : M ModernFileManager unit :=
  let name := Pathlib.name p in
  d <- call (Pathlib.is_dir fs p) ;;
  ic <- (if (d : bool) then ret (IconFromTheme "folder")
         else
           pix <- (if existsb (String.eqb (lower (Pathlib.suffix p)))
                              image_suffixes
                   then zoom thumb_cache set_thumb_cache
                          (Thumb.get env (Pathlib.str p))
                   else ret Thumb.NullPixmap) ;;
           if negb (isNull theme_has pix) then ret (IconOfPixmap pix)
           else ret (IconFromTheme "text-x-generic")) ;;
  modify (fun self =>
    set_list_model
      (list_model self ++ [{| text := name; icon := ic; data := Pathlib.str p |}])
      self).

(** [ModernFileManager.populate_list]; [None] from the [try] statement
    is the [return] of its handler. *)
Definition populate_list (fs : Os.filesystem) (env : Thumb.Env)
    (theme_has : string -> bool) (path : string)
    : M ModernFileManager unit :=
  modify (set_list_model []) ;;;
  listed <- try_except
    (modify (emit (Listdir (Pathlib.str (Pathlib.parse path)))) ;;;
     children <- call (Pathlib.iterdir fs (Pathlib.parse path)) ;;
     entries <- call (sorted tuple_lt (sort_key fs) children) ;;
     ret (Some entries))
    isinstance_Exception
    (fun e => modify (emit (Warning "Error" "Could not list directory: " e)) ;;;
              ret None) ;;
  match listed with
  | None => ret tt
  | Some entries => for_each entries (add_entry fs env theme_has)
  end.

End Qt.

(* ===================================================================== *)
(** ** [files.py]: the Qt [ModernFileExplorer] *)
(* ===================================================================== *)

Module Explorer.
Import Py Eff.
Local Open Scope eff_scope.

Inductive event : Type :=
| Listdir (path : string).

(** The text of the status label, by the format string that built it. *)
Inductive status : Type :=
| StatusMessage (message : string)
| StatusCounts (dirs files : Z) (current : string)
| StatusCurrent (current : string).

(** The views are known by the path of the model index they show. *)
Record ModernFileExplorer : Type := {
  current_path : string;
  address_bar : string;
  list_view_root : string;
  tree_view_current : string;
  status_label : status;
  log : list event
}.

Definition set_current_path (p : string) (self : ModernFileExplorer) :=
  {| current_path := p; address_bar := address_bar self;
     list_view_root := list_view_root self;
     tree_view_current := tree_view_current self;
     status_label := status_label self; log := log self |}.

Definition set_address_bar (p : string) (self : ModernFileExplorer) :=
  {| current_path := current_path self; address_bar := p;
     list_view_root := list_view_root self;
     tree_view_current := tree_view_current self;
     status_label := status_label self; log := log self |}.

Definition set_list_view_root (p : string) (self : ModernFileExplorer) :=
  {| current_path := current_path self; address_bar := address_bar self;
     list_view_root := p;
     tree_view_current := tree_view_current self;
     status_label := status_label self; log := log self |}.

Definition set_tree_view_current (p : string) (self : ModernFileExplorer) :=
  {| current_path := current_path self; address_bar := address_bar self;
     list_view_root := list_view_root self;
     tree_view_current := p;
     status_label := status_label self; log := log self |}.

Definition set_status_label (t : status) (self : ModernFileExplorer) :=
  {| current_path := current_path self; address_bar := address_bar self;
     list_view_root := list_view_root self;
     tree_view_current := tree_view_current self;
     status_label := t; log := log self |}.

Definition emit (ev : event) (self : ModernFileExplorer) :=
  {| current_path := current_path self; address_bar := address_bar self;
     list_view_root := list_view_root self;
     tree_view_current := tree_view_current self;
     status_label := status_label self; log := log self ++ [ev] |}.

(** [sum(1 for item in items if os.path.isdir(os.path.join(cur, item)))] *)
Definition count_dirs (fs : Os.filesystem) (cur : string)
    (items : list string) : Z :=
  Z.of_nat (List.length
    (List.filter (fun item => Os.isdir fs (Os.join cur item)) items)).

(** [ModernFileExplorer.update_status]; the bare [except:] catches all. *)
Definition update_status (fs : Os.filesystem) (message : option string)
    : M ModernFileExplorer unit :=
  match message with
  | Some (String c m) => modify (set_status_label (StatusMessage (String c m)))
  | _ =>
      self <- get_state ;;
      let cur := current_path self in
      try_except
        (modify (emit (Listdir cur)) ;;;
         items <- call (Os.listdir fs cur) ;;
         let dirs := count_dirs fs cur items in
         let files := (Z.of_nat (List.length items) - dirs)%Z in
         modify (set_status_label (StatusCounts dirs files cur)))
        (fun _ => true)
        (fun _ => modify (set_status_label (StatusCurrent cur)))
  end.

(** [ModernFileExplorer.go_up] *)
Definition go_up (fs : Os.filesystem) : M ModernFileExplorer unit :=
  self <- get_state ;;
  let parent := Pathlib.str (Pathlib.parent (Pathlib.parse (current_path self))) in
  if negb (String.eqb parent (current_path self)) then
    modify (set_current_path parent) ;;;
    modify (set_address_bar parent) ;;;
    modify (set_list_view_root parent) ;;;
    modify (set_tree_view_current parent) ;;;
    update_status fs None
  else ret tt.

End Explorer.

(* ===================================================================== *)
(** ** [file_manager.py]: opening entries of the Tk [FileManager] *)
(* ===================================================================== *)

Module Desk.
Import Py Eff.
Local Open Scope eff_scope.

(** The host system, as [open_file] sees it: [platform.system()], the
    two ways to start the default application (each returns or raises),
    and [str(e)] of what they raise. *)
Record Host : Type := {
  system : string;
  subprocess_call : string -> string -> result unit;
  startfile : string -> result unit;
  describe : exn -> string
}.

(** Attempts to start an application, oldest first. *)
Inductive launch : Type :=
| Subprocess (program filepath : string)
| Startfile (filepath : string).

(** The window together with what it started on the desktop. *)
Record Desktop : Type := {
  window : Tk.FileManager;
  launched : list launch
}.

Definition set_window (w : Tk.FileManager) (self : Desktop) : Desktop :=
  {| window := w; launched := launched self |}.

Definition start (l : launch) (self : Desktop) : Desktop :=
  {| window := window self; launched := launched self ++ [l] |}.

(** A statement of the window itself. *)
Definition on_window {A} (c : M Tk.FileManager A) : M Desktop A :=
  zoom window set_window c.

(** [FileManager.open_file] *)
Definition open_file (host : Host) (filepath : string) : M Desktop unit :=
  try_except
    (if String.eqb (system host) "Darwin" then
       modify (start (Subprocess "open" filepath)) ;;;
       call (subprocess_call host "open" filepath)
     else if String.eqb (system host) "Windows" then
       modify (start (Startfile filepath)) ;;;
       call (startfile host filepath)
     else
       modify (start (Subprocess "xdg-open" filepath)) ;;;
       call (subprocess_call host "xdg-open" filepath))
    isinstance_Exception
    (fun e =>
       on_window
         (modify (Tk.emit (Tk.Showerror "Error"
                             ("Could not open file: " ++ describe host e))))).

(** How a handler ends: like any method, or with the [IndexError] of
    [self.tree.selection()[0]] on an empty selection. *)
Inductive ending : Type :=
| Finished (r : result unit)
| IndexError.

(** [FileManager.on_double_click]; [selection] holds the rows of the
    selected items, [self.tree.item(item_id, "values")] for each id of
    [self.tree.selection()]. *)
Definition on_double_click (fs : Os.filesystem) (host : Host)
    (selection : list Tk.row) (self : Desktop) : ending * Desktop :=
  match selection with
  | [] => (IndexError, self)
  | item_values :: _ =>
      let item_name := fst (fst item_values) in
      let full_path := Os.join (Tk.current_path (window self)) item_name in
      let '(r, self') :=
        (if Os.isdir fs full_path then
           on_window (modify (Tk.set_current_path full_path) ;;;
                      Tk.refresh_file_list fs)
         else open_file host full_path) self in
      (Finished r, self')
  end.

End Desk.

(* ===================================================================== *)
(** ** More of Python's [str] and [os.path] *)
(* ===================================================================== *)

Module PyStr.

(** [c.isspace()] on code points below 256. *)
Definition isspace (c : ascii) : bool :=
  let n := N_of_ascii c in
  ((9 <=? n) && (n <=? 13) || (28 <=? n) && (n <=? 32) ||
   (n =? 133) || (n =? 160))%N.

Fixpoint lstrip_chars (l : list ascii) : list ascii :=
  match l with
  | [] => []
  | c :: l' => if isspace c then lstrip_chars l' else l
  end.

(** [s.strip()] *)
Definition strip (s : string) : string :=
  string_of_list_ascii
    (rev (lstrip_chars (rev (lstrip_chars (list_ascii_of_string s))))).

(** [os.path.exists(p)]: [stat] succeeds; any [OSError] gives [False]. *)
Definition exists_ (fs : Os.filesystem) (p : string) : bool :=
  match fs p with
  | Some (Os.Directory _ _ _) => true
  | Some (Os.RegularFile _) => true
  | Some Os.BrokenLink => false
  | Some (Os.Blocked _) => false
  | None => false
  end.

(** The one-character string of a double quote. *)
Definition dquote : string := String (ascii_of_nat 34) EmptyString.

End PyStr.

(* ===================================================================== *)
(** ** [files - Copy (2).py]: moving around in the [ModernFileManager] *)
(* ===================================================================== *)

Module QtNav.
Import Py Eff.
Local Open Scope eff_scope.

(** What the window reads from its surroundings: the file system, the
    image libraries, the icon theme, and whether the tree's
    [QFileSystemModel] has a valid index for a path. *)
Record World : Type := {
  fs : Os.filesystem;
  images : Thumb.Env;
  theme_has : string -> bool;
  index_valid : string -> bool
}.

(** Message boxes of the window itself, oldest first. *)
Inductive notice : Type :=
| Warning (title message : string)
| Information (title message : string).

(** The [ModernFileManager] with its address bar and directory tree. *)
Record Window : Type := {
  manager : Qt.ModernFileManager;
  address_bar : string;
  tree_current : option string;
  tree_expanded : list string;
  notices : list notice
}.

Definition set_manager (m : Qt.ModernFileManager) (self : Window) : Window :=
  {| manager := m; address_bar := address_bar self;
     tree_current := tree_current self; tree_expanded := tree_expanded self;
     notices := notices self |}.

Definition set_current_path (p : string) (self : Window) : Window :=
  set_manager
    {| Qt.current_path := p;
       Qt.list_model := Qt.list_model (manager self);
       Qt.thumb_cache := Qt.thumb_cache (manager self);
       Qt.log := Qt.log (manager self) |}
    self.

Definition set_address_bar (t : string) (self : Window) : Window :=
  {| manager := manager self; address_bar := t;
     tree_current := tree_current self; tree_expanded := tree_expanded self;
     notices := notices self |}.

Definition set_tree_current (p : string) (self : Window) : Window :=
  {| manager := manager self; address_bar := address_bar self;
     tree_current := Some p; tree_expanded := tree_expanded self;
     notices := notices self |}.

Definition expand (p : string) (self : Window) : Window :=
  {| manager := manager self; address_bar := address_bar self;
     tree_current := tree_current self;
     tree_expanded := tree_expanded self ++ [p];
     notices := notices self |}.

Definition notify (n : notice) (self : Window) : Window :=
  {| manager := manager self; address_bar := address_bar self;
     tree_current := tree_current self; tree_expanded := tree_expanded self;
     notices := notices self ++ [n] |}.

(** [self.populate_list(path)] *)
Definition populate_list (w : World) (path : string) : M Window unit :=
  zoom manager set_manager
    (Qt.populate_list (fs w) (images w) (theme_has w) path).

(** [ModernFileManager.change_directory] *)
Definition change_directory (w : World) (path : string) : M Window unit :=
  modify (set_current_path path) ;;;
  modify (set_address_bar path) ;;;
  populate_list w path ;;;
  if index_valid w path then
    modify (set_tree_current path) ;;;
    modify (expand path)
  else ret tt.

(** [ModernFileManager.on_tree_clicked], for the path of the index. *)
Definition on_tree_clicked (w : World) (path : string) : M Window unit :=
  change_directory w path.

(** [ModernFileManager.on_address_entered] *)
Definition on_address_entered (w : World) : M Window unit :=
  self <- get_state ;;
  let path := PyStr.strip (address_bar self) in
  if Os.isdir (fs w) path then change_directory w path
  else modify (notify (Warning "Path error" ("Path not found: " ++ path))).

(** [ModernFileManager.refresh] *)
Definition refresh (w : World) : M Window unit :=
  self <- get_state ;;
  populate_list w (Qt.current_path (manager self)).

(** [ModernFileManager.go_up]: no test for the root here. *)
Definition go_up (w : World) : M Window unit :=
  self <- get_state ;;
  let p := Pathlib.parent (Pathlib.parse (Qt.current_path (manager self))) in
  change_directory w (Pathlib.str p).

(** [ModernFileManager.go_back] and [go_forward] *)
Definition go_back : M Window unit :=
  modify (notify (Information "Nav" "Back not implemented in this demo")).

Definition go_forward : M Window unit :=
  modify (notify (Information "Nav" "Forward not implemented in this demo")).

End QtNav.

(* ===================================================================== *)
(** ** [files.py]: the handlers of the [ModernFileExplorer] *)
(* ===================================================================== *)

Module ExplorerNav.
Import Py Eff.
Local Open Scope eff_scope.

(** The host, as the handlers see it: [str(Path.home())],
    [sys.platform], [os.startfile] and [os.system] (each returns or
    raises), and [str(e)] of what they raise. *)
Record Host : Type := {
  home : string;
  platform : string;
  startfile : string -> result unit;
  os_system : string -> result unit;
  describe : exn -> string
}.

(** Message boxes, oldest first. *)
Inductive dialog : Type :=
| Warning (title message : string).

(** Attempts to open a file outside, oldest first. *)
Inductive command : Type :=
| Startfile (path : string)
| System (command_line : string).

(** The explorer with its message boxes and what it started outside. *)
Record Desktop : Type := {
  explorer : Explorer.ModernFileExplorer;
  dialogs : list dialog;
  commands : list command
}.

Definition set_explorer (e : Explorer.ModernFileExplorer) (self : Desktop)
    : Desktop :=
  {| explorer := e; dialogs := dialogs self; commands := commands self |}.

Definition show (d : dialog) (self : Desktop) : Desktop :=
  {| explorer := explorer self; dialogs := dialogs self ++ [d];
     commands := commands self |}.

Definition run_command (c : command) (self : Desktop) : Desktop :=
  {| explorer := explorer self; dialogs := dialogs self;
     commands := commands self ++ [c] |}.

(** A statement of the explorer itself. *)
Definition on_explorer {A} (c : M Explorer.ModernFileExplorer A)
    : M Desktop A :=
  zoom explorer set_explorer c.

(** The four statements that move the explorer to a directory:
    [self.current_path = path], the address bar, the root of the list
    view and the current index of the tree view. *)
Definition show_directory (fs : Os.filesystem) (path : string)
    (set_address set_tree : bool) : M Desktop unit :=
  on_explorer
    (modify (Explorer.set_current_path path) ;;;
     (if set_address then modify (Explorer.set_address_bar path) else ret tt) ;;;
     modify (Explorer.set_list_view_root path) ;;;
     (if set_tree then modify (Explorer.set_tree_view_current path)
      else ret tt) ;;;
     Explorer.update_status fs None).

(** [ModernFileExplorer.on_tree_clicked], for the path of the index. *)
Definition on_tree_clicked (fs : Os.filesystem) (path : string)
    : M Desktop unit :=
  if Os.isdir fs path then show_directory fs path true false else ret tt.

(** [f'open "{path}"'] and [f'xdg-open "{path}"'] *)
Definition quoted (program path : string) : string :=
  program ++ " " ++ PyStr.dquote ++ path ++ PyStr.dquote.

(** [ModernFileExplorer.on_item_double_clicked], for the path of the
    index. *)
Definition on_item_double_clicked (fs : Os.filesystem) (host : Host)
    (path : string) : M Desktop unit :=
  if Os.isdir fs path then show_directory fs path true true
  else
    try_except
      (if String.eqb (platform host) "win32" then
         modify (run_command (Startfile path)) ;;;
         call (startfile host path)
       else if String.eqb (platform host) "darwin" then
         modify (run_command (System (quoted "open" path))) ;;;
         call (os_system host (quoted "open" path))
       else
         modify (run_command (System (quoted "xdg-open" path))) ;;;
         call (os_system host (quoted "xdg-open" path)))
      isinstance_Exception
      (fun e =>
         modify (show (Warning "Error"
                         ("Could not open file: " ++ describe host e)))).

(** [ModernFileExplorer.navigate_to_path]; the path is the text of the
    address bar. *)
Definition navigate_to_path (fs : Os.filesystem) : M Desktop unit :=
  self <- get_state ;;
  let path := Explorer.address_bar (explorer self) in
  if PyStr.exists_ fs path && Os.isdir fs path then
    show_directory fs path false true
  else
    modify (show (Warning "Invalid Path"
                    "The specified path does not exist or is not a directory.")) ;;;
    self <- get_state ;;
    on_explorer
      (modify (Explorer.set_address_bar (Explorer.current_path (explorer self)))).

(** [ModernFileExplorer.go_back] and [go_forward] *)
Definition go_back (fs : Os.filesystem) : M Desktop unit :=
  on_explorer
    (Explorer.update_status fs
       (Some "Back navigation - implement history for full functionality")).

Definition go_forward (fs : Os.filesystem) : M Desktop unit :=
  on_explorer
    (Explorer.update_status fs
       (Some "Forward navigation - implement history for full functionality")).

(** [ModernFileExplorer.go_up], among the other handlers. *)
Definition go_up (fs : Os.filesystem) : M Desktop unit :=
  on_explorer (Explorer.go_up fs).

(** [ModernFileExplorer.go_home] *)
Definition go_home (fs : Os.filesystem) (host : Host) : M Desktop unit :=
  show_directory fs (home host) true true.

(** [ModernFileExplorer.refresh_view]: the model is reset (it is not
    part of this state) and the status says so. *)
Definition refresh_view (fs : Os.filesystem) : M Desktop unit :=
  on_explorer (Explorer.update_status fs (Some "View refreshed")).

(** What the user does to the window. *)
Inductive action : Type :=
| TreeClicked (path : string)
| ItemDoubleClicked (path : string)
| AddressEntered (typed : string)
| Up
| Home
| Back
| Forward
| Refresh.

(** The handler of an action; typing into the address bar sets its text
    before the handler reads it. *)
Definition handle (fs : Os.filesystem) (host : Host) (a : action)
    : M Desktop unit :=
  match a with
  | TreeClicked path => on_tree_clicked fs path
  | ItemDoubleClicked path => on_item_double_clicked fs host path
  | AddressEntered typed =>
      on_explorer (modify (Explorer.set_address_bar typed)) ;;;
      navigate_to_path fs
  | Up => go_up fs
  | Home => go_home fs host
  | Back => go_back fs
  | Forward => go_forward fs
  | Refresh => refresh_view fs
  end.

(** A session: the actions one after the other, each on the state the
    one before left, whatever it ended with. *)
Fixpoint session (fs : Os.filesystem) (host : Host) (actions : list action)
    (self : Desktop) : Desktop :=
  match actions with
  | [] => self
  | a :: rest => session fs host rest (snd (handle fs host a self))
  end.

(** The two digits after the point of [format(x, '.2f')], from the
    hundredths. *)
Definition two_digits (h : N) : string :=
  decimal ((h / 10) mod 10) ++ decimal (h mod 10).

(** [f"{size:.2f}"] for [size = num / den], a value the float holds
    exactly (an [int] is converted to a float first, exactly if it is
    below [2^53]). *)
Definition format_2f (num den : N) : string :=
  let h := round_half_even (num * 100) den in
  decimal (h / 100) ++ "." ++ two_digits h.

(** The loop of [format_size]: [size] is [num / den], and [size /= 1024.0]
    multiplies [den]. *)
Fixpoint format_size_from (units : list string) (num den : N) : string :=
  match units with
  | [] => format_2f num den ++ " PB"
  | unit :: rest =>
      if (num <? 1024 * den)%N then format_2f num den ++ " " ++ unit
      else format_size_from rest num (den * 1024)
  end.

(** [ModernFileExplorer.format_size] for a byte count, an [int].  The
    first test compares the integer itself; the first [size /= 1024.0]
    converts it to the nearest float, and from there every division by
    [1024.0] is exact. *)
Definition format_size (size : N) : string :=
  if (size <? 1024)%N then format_2f size 1 ++ " B"
  else format_size_from ["KB"; "MB"; "GB"; "TB"] (float_of_int size) 1024.

End ExplorerNav.

(* ===================================================================== *)
(** ** [files - Copy (2).py]: copy and paste in the [ModernFileManager] *)
(* ===================================================================== *)

Module QtClip.
Import Py Eff.
Local Open Scope eff_scope.

(** A call into [shutil]. *)
Inductive operation : Type :=
| Move (src dest : string)
| Copytree (src dest : string)
| Copy2 (src dest : string).

(** The file operations of the host: what a call does to the file
    system and whether it returns or raises; and [str(e)]. *)
Record Shell : Type := {
  run : operation -> Os.filesystem -> result unit * Os.filesystem;
  describe : exn -> string
}.

(** The window with its clipboard, on a file system that the pasted
    operations change; [operations] logs the calls, oldest first. *)
Record Desk : Type := {
  window : QtNav.Window;
  clipboard_paths : list string;
  cut_mode : bool;
  disk : Os.filesystem;
  operations : list operation
}.

Definition set_window (w : QtNav.Window) (self : Desk) : Desk :=
  {| window := w; clipboard_paths := clipboard_paths self;
     cut_mode := cut_mode self; disk := disk self;
     operations := operations self |}.

Definition set_clipboard_paths (l : list string) (self : Desk) : Desk :=
  {| window := window self; clipboard_paths := l;
     cut_mode := cut_mode self; disk := disk self;
     operations := operations self |}.

Definition set_cut_mode (b : bool) (self : Desk) : Desk :=
  {| window := window self; clipboard_paths := clipboard_paths self;
     cut_mode := b; disk := disk self; operations := operations self |}.

(** One call into [shutil], on the disk of the moment. *)
Definition shutil (sh : Shell) (op : operation) : M Desk unit :=
  fun self =>
    let '(r, d) := run sh op (disk self) in
    (r, {| window := window self; clipboard_paths := clipboard_paths self;
           cut_mode := cut_mode self; disk := d;
           operations := operations self ++ [op] |}).

(** [os.path.basename(p)]: what follows the last slash. *)
Fixpoint basename_chars (l : list ascii) : list ascii :=
  match l with
  | [] => []
  | c :: l' => if existsb Os.is_sep l then basename_chars l' else l
  end.

Definition basename (p : string) : string :=
  string_of_list_ascii (basename_chars (list_ascii_of_string p)).

(** The Copy entry of the context menu, for the item under the pointer
    if there is one. *)
Definition copy_action (item : option Qt.item) : M Desk unit :=
  match item with
  | Some it =>
      modify (set_clipboard_paths [Qt.data it]) ;;;
      modify (set_cut_mode false)
  | None => ret tt
  end.

(** The body of [for src in self.clipboard_paths] in [paste]. *)
Definition paste_one (sh : Shell) (src : string) : M Desk unit :=
  self <- get_state ;;
  let base := basename src in
  let dest := Os.join (Qt.current_path (QtNav.manager (window self))) base in
  try_except
    (if Os.isdir (disk self) src then
       if cut_mode self then shutil sh (Move src dest)
       else shutil sh (Copytree src dest)
     else
       if cut_mode self then shutil sh (Move src dest)
       else shutil sh (Copy2 src dest))
    isinstance_Exception
    (fun e =>
       zoom window set_window
         (modify (QtNav.notify (QtNav.Warning "Paste failed" (describe sh e))))).

(** [self.populate_list(self.current_path)] on the disk of the moment. *)
Definition relist (images : Thumb.Env) (theme_has : string -> bool)
    : M Desk unit :=
  self <- get_state ;;
  zoom window set_window
    (zoom QtNav.manager QtNav.set_manager
       (Qt.populate_list (disk self) images theme_has
          (Qt.current_path (QtNav.manager (window self))))).

(** [ModernFileManager.paste] *)
Definition paste (sh : Shell) (images : Thumb.Env) (theme_has : string -> bool)
    : M Desk unit :=
  self <- get_state ;;
  match clipboard_paths self with
  | [] => ret tt
  | paths =>
      for_each paths (paste_one sh) ;;;
      modify (set_clipboard_paths []) ;;;
      modify (set_cut_mode false) ;;;
      relist images theme_has
  end.

(** What the user does with the clipboard. *)
Inductive action : Type :=
| CopyItem (item : option Qt.item)
| Paste.

Definition handle (sh : Shell) (images : Thumb.Env)
    (theme_has : string -> bool) (a : action) : M Desk unit :=
  match a with
  | CopyItem item => copy_action item
  | Paste => paste sh images theme_has
  end.

Fixpoint session (sh : Shell) (images : Thumb.Env)
    (theme_has : string -> bool) (actions : list action) (self : Desk) : Desk :=
  match actions with
  | [] => self
  | a :: rest =>
      session sh images theme_has rest (snd (handle sh images theme_has a self))
  end.

End QtClip.

(* ===================================================================== *)
(** ** Vocabulary of the statements *)
(* ===================================================================== *)

Import Py.

(** The name column of a Tk row. *)
Definition row_name (r : Tk.row) : string := fst (fst r).

(** [x <= y] by sort key, as the sort sees it: not [key y < key x]. *)
Definition key_le {A K : Type} (lt : K -> K -> bool) (key : A -> K)
    (x y : A) : Prop :=
  lt (key y) (key x) = false.

(** The sort key of a name, for a given test of being a directory. *)
Definition name_key (is_dir : string -> bool) (x : string) : bool * string :=
  (negb (is_dir x), lower x).

(** Case-insensitive [<=] on names. *)
Definition ci_le (a b : string) : Prop := String.leb (lower a) (lower b) = true.

(** [out] lists the children [entries] of a directory, directories (as
    told by [is_dir]) first, each group in case-insensitive order. *)
Definition listing_of (is_dir : string -> bool) (entries out : list string)
    : Prop :=
  Permutation out entries /\
  exists dirs files,
    out = dirs ++ files /\
    Forall (fun x => is_dir x = true) dirs /\
    Forall (fun x => is_dir x = false) files /\
    StronglySorted ci_le dirs /\
    StronglySorted ci_le files.

(** The directory of the scenario: [B.txt] (10 bytes), [a_folder] (with a
    file of its own) and [A.txt] (5 bytes), enumerated in that order. *)
Definition scenario_fs : Os.filesystem := fun p =>
  if String.eqb p "/d" then
    Some (Os.Directory 4096 true ["B.txt"; "a_folder"; "A.txt"])
  else if String.eqb p "/d/B.txt" then Some (Os.RegularFile 10)
  else if String.eqb p "/d/a_folder" then
    Some (Os.Directory 4096 true ["inner.txt"])
  else if String.eqb p "/d/a_folder/inner.txt" then Some (Os.RegularFile 1)
  else if String.eqb p "/d/A.txt" then Some (Os.RegularFile 5)
  else None.

Definition tk_start (cur : string) : Tk.FileManager :=
  {| Tk.current_path := cur; Tk.path_label := cur; Tk.tree := []; Tk.log := [] |}.

Definition qt_start (cur : string) : Qt.ModernFileManager :=
  {| Qt.current_path := cur; Qt.list_model := [];
     Qt.thumb_cache := Thumb.init (128, 128)%Z; Qt.log := [] |}.

(** Image libraries that decode nothing: Pillow is not installed. *)
Definition no_pillow : Thumb.Env :=
  {| Thumb.pillow_available := false;
     Thumb.image_open := fun _ => Raise UnidentifiedImageError;
     Thumb.image_load := fun _ => Ok tt;
     Thumb.qimage_roundtrip := Ok tt;
     Thumb.qpixmap_load := fun _ => None |}.

(** Image libraries for which every step succeeds and every file is an
    image of [src] pixels. *)
Definition all_images (src : Z * Z) : Thumb.Env :=
  {| Thumb.pillow_available := true;
     Thumb.image_open := fun _ => Ok src;
     Thumb.image_load := fun _ => Ok tt;
     Thumb.qimage_roundtrip := Ok tt;
     Thumb.qpixmap_load := fun _ => Some src |}.

(** Image libraries for which no file opens as an image. *)
Definition no_images : Thumb.Env :=
  {| Thumb.pillow_available := true;
     Thumb.image_open := fun _ => Raise UnidentifiedImageError;
     Thumb.image_load := fun _ => Ok tt;
     Thumb.qimage_roundtrip := Ok tt;
     Thumb.qpixmap_load := fun _ => None |}.

(** Pillow opens every file but Qt loads none. *)
Definition pillow_only (src : Z * Z) : Thumb.Env :=
  {| Thumb.pillow_available := true;
     Thumb.image_open := fun _ => Ok src;
     Thumb.image_load := fun _ => Ok tt;
     Thumb.qimage_roundtrip := Ok tt;
     Thumb.qpixmap_load := fun _ => None |}.

(** Pillow and PyQt6 as installed, for image files of [src] pixels:
    Pillow opens and decodes every file and Qt loads it, and
    [QPixmap.fromImage], given a [QPixmap] where it expects a [QImage],
    raises [TypeError]. *)
Definition pyqt6_images (src : Z * Z) : Thumb.Env :=
  {| Thumb.pillow_available := true;
     Thumb.image_open := fun _ => Ok src;
     Thumb.image_load := fun _ => Ok tt;
     Thumb.qimage_roundtrip := Raise TypeError;
     Thumb.qpixmap_load := fun _ => Some src |}.

(** Making a thumbnail of [path] fails: Pillow is missing, or a statement
    of the [try] block raises. *)
Definition decode_fails (env : Thumb.Env) (path : string) : Prop :=
  Thumb.pillow_available env = false \/
  (exists e, Thumb.image_open env path = Raise e) \/
  (exists e, Thumb.image_load env path = Raise e) \/
  (exists e, Thumb.qimage_roundtrip env = Raise e).

(** Pillow handles the file and every statement of the [try] block
    completes, but Qt loads a null pixmap from it. *)
Definition qt_load_fails (env : Thumb.Env) (path : string) : Prop :=
  Thumb.pillow_available env = true /\
  (exists d, Thumb.image_open env path = Ok d) /\
  Thumb.image_load env path = Ok tt /\
  Thumb.qimage_roundtrip env = Ok tt /\
  Thumb.qpixmap_load env path = None.

(** A run of [get] calls, each under the image libraries and file
    contents of its own moment. *)
Fixpoint run_gets (calls : list (Thumb.Env * string))
    (self : Thumb.ThumbnailCache) : Thumb.ThumbnailCache :=
  match calls with
  | [] => self
  | (env, path) :: rest => run_gets rest (snd (Thumb.get env path self))
  end.

(** Two file systems show the same snapshot of the directory [cur]: the
    same children, each with the same node, enumerated in any order. *)
Definition same_snapshot (fs1 fs2 : Os.filesystem) (cur : string)
    (child_path : string -> string) (entries1 entries2 : list string) : Prop :=
  (exists sz1, fs1 cur = Some (Os.Directory sz1 true entries1)) /\
  (exists sz2, fs2 cur = Some (Os.Directory sz2 true entries2)) /\
  Permutation entries1 entries2 /\
  forall x, In x entries1 -> fs1 (child_path x) = fs2 (child_path x).

(** Two enumerations of one directory whose children [A.txt] and [a.txt]
    differ by case only. *)
Definition case_fs (entries : list string) : Os.filesystem := fun p =>
  if String.eqb p "/d" then Some (Os.Directory 4096 true entries)
  else if String.eqb p "/d/A.txt" then Some (Os.RegularFile 5)
  else if String.eqb p "/d/a.txt" then Some (Os.RegularFile 7)
  else None.

(** A directory with a dangling link between two readable children, and
    next to it a directory that cannot be read and a plain file. *)
Definition broken_fs : Os.filesystem := fun p =>
  if String.eqb p "/d" then
    Some (Os.Directory 4096 true ["notes.txt"; "dangling"; "sub"])
  else if String.eqb p "/d/notes.txt" then Some (Os.RegularFile 2048)
  else if String.eqb p "/d/dangling" then Some Os.BrokenLink
  else if String.eqb p "/d/sub" then Some (Os.Directory 4096 true [])
  else if String.eqb p "/locked" then Some (Os.Directory 4096 false ["x"])
  else if String.eqb p "/file" then Some (Os.RegularFile 3)
  else None.

(** A directory that can be read but not searched (mode [r--]): it
    enumerates its two children, and [stat] on each of them fails with
    [EACCES]. *)
Definition unsearchable_fs : Os.filesystem := fun p =>
  if String.eqb p "/shut" then
    Some (Os.Directory 4096 true ["a.txt"; "sub"])
  else if String.eqb p "/shut/a.txt" then Some (Os.Blocked EACCES)
  else if String.eqb p "/shut/sub" then Some (Os.Blocked EACCES)
  else None.

(** A directory with one child, a symbolic link that leads back to
    itself: [stat] on it fails with [ELOOP], a plain [OSError]. *)
Definition looped_fs : Os.filesystem := fun p =>
  if String.eqb p "/d" then Some (Os.Directory 4096 true ["loop"])
  else if String.eqb p "/d/loop" then Some (Os.Blocked ELOOP)
  else None.

(** The row the Tk listing shows for the child [item] of [cur]. *)
Definition tk_row (fs : Os.filesystem) (cur item : string) : Tk.row :=
  let full_path := Os.join cur item in
  if Os.isdir fs full_path then (item, "", "Folder")
  else match Os.getsize fs full_path with
       | Ok n => (item, format_kb n, "File")
       | Raise _ => (item, "N/A", "File")
       end.

(** The pixmap [_make_thumbnail] returns for [path], by cases on what
    the image libraries do. *)
Definition thumbnail_of (env : Thumb.Env) (size : Z * Z) (path : string)
    : Thumb.pixmap :=
  if negb (Thumb.pillow_available env) then Thumb.ThemePixmap "text-x-generic" size
  else
    match Thumb.image_open env path, Thumb.image_load env path,
          Thumb.qimage_roundtrip env, Thumb.qpixmap_load env path with
    | Ok _, Ok _, Ok _, Some src => Thumb.scaled path src size
    | Ok _, Ok _, Ok _, None => Thumb.ThemePixmap "image-x-generic" size
    | _, _, _, _ => Thumb.ThemePixmap "text-x-generic" size
    end.

(** The reads of the source file [_make_thumbnail] makes on the way. *)
Definition thumbnail_reads (env : Thumb.Env) (path : string)
    : list Thumb.access :=
  if negb (Thumb.pillow_available env) then []
  else
    match Thumb.image_open env path, Thumb.image_load env path,
          Thumb.qimage_roundtrip env with
    | Ok _, Ok _, Ok _ => [Thumb.ImageOpen path; Thumb.QPixmapLoad path]
    | _, _, _ => [Thumb.ImageOpen path]
    end.

(** States of a path that [os.listdir] refuses. *)
Definition unreadable_dir (fs : Os.filesystem) (p : string) : Prop :=
  exists sz entries, fs p = Some (Os.Directory sz false entries).

Definition missing (fs : Os.filesystem) (p : string) : Prop :=
  fs p = None \/ fs p = Some Os.BrokenLink.

Definition not_a_directory (fs : Os.filesystem) (p : string) : Prop :=
  exists n, fs p = Some (Os.RegularFile n).

(** A Tk window whose listing was aborted: empty tree, the directory
    read and then [extra] in the log. *)
Definition tk_aborted (self : Tk.FileManager) (extra : list Tk.event)
    : Tk.FileManager :=
  {| Tk.current_path := Tk.current_path self;
     Tk.path_label := Tk.current_path self;
     Tk.tree := [];
     Tk.log := Tk.log self ++ Tk.Listdir (Tk.current_path self) :: extra |}.

(** A Qt window whose listing was aborted with the exception [e]: empty
    list, the directory read and then the warning in the log. *)
Definition qt_aborted (self : Qt.ModernFileManager) (path : string) (e : exn)
    : Qt.ModernFileManager :=
  {| Qt.current_path := Qt.current_path self;
     Qt.list_model := [];
     Qt.thumb_cache := Qt.thumb_cache self;
     Qt.log := Qt.log self ++
               [Qt.Listdir (Pathlib.str (Pathlib.parse path));
                Qt.Warning "Error" "Could not list directory: " e] |}.

(** The image libraries of the first call of a run that asks for [path]. *)
Fixpoint first_env (calls : list (Thumb.Env * string)) (path : string)
    : option Thumb.Env :=
  match calls with
  | [] => None
  | (env, p) :: rest =>
      if String.eqb p path then Some env else first_env rest path
  end.

(** The file a source read touches. *)
Definition access_path (a : Thumb.access) : string :=
  match a with
  | Thumb.ImageOpen path => path
  | Thumb.QPixmapLoad path => path
  end.

(** The reads made so far are pairwise different and each belongs to a
    path the cache has an entry for. *)
Definition reads_ok (self : Thumb.ThumbnailCache) : Prop :=
  List.NoDup (Thumb.accesses self) /\
  forall a, In a (Thumb.accesses self) ->
    is_Some (Thumb.cache self !! (access_path a, Thumb.thumb_size self)).

(** What [p.is_dir()] answers, with [false] where it raises. *)
Definition dir_flag (fs : Os.filesystem) (p : Pathlib.Path) : bool :=
  match Pathlib.is_dir fs p with
  | Ok d => d
  | Raise _ => false
  end.

(** The children [names] of [p] can be examined: [is_dir] answers for
    each of them. *)
Definition can_examine (fs : Os.filesystem) (p : Pathlib.Path)
    (names : list string) : Prop :=
  forall x, In x names -> exists d, Pathlib.is_dir fs (Pathlib.child p x) = Ok d.

(** The Qt listing asks the cache for a thumbnail of [p]: no directory,
    and an image suffix. *)
Definition wants_thumbnail (fs : Os.filesystem) (p : Pathlib.Path) : bool :=
  negb (dir_flag fs p) &&
  existsb (String.eqb (lower (Pathlib.suffix p))) Qt.image_suffixes.

(** The item the Qt listing shows for [p] when the thumbnail of an image
    file is what the cache map [c] holds for it. *)
Definition entry_item (fs : Os.filesystem) (theme_has : string -> bool)
    (c : gmap (string * (Z * Z)) Thumb.pixmap) (size : Z * Z)
    (p : Pathlib.Path) : Qt.item :=
  {| Qt.text := Pathlib.name p;
     Qt.icon :=
       if dir_flag fs p then Qt.IconFromTheme "folder"
       else
         let pix :=
           if existsb (String.eqb (lower (Pathlib.suffix p))) Qt.image_suffixes
           then default Thumb.NullPixmap (c !! (Pathlib.str p, size))
           else Thumb.NullPixmap in
         if negb (Qt.isNull theme_has pix) then Qt.IconOfPixmap pix
         else Qt.IconFromTheme "text-x-generic";
     Qt.data := Pathlib.str p |}.

(** A path in the form the Tk window keeps: no slash at the end, unless
    it is made of slashes only (the root). *)
Definition normal_path (p : string) : Prop :=
  Os.endswith_sep p = false \/
  forallb Os.is_sep (list_ascii_of_string p) = true.

(** A name as a directory enumerates it: not empty and without a slash. *)
Definition plain_name (x : string) : Prop :=
  x <> "" /\
  forallb (fun c => negb (Os.is_sep c)) (list_ascii_of_string x) = true.

(** [n] clicks on the Up button of the Tk window, whatever each of them
    ends with. *)
Fixpoint ups (fs : Os.filesystem) (n : nat) (self : Tk.FileManager)
    : Tk.FileManager :=
  match n with
  | O => self
  | S n' => ups fs n' (snd (Tk.go_up fs self))
  end.

(** A host on which nothing can be started: the launcher is missing. *)
Definition bare_host : Desk.Host :=
  {| Desk.system := "Linux";
     Desk.subprocess_call := fun _ _ => Raise FileNotFoundError;
     Desk.startfile := fun _ => Raise FileNotFoundError;
     Desk.describe := fun _ => "No such file or directory: 'xdg-open'" |}.

(** The attempt [open_file] makes for [filepath] on a host, and how the
    host answers it. *)
Definition launch_for (host : Desk.Host) (filepath : string) : Desk.launch :=
  if String.eqb (Desk.system host) "Darwin" then Desk.Subprocess "open" filepath
  else if String.eqb (Desk.system host) "Windows" then Desk.Startfile filepath
  else Desk.Subprocess "xdg-open" filepath.

Definition launch_answer (host : Desk.Host) (filepath : string) : result unit :=
  if String.eqb (Desk.system host) "Darwin"
  then Desk.subprocess_call host "open" filepath
  else if String.eqb (Desk.system host) "Windows"
  then Desk.startfile host filepath
  else Desk.subprocess_call host "xdg-open" filepath.

Definition desk_start (cur : string) : Desk.Desktop :=
  {| Desk.window := tk_start cur; Desk.launched := [] |}.

Definition nav_start (cur : string) : QtNav.Window :=
  {| QtNav.manager := qt_start cur; QtNav.address_bar := cur;
     QtNav.tree_current := None; QtNav.tree_expanded := [];
     QtNav.notices := [] |}.

(** The scenario's file system with its root directory, seen without
    Pillow and without an icon theme. *)
Definition scenario_world : QtNav.World :=
  {| QtNav.fs := fun p =>
       if String.eqb p "/" then Some (Os.Directory 4096 true ["d"])
       else scenario_fs p;
     QtNav.images := no_pillow;
     QtNav.theme_has := fun _ => false;
     QtNav.index_valid := fun _ => true |}.

(** The address bar and the list view of the explorer show its current
    path. *)
Definition views_agree (e : Explorer.ModernFileExplorer) : Prop :=
  Explorer.address_bar e = Explorer.current_path e /\
  Explorer.list_view_root e = Explorer.current_path e.

Definition explorer_start (cur : string) : ExplorerNav.Desktop :=
  {| ExplorerNav.explorer :=
       {| Explorer.current_path := cur; Explorer.address_bar := cur;
          Explorer.list_view_root := cur; Explorer.tree_view_current := cur;
          Explorer.status_label := Explorer.StatusMessage "Ready";
          Explorer.log := [] |};
     ExplorerNav.dialogs := [];
     ExplorerNav.commands := [] |}.

(** A host whose home is the scenario's directory and on which nothing
    can be started. *)
Definition scenario_host : ExplorerNav.Host :=
  {| ExplorerNav.home := "/d";
     ExplorerNav.platform := "linux";
     ExplorerNav.startfile := fun _ => Raise FileNotFoundError;
     ExplorerNav.os_system := fun _ => Ok tt;
     ExplorerNav.describe := fun _ => "not found" |}.

(** The source of a [shutil] call, and whether the call moves it. *)
Definition op_src (op : QtClip.operation) : string :=
  match op with
  | QtClip.Move src _ => src
  | QtClip.Copytree src _ => src
  | QtClip.Copy2 src _ => src
  end.

Definition is_move (op : QtClip.operation) : bool :=
  match op with
  | QtClip.Move _ _ => true
  | _ => false
  end.

(** A host on which every copy fails and leaves the disk as it was. *)
Definition failing_shell : QtClip.Shell :=
  {| QtClip.run := fun _ d => (Raise PermissionError, d);
     QtClip.describe := fun _ => "Permission denied" |}.

Definition clip_start (cur : string) (clipboard : list string) : QtClip.Desk :=
  {| QtClip.window := nav_start cur; QtClip.clipboard_paths := clipboard;
     QtClip.cut_mode := false; QtClip.disk := scenario_fs;
     QtClip.operations := [] |}.

(* ===================================================================== *)
(** ** The order on sort keys *)
(* ===================================================================== *)

Section KeyOrder.

Lemma str_lt_irrefl a : str_lt a a = false.
Proof.
  unfold str_lt, String.ltb.
  replace (String.compare a a) with Eq; [reflexivity|].
  symmetry. apply OrderedTypeEx.String_as_OT.cmp_eq. reflexivity.
Qed.

Lemma str_lt_trans a b c :
  str_lt a b = true -> str_lt b c = true -> str_lt a c = true.
Proof.
  unfold str_lt, String.ltb. intros Hab Hbc.
  assert (String.compare a b = Lt) as Hab'
    by (destruct (String.compare a b); congruence).
  assert (String.compare b c = Lt) as Hbc'
    by (destruct (String.compare b c); congruence).
  apply OrderedTypeEx.String_as_OT.cmp_lt in Hab', Hbc'.
  pose proof (OrderedTypeEx.String_as_OT.lt_trans _ _ _ Hab' Hbc') as Hac.
  apply OrderedTypeEx.String_as_OT.cmp_lt in Hac.
  unfold OrderedTypeEx.String_as_OT.cmp in Hac. rewrite Hac. reflexivity.
Qed.

Lemma str_lt_total a b :
  str_lt a b = false -> str_lt b a = false -> a = b.
Proof.
  unfold str_lt, String.ltb. rewrite (String.compare_antisym b a).
  destruct (String.compare a b) eqn:E; simpl; try congruence.
  intros _ _. apply String.compare_eq_iff. exact E.
Qed.

Lemma str_leb_lt a b : String.leb a b = negb (str_lt b a).
Proof.
  unfold str_lt, String.ltb, String.leb.
  rewrite (String.compare_antisym a b).
  destruct (String.compare b a); reflexivity.
Qed.

Lemma tuple_lt_irrefl k : tuple_lt k k = false.
Proof.
  unfold tuple_lt. rewrite Bool.eqb_reflx. apply str_lt_irrefl.
Qed.

Lemma tuple_lt_trans a b c :
  tuple_lt a b = true -> tuple_lt b c = true -> tuple_lt a c = true.
Proof.
  destruct a as [[] sa], b as [[] sb], c as [[] sc];
    unfold tuple_lt, bool_lt; simpl; try congruence; try apply str_lt_trans.
Qed.

Lemma tuple_lt_total a b :
  tuple_lt a b = false -> tuple_lt b a = false -> a = b.
Proof.
  destruct a as [[] sa], b as [[] sb];
    unfold tuple_lt, bool_lt; simpl; try congruence;
    intros H1 H2; f_equal; apply str_lt_total; assumption.
Qed.

End KeyOrder.

(* ===================================================================== *)
(** ** The stable sort *)
(* ===================================================================== *)

Section SortFacts.
Context {A K : Type} (lt : K -> K -> bool) (key : A -> K).

Local Abbreviation key_le := (key_le lt key).

Lemma insert_by_Permutation x l : Permutation (insert_by lt key x l) (x :: l).
Proof.
  induction l as [|y l IH]; simpl; [reflexivity|].
  destruct (lt (key y) (key x)).
  - rewrite IH. apply perm_swap.
  - reflexivity.
Qed.

Lemma sort_by_Permutation l : Permutation (sort_by lt key l) l.
Proof.
  induction l as [|x l IH]; simpl; [reflexivity|].
  rewrite insert_by_Permutation. constructor. exact IH.
Qed.

Lemma sort_by_In x l : In x (sort_by lt key l) <-> In x l.
Proof.
  split; apply Permutation_in;
    [apply sort_by_Permutation | symmetry; apply sort_by_Permutation].
Qed.

(** Sorting commutes with renaming the elements. *)
Lemma insert_by_map {B} (f : B -> A) x l :
  insert_by lt key (f x) (List.map f l)
  = List.map f (insert_by lt (fun b => key (f b)) x l).
Proof.
  induction l as [|y l IH]; simpl; [reflexivity|].
  destruct (lt (key (f y)) (key (f x))); simpl; [rewrite IH|]; reflexivity.
Qed.

Lemma sort_by_map {B} (f : B -> A) l :
  sort_by lt key (List.map f l)
  = List.map f (sort_by lt (fun b => key (f b)) l).
Proof.
  induction l as [|x l IH]; simpl; [reflexivity|].
  rewrite IH. apply insert_by_map.
Qed.

(** Stability: the elements of one key keep their order. *)
Section Stable.
Hypothesis lt_irrefl : forall a, lt a a = false.
Variable same : K -> K -> bool.
Hypothesis same_spec : forall a b, same a b = true <-> a = b.

Lemma insert_by_stable k x l :
  List.filter (fun a => same (key a) k) (insert_by lt key x l)
  = List.filter (fun a => same (key a) k) (x :: l).
Proof.
  induction l as [|y l IH]; [reflexivity|].
  simpl insert_by. destruct (lt (key y) (key x)) eqn:Hlt; [|reflexivity].
  simpl in *. rewrite IH.
  destruct (same (key x) k) eqn:Hx, (same (key y) k) eqn:Hy; try reflexivity.
  apply same_spec in Hx, Hy. rewrite Hx, Hy, lt_irrefl in Hlt. discriminate.
Qed.

Lemma sort_by_stable k l :
  List.filter (fun a => same (key a) k) (sort_by lt key l)
  = List.filter (fun a => same (key a) k) l.
Proof.
  induction l as [|x l IH]; [reflexivity|].
  simpl sort_by. rewrite insert_by_stable. simpl. rewrite IH. reflexivity.
Qed.
End Stable.

(** Sortedness, for a strict total order on the keys. *)
Section Sorted.
Hypothesis lt_irrefl : forall a, lt a a = false.
Hypothesis lt_trans :
  forall a b c, lt a b = true -> lt b c = true -> lt a c = true.
Hypothesis lt_total : forall a b, lt a b = false -> lt b a = false -> a = b.

Lemma lt_asym a b : lt a b = true -> lt b a = false.
Proof.
  intros Hab. destruct (lt b a) eqn:Hba; [|reflexivity].
  rewrite <- (lt_irrefl a). symmetry. eapply lt_trans; eassumption.
Qed.

Lemma key_le_trans x y z : key_le x y -> key_le y z -> key_le x z.
Proof.
  unfold key_le. intros Hxy Hyz.
  destruct (lt (key z) (key x)) eqn:Hzx; [|reflexivity].
  destruct (lt (key x) (key y)) eqn:Hlt.
  - rewrite (lt_trans _ _ _ Hzx Hlt) in Hyz. discriminate.
  - rewrite (lt_total _ _ Hlt Hxy) in Hzx. congruence.
Qed.

Lemma insert_by_sorted x l :
  StronglySorted key_le l -> StronglySorted key_le (insert_by lt key x l).
Proof.
  induction 1 as [|y l Hs IH Hall]; simpl.
  - repeat constructor.
  - destruct (lt (key y) (key x)) eqn:Hlt.
    + constructor; [exact IH|].
      eapply Permutation_Forall;
        [symmetry; apply insert_by_Permutation|].
      constructor; [|exact Hall].
      unfold key_le. apply lt_asym. exact Hlt.
    + constructor; [constructor; assumption|].
      constructor; [exact Hlt|].
      eapply List.Forall_impl; [|exact Hall].
      intros z Hyz. simpl in Hyz. eapply key_le_trans; [exact Hlt|exact Hyz].
Qed.

Lemma sort_by_sorted l : StronglySorted key_le (sort_by lt key l).
Proof.
  induction l as [|x l IH]; simpl; [constructor|].
  apply insert_by_sorted. exact IH.
Qed.

(** Two sorted lists with the same elements, no two of one key, are
    the same list. *)
Lemma sorted_unique l1 : forall l2,
  StronglySorted key_le l1 -> StronglySorted key_le l2 ->
  Permutation l1 l2 -> List.NoDup (List.map key l1) -> l1 = l2.
Proof.
  induction l1 as [|x1 l1 IH]; intros l2 Hs1 Hs2 Hp Hnd.
  - apply Permutation_nil in Hp. congruence.
  - destruct l2 as [|x2 l2];
      [symmetry in Hp; apply Permutation_nil in Hp; discriminate|].
    apply StronglySorted_inv in Hs1 as [Hs1 Hall1].
    apply StronglySorted_inv in Hs2 as [Hs2 Hall2].
    assert (x1 = x2) as ->.
    { assert (In x2 (x1 :: l1)) as [->|Hin2]
        by (eapply Permutation_in; [symmetry; exact Hp|left; reflexivity]);
        [reflexivity|].
      assert (In x1 (x2 :: l2)) as [->|Hin1]
        by (eapply Permutation_in; [exact Hp|left; reflexivity]);
        [reflexivity|].
      rewrite List.Forall_forall in Hall1, Hall2.
      pose proof (lt_total (key x1) (key x2) (Hall2 _ Hin1) (Hall1 _ Hin2)) as Hk.
      inversion Hnd as [|? ? Hnotin _]; subst.
      exfalso. apply Hnotin. rewrite Hk. apply List.in_map. exact Hin2. }
    f_equal. apply IH; try assumption.
    + eapply Permutation_cons_inv. exact Hp.
    + inversion Hnd; assumption.
Qed.

(** So the sorted list does not depend on the order of the input
    when no two elements share a key. *)
Lemma sort_by_order_independent l1 l2 :
  Permutation l1 l2 -> List.NoDup (List.map key l1) ->
  sort_by lt key l1 = sort_by lt key l2.
Proof.
  intros Hp Hnd. apply sorted_unique.
  - apply sort_by_sorted.
  - apply sort_by_sorted.
  - rewrite !sort_by_Permutation. exact Hp.
  - eapply Permutation.Permutation_NoDup; [|exact Hnd].
    apply Permutation_map. symmetry. apply sort_by_Permutation.
Qed.
End Sorted.

End SortFacts.

(** The sort only looks at the keys of the elements it is given. *)
Lemma insert_by_ext_in {A K} (lt : K -> K -> bool) (key1 key2 : A -> K) x l :
  key1 x = key2 x -> (forall y, In y l -> key1 y = key2 y) ->
  insert_by lt key1 x l = insert_by lt key2 x l.
Proof.
  intros Hx. induction l as [|y l IH]; intros Hl; simpl; [reflexivity|].
  rewrite Hx, (Hl y) by (left; reflexivity).
  rewrite IH by (intros; apply Hl; right; assumption). reflexivity.
Qed.

Lemma sort_by_ext_in {A K} (lt : K -> K -> bool) (key1 key2 : A -> K) l :
  (forall x, In x l -> key1 x = key2 x) ->
  sort_by lt key1 l = sort_by lt key2 l.
Proof.
  induction l as [|x l IH]; intros Hext; simpl; [reflexivity|].
  rewrite IH by (intros; apply Hext; right; assumption).
  apply insert_by_ext_in; [apply Hext; left; reflexivity|].
  intros y Hy. apply Hext. right. apply sort_by_In in Hy. exact Hy.
Qed.

Lemma sort_by_ext {A K} (lt : K -> K -> bool) (key1 key2 : A -> K) l :
  (forall x, key1 x = key2 x) -> sort_by lt key1 l = sort_by lt key2 l.
Proof. intros Hext. apply sort_by_ext_in. auto. Qed.

(** Sorting with a key function that can raise. *)
Section RaisingKeys.
Context {A K : Type} (lt : K -> K -> bool) (key : A -> result K).

Lemma keyed_ok (key' : A -> K) l :
  (forall x, In x l -> key x = Ok (key' x)) ->
  keyed key l = Ok (List.map (fun x => (key' x, x)) l).
Proof.
  induction l as [|x l IH]; intros Hkeys; simpl; [reflexivity|].
  rewrite (Hkeys x) by (left; reflexivity).
  rewrite IH by (intros y Hy; apply Hkeys; right; exact Hy).
  reflexivity.
Qed.

(** When every key computes, [sorted] is the sort by the keys. *)
Lemma sorted_ok (key' : A -> K) l :
  (forall x, In x l -> key x = Ok (key' x)) ->
  sorted lt key l = Ok (sort_by lt key' l).
Proof.
  intros Hkeys. unfold sorted. rewrite (keyed_ok key' l Hkeys).
  rewrite (sort_by_map lt fst (fun x => (key' x, x))).
  rewrite List.map_map. simpl. rewrite List.map_id. reflexivity.
Qed.

Lemma keyed_returns l : forall kl,
  keyed key l = Ok kl -> forall x, In x l -> exists k, key x = Ok k.
Proof.
  induction l as [|y l IH]; intros kl Hk x Hx; [destruct Hx|].
  simpl in Hk. destruct (key y) as [k|e] eqn:Hy; [|discriminate].
  destruct (keyed key l) as [kl'|e] eqn:Hl; [|discriminate].
  destruct Hx as [<-|Hx]; [exists k; exact Hy|].
  apply (IH kl' eq_refl x Hx).
Qed.

(** [sorted] returns only when every key computed. *)
Lemma sorted_returns l out :
  sorted lt key l = Ok out -> forall x, In x l -> exists k, key x = Ok k.
Proof.
  unfold sorted. destruct (keyed key l) as [kl|e] eqn:Hk; [|discriminate].
  intros _. exact (keyed_returns l kl Hk).
Qed.

Lemma keyed_snd l : forall kl,
  keyed key l = Ok kl -> List.map snd kl = l.
Proof.
  induction l as [|y l IH]; intros kl Hk; simpl in Hk.
  - injection Hk as <-. reflexivity.
  - destruct (key y) as [k|e]; [|discriminate].
    destruct (keyed key l) as [kl'|e]; [|discriminate].
    injection Hk as <-. simpl. rewrite (IH kl' eq_refl). reflexivity.
Qed.

(** What [sorted] returns holds the elements it was given. *)
Lemma sorted_Permutation l out :
  sorted lt key l = Ok out -> Permutation out l.
Proof.
  unfold sorted. destruct (keyed key l) as [kl|e] eqn:Hk; [|discriminate].
  intros [= <-]. rewrite <- (keyed_snd l kl Hk).
  apply Permutation_map. apply sort_by_Permutation.
Qed.

(** One key that raises makes [sorted] raise. *)
Lemma sorted_raises l x e :
  In x l -> key x = Raise e -> exists e', sorted lt key l = Raise e'.
Proof.
  intros Hx Hraise.
  destruct (sorted lt key l) as [out|e'] eqn:Hs; [|exists e'; reflexivity].
  destruct (sorted_returns l out Hs x Hx) as (k & Hk). congruence.
Qed.

End RaisingKeys.

(* ===================================================================== *)
(** ** Directories first, each group by lower-cased name *)
(* ===================================================================== *)

Section Listing.
Variable is_dir : string -> bool.

Local Abbreviation name_key := (name_key is_dir).
Local Abbreviation le := (key_le tuple_lt name_key).

Lemma StronglySorted_filter {A} (R : A -> A -> Prop) (f : A -> bool) l :
  StronglySorted R l -> StronglySorted R (List.filter f l).
Proof.
  induction 1 as [|x l Hs IH Hall]; simpl; [constructor|].
  destruct (f x); [|exact IH].
  constructor; [exact IH|].
  rewrite List.Forall_forall in *. intros y Hy.
  apply List.filter_In in Hy as [Hy _]. auto.
Qed.

Lemma StronglySorted_weaken {A} (R R' : A -> A -> Prop) l :
  (forall x y, In x l -> In y l -> R x y -> R' x y) ->
  StronglySorted R l -> StronglySorted R' l.
Proof.
  intros Himp Hs. induction Hs as [|x l Hs IH Hall]; [constructor|].
  constructor.
  - apply IH. intros; apply Himp; simpl; auto.
  - rewrite List.Forall_forall in *. intros y Hy.
    apply Himp; simpl; auto.
Qed.

Lemma le_same_group x y : is_dir x = is_dir y -> le x y -> ci_le x y.
Proof.
  unfold key_le, name_key, tuple_lt, ci_le. simpl. intros ->.
  rewrite Bool.eqb_reflx, str_leb_lt. intros ->. reflexivity.
Qed.

Lemma le_file_dir x y : is_dir x = false -> le x y -> is_dir y = false.
Proof.
  unfold key_le, name_key, tuple_lt, bool_lt. simpl. intros ->.
  destruct (is_dir y); simpl; congruence.
Qed.

Lemma sorted_dirs_first l :
  StronglySorted le l ->
  l = List.filter is_dir l ++ List.filter (fun x => negb (is_dir x)) l.
Proof.
  induction 1 as [|x l Hs IH Hall]; [reflexivity|].
  simpl. destruct (is_dir x) eqn:Hx; simpl.
  - f_equal. exact IH.
  - assert (Forall (fun y => is_dir y = false) l) as Hfiles.
    { eapply List.Forall_impl; [|exact Hall].
      intros y. apply le_file_dir. exact Hx. }
    clear IH Hall Hs.
    assert (List.filter is_dir l = []
            /\ List.filter (fun y => negb (is_dir y)) l = l) as [-> ->];
      [|reflexivity].
    induction Hfiles as [|y l Hy _ [IH1 IH2]]; [split; reflexivity|].
    simpl. rewrite Hy. simpl. rewrite IH2. split; [exact IH1|reflexivity].
Qed.

(** The sorted names are a listing in the sense of the contract. *)
Lemma sort_is_listing entries :
  listing_of is_dir entries (sort_by tuple_lt name_key entries).
Proof.
  pose proof (sort_by_sorted tuple_lt name_key
                tuple_lt_irrefl tuple_lt_trans tuple_lt_total entries) as Hs.
  split; [apply sort_by_Permutation|].
  set (out := sort_by tuple_lt name_key entries) in *.
  exists (List.filter is_dir out),
         (List.filter (fun x => negb (is_dir x)) out).
  split; [apply sorted_dirs_first; exact Hs|].
  split; [|split; [|split]].
  - apply List.Forall_forall. intros x Hx.
    apply List.filter_In in Hx. tauto.
  - apply List.Forall_forall. intros x Hx.
    apply List.filter_In in Hx as [_ Hx]. apply negb_true_iff. exact Hx.
  - eapply StronglySorted_weaken;
      [|apply StronglySorted_filter; exact Hs].
    intros x y Hx Hy. apply List.filter_In in Hx as [_ Hx], Hy as [_ Hy].
    apply le_same_group. congruence.
  - eapply StronglySorted_weaken;
      [|apply StronglySorted_filter; exact Hs].
    intros x y Hx Hy. apply List.filter_In in Hx as [_ Hx], Hy as [_ Hy].
    apply le_same_group.
    apply negb_true_iff in Hx, Hy. congruence.
Qed.

End Listing.

(* ===================================================================== *)
(** ** What the Tk listing computes *)
(* ===================================================================== *)

Section TkListing.
Import Eff.
Variable fs : Os.filesystem.

(** What [getsize] raises is an [OSError], of whatever subclass. *)
Lemma getsize_raises p e :
  Os.getsize fs p = Raise e -> isinstance_OSError e = true.
Proof.
  unfold Os.getsize.
  destruct (fs p) as [[| | |[]]|]; intros [= <-]; reflexivity.
Qed.

(** One pass of the loop appends one row and never raises: the inner
    handler turns every failure of [getsize] into ["N/A"]. *)
Lemma insert_item_run cur item s :
  Tk.insert_item fs cur item s
  = (Ok tt, Tk.set_tree (Tk.tree s ++ [tk_row fs cur item]) s).
Proof.
  unfold Tk.insert_item, Tk.size_column, tk_row, bind, try_except, call,
    ret, modify.
  destruct (Os.isdir fs (Os.join cur item)); simpl; [reflexivity|].
  destruct (Os.getsize fs (Os.join cur item)) as [n|e] eqn:Hsize;
    [reflexivity|].
  apply getsize_raises in Hsize. rewrite Hsize. reflexivity.
Qed.

Lemma for_each_insert_run cur items : forall s,
  for_each items (Tk.insert_item fs cur) s
  = (Ok tt, Tk.set_tree (Tk.tree s ++ List.map (tk_row fs cur) items) s).
Proof.
  induction items as [|item items IH]; intros s; simpl.
  - unfold ret. rewrite app_nil_r. destruct s; reflexivity.
  - unfold bind. rewrite insert_item_run, IH. simpl.
    rewrite <- app_assoc. reflexivity.
Qed.

(** The listing of a readable directory. *)
Lemma refresh_readable self sz entries :
  fs (Tk.current_path self) = Some (Os.Directory sz true entries) ->
  Tk.refresh_file_list fs self
  = (Ok tt,
     {| Tk.current_path := Tk.current_path self;
        Tk.path_label := Tk.current_path self;
        Tk.tree := List.map (tk_row fs (Tk.current_path self))
                     (sort_by tuple_lt (Tk.sort_key fs (Tk.current_path self))
                        entries);
        Tk.log := Tk.log self ++ [Tk.Listdir (Tk.current_path self)] |}).
Proof.
  intros Hdir.
  unfold Tk.refresh_file_list, Tk.os_listdir, bind, try_except, call,
    modify, get_state, Os.listdir. simpl.
  rewrite Hdir. rewrite for_each_insert_run. reflexivity.
Qed.

(** The listing of a path [os.listdir] refuses. *)
Lemma refresh_refused self e :
  Os.listdir fs (Tk.current_path self) = Raise e ->
  Tk.refresh_file_list fs self
  = if isinstance_PermissionError e then
      (Ok tt,
       {| Tk.current_path := Tk.current_path self;
          Tk.path_label := Tk.current_path self;
          Tk.tree := [];
          Tk.log := Tk.log self ++ [Tk.Listdir (Tk.current_path self);
                                    Tk.Showerror "Error" "Permission Denied"] |})
    else
      (Raise e,
       {| Tk.current_path := Tk.current_path self;
          Tk.path_label := Tk.current_path self;
          Tk.tree := [];
          Tk.log := Tk.log self ++ [Tk.Listdir (Tk.current_path self)] |}).
Proof.
  intros Hraise.
  unfold Tk.refresh_file_list, Tk.os_listdir, bind, try_except, call,
    modify, get_state. simpl.
  rewrite Hraise.
  destruct (isinstance_PermissionError e); [|reflexivity].
  unfold Tk.emit. simpl. rewrite <- app_assoc. reflexivity.
Qed.

(** Whatever happens, the listing leaves the current path alone. *)
Lemma refresh_current_path self :
  Tk.current_path (snd (Tk.refresh_file_list fs self)) = Tk.current_path self.
Proof.
  destruct (Os.listdir fs (Tk.current_path self)) as [entries|e] eqn:Hl.
  - unfold Os.listdir in Hl.
    destruct (fs (Tk.current_path self)) as [[sz [] ents| | |blocked]|] eqn:Hfs;
      try discriminate.
    rewrite (refresh_readable _ _ _ Hfs). reflexivity.
  - rewrite (refresh_refused _ _ Hl).
    destruct (isinstance_PermissionError e); reflexivity.
Qed.

Lemma row_name_tk_row cur item : row_name (tk_row fs cur item) = item.
Proof.
  unfold tk_row, row_name.
  destruct (Os.isdir fs (Os.join cur item)); [reflexivity|].
  destruct (Os.getsize fs (Os.join cur item)); reflexivity.
Qed.

Lemma tk_names cur l : List.map row_name (List.map (tk_row fs cur) l) = l.
Proof.
  induction l as [|x l IH]; simpl; [reflexivity|].
  rewrite row_name_tk_row, IH. reflexivity.
Qed.

End TkListing.

(* ===================================================================== *)
(** ** What the thumbnail cache computes *)
(* ===================================================================== *)

Section ThumbnailRuns.
Import Eff.

(** [_make_thumbnail] always returns a pixmap and leaves the cache map
    alone. *)
Lemma make_thumbnail_run env path self :
  Thumb._make_thumbnail env path self
  = (Ok (thumbnail_of env (Thumb.thumb_size self) path),
     {| Thumb.cache := Thumb.cache self;
        Thumb.thumb_size := Thumb.thumb_size self;
        Thumb.accesses := Thumb.accesses self ++ thumbnail_reads env path |}).
Proof.
  unfold Thumb._make_thumbnail, thumbnail_of, thumbnail_reads, bind,
    get_state, try_except, call, modify, ret.
  destruct (Thumb.pillow_available env); simpl.
  - destruct (Thumb.image_open env path) as [d|e1]; simpl; [|reflexivity].
    destruct (Thumb.image_load env path) as [u|e2]; simpl; [|reflexivity].
    destruct (Thumb.qimage_roundtrip env) as [q|e3]; simpl; [|reflexivity].
    unfold Thumb.touch. simpl. rewrite <- app_assoc. simpl.
    destruct (Thumb.qpixmap_load env path); reflexivity.
  - rewrite app_nil_r. destruct self; reflexivity.
Qed.

(** A hit returns the stored pixmap and changes nothing. *)
Lemma get_hit env path self pix :
  Thumb.cache self !! (path, Thumb.thumb_size self) = Some pix ->
  Thumb.get env path self = (Ok pix, self).
Proof.
  intros Hhit. unfold Thumb.get, bind, get_state, ret.
  rewrite Hhit. reflexivity.
Qed.

(** A miss makes the thumbnail and stores it under the key. *)
Lemma get_miss env path self :
  Thumb.cache self !! (path, Thumb.thumb_size self) = None ->
  Thumb.get env path self
  = (Ok (thumbnail_of env (Thumb.thumb_size self) path),
     {| Thumb.cache :=
          <[(path, Thumb.thumb_size self) :=
              thumbnail_of env (Thumb.thumb_size self) path]>
            (Thumb.cache self);
        Thumb.thumb_size := Thumb.thumb_size self;
        Thumb.accesses := Thumb.accesses self ++ thumbnail_reads env path |}).
Proof.
  intros Hmiss. unfold Thumb.get, bind, get_state, ret, modify.
  rewrite Hmiss, make_thumbnail_run. reflexivity.
Qed.

(** [get] never raises. *)
Lemma get_returns env path self :
  exists pix self', Thumb.get env path self = (Ok pix, self').
Proof.
  destruct (Thumb.cache self !! (path, Thumb.thumb_size self)) as [pix|] eqn:H.
  - exists pix, self. apply get_hit. exact H.
  - eexists _, _. apply get_miss. exact H.
Qed.

Lemma get_thumb_size env path self :
  Thumb.thumb_size (snd (Thumb.get env path self)) = Thumb.thumb_size self.
Proof.
  destruct (Thumb.cache self !! (path, Thumb.thumb_size self)) as [pix|] eqn:H.
  - rewrite (get_hit _ _ _ _ H). reflexivity.
  - rewrite (get_miss _ _ _ H). reflexivity.
Qed.

(** [get] only ever adds to the map: what is stored stays stored. *)
Lemma get_keeps env path self k v :
  Thumb.cache self !! k = Some v ->
  Thumb.cache (snd (Thumb.get env path self)) !! k = Some v.
Proof.
  intros Hk.
  destruct (Thumb.cache self !! (path, Thumb.thumb_size self)) as [pix|] eqn:H.
  - rewrite (get_hit _ _ _ _ H). exact Hk.
  - rewrite (get_miss _ _ _ H). simpl.
    rewrite lookup_insert_ne; [exact Hk|]. congruence.
Qed.

Lemma run_gets_thumb_size calls : forall self,
  Thumb.thumb_size (run_gets calls self) = Thumb.thumb_size self.
Proof.
  induction calls as [|[env path] calls IH]; intros self; simpl;
    [reflexivity|].
  rewrite IH. apply get_thumb_size.
Qed.

Lemma run_gets_keeps calls : forall self k v,
  Thumb.cache self !! k = Some v ->
  Thumb.cache (run_gets calls self) !! k = Some v.
Proof.
  induction calls as [|[env path] calls IH]; intros self k v Hk; simpl;
    [exact Hk|].
  apply IH. apply get_keeps. exact Hk.
Qed.

End ThumbnailRuns.

(* ===================================================================== *)
(** ** What the Qt listing computes *)
(* ===================================================================== *)

Section QtListing.
Import Eff.
Variable fs : Os.filesystem.
Variable env : Thumb.Env.
Variable theme_has : string -> bool.

Lemma name_child p x : Pathlib.name (Pathlib.child p x) = x.
Proof. unfold Pathlib.name, Pathlib.child. simpl. apply List.last_last. Qed.

(** [is_dir] answers what [dir_flag] says, where it answers. *)
Lemma is_dir_flag p d : Pathlib.is_dir fs p = Ok d -> dir_flag fs p = d.
Proof. unfold dir_flag. intros ->. reflexivity. Qed.

Lemma can_examine_flag p names x :
  can_examine fs p names -> In x names ->
  Pathlib.is_dir fs (Pathlib.child p x) = Ok (dir_flag fs (Pathlib.child p x)).
Proof.
  intros Hex Hx. destruct (Hex x Hx) as (d & Hd).
  rewrite (is_dir_flag _ _ Hd). exact Hd.
Qed.

(** One pass of the loop, for an entry [is_dir] answers for, appends
    one item named after the entry. *)
Lemma add_entry_run p s d :
  Pathlib.is_dir fs p = Ok d ->
  exists ic tc,
    Qt.add_entry fs env theme_has p s
    = (Ok tt,
       {| Qt.current_path := Qt.current_path s;
          Qt.list_model :=
            Qt.list_model s ++
            [{| Qt.text := Pathlib.name p; Qt.icon := ic;
                Qt.data := Pathlib.str p |}];
          Qt.thumb_cache := tc;
          Qt.log := Qt.log s |}).
Proof.
  intros Hd.
  unfold Qt.add_entry, bind, ret, modify, zoom, call. rewrite Hd.
  destruct d.
  - eexists _, _. reflexivity.
  - destruct (existsb (String.eqb (lower (Pathlib.suffix p)))
                Qt.image_suffixes).
    + destruct (get_returns env (Pathlib.str p) (Qt.thumb_cache s))
        as (pix & tc & ->).
      destruct (Qt.isNull theme_has pix); eexists _, _; reflexivity.
    + eexists _, _. reflexivity.
Qed.

Lemma for_each_add_run entries : forall s,
  (forall p, In p entries -> exists d, Pathlib.is_dir fs p = Ok d) ->
  exists s',
    for_each entries (Qt.add_entry fs env theme_has) s = (Ok tt, s') /\
    List.map Qt.text (Qt.list_model s')
    = List.map Qt.text (Qt.list_model s) ++ List.map Pathlib.name entries /\
    Qt.log s' = Qt.log s /\
    Qt.current_path s' = Qt.current_path s.
Proof.
  induction entries as [|p entries IH]; intros s Hdirs; simpl.
  - exists s. rewrite app_nil_r. repeat split; reflexivity.
  - destruct (Hdirs p (or_introl eq_refl)) as (d & Hd).
    destruct (add_entry_run p s d Hd) as (ic & tc & Hrun).
    unfold bind. rewrite Hrun.
    match goal with |- context [for_each _ _ ?s1] =>
      destruct (IH s1) as (s' & Hfor & Htext & Hlog & Hcur) end.
    { intros q Hq. apply Hdirs. right. exact Hq. }
    exists s'. rewrite Hfor. simpl in *. repeat split; try assumption.
    rewrite Htext, List.map_app. simpl. rewrite <- app_assoc. reflexivity.
Qed.

(** The sort of the children by their keys, when every child can be
    examined. *)
Lemma sorted_children p names :
  can_examine fs p names ->
  sorted tuple_lt (Qt.sort_key fs) (List.map (Pathlib.child p) names)
  = Ok (List.map (Pathlib.child p)
          (sort_by tuple_lt
             (name_key (fun x => dir_flag fs (Pathlib.child p x))) names)).
Proof.
  intros Hex.
  rewrite (sorted_ok tuple_lt (Qt.sort_key fs)
             (fun q => (negb (dir_flag fs q), lower (Pathlib.name q)))).
  - rewrite sort_by_map. do 2 f_equal.
    apply sort_by_ext. intros x. unfold name_key.
    rewrite name_child. reflexivity.
  - intros q Hq. apply List.in_map_iff in Hq as (x & <- & Hx).
    unfold Qt.sort_key. rewrite (can_examine_flag p names x Hex Hx).
    reflexivity.
Qed.

(** The listing of a readable directory whose children can be
    examined. *)
Lemma populate_readable path self sz entries :
  fs (Pathlib.str (Pathlib.parse path)) = Some (Os.Directory sz true entries) ->
  can_examine fs (Pathlib.parse path) entries ->
  exists self',
    Qt.populate_list fs env theme_has path self = (Ok tt, self') /\
    List.map Qt.text (Qt.list_model self')
    = sort_by tuple_lt
        (name_key (fun x => dir_flag fs (Pathlib.child (Pathlib.parse path) x)))
        entries /\
    Qt.log self'
    = Qt.log self ++ [Qt.Listdir (Pathlib.str (Pathlib.parse path))].
Proof.
  intros Hdir Hex.
  unfold Qt.populate_list, bind, try_except, call, ret, modify,
    Pathlib.iterdir, Os.listdir. simpl.
  rewrite Hdir. simpl. rewrite (sorted_children _ _ Hex). simpl.
  match goal with |- context [for_each ?l _ ?s1] =>
    destruct (for_each_add_run l s1) as (s' & Hfor & Htext & Hlog & _) end.
  { intros q Hq. apply List.in_map_iff in Hq as (x & <- & Hx).
    apply Hex. apply sort_by_In in Hx. exact Hx. }
  exists s'. split; [exact Hfor|]. split; [|exact Hlog].
  rewrite Htext. simpl. rewrite List.map_map.
  erewrite List.map_ext; [rewrite List.map_id|intros x; apply name_child].
  reflexivity.
Qed.

(** The listing of a readable directory with a child [is_dir] raises
    on: the sort raises inside the [try], so there is one warning and
    an empty list, as for a directory that cannot be read. *)
Lemma populate_unexamined path self entries e :
  Os.listdir fs (Pathlib.str (Pathlib.parse path)) = Ok entries ->
  sorted tuple_lt (Qt.sort_key fs)
    (List.map (Pathlib.child (Pathlib.parse path)) entries) = Raise e ->
  Qt.populate_list fs env theme_has path self
  = (Ok tt, qt_aborted self path e).
Proof.
  intros Hdir Hraise.
  unfold Qt.populate_list, bind, try_except, call, ret, modify,
    Pathlib.iterdir, qt_aborted. simpl.
  rewrite Hdir. simpl. rewrite Hraise. simpl. unfold Qt.emit. simpl.
  rewrite <- app_assoc. reflexivity.
Qed.

(** A sort key is there exactly when [is_dir] answers. *)
Lemma sort_key_returns p k :
  Qt.sort_key fs p = Ok k -> exists d, Pathlib.is_dir fs p = Ok d.
Proof.
  unfold Qt.sort_key. destruct (Pathlib.is_dir fs p) as [d|e]; [|discriminate].
  intros _. exists d. reflexivity.
Qed.

(** When the sort returns, [is_dir] answers for every entry of it. *)
Lemma sorted_entries_examined l entries :
  sorted tuple_lt (Qt.sort_key fs) l = Ok entries ->
  forall p, In p entries -> exists d, Pathlib.is_dir fs p = Ok d.
Proof.
  intros Hs p Hp.
  destruct (sorted_returns tuple_lt (Qt.sort_key fs) l entries Hs p) as (k & Hk).
  - eapply Permutation_in; [apply (sorted_Permutation _ _ _ _ Hs)|exact Hp].
  - exact (sort_key_returns p k Hk).
Qed.

(** The listing of a path [os.listdir] refuses: one warning that
    carries the exception, and an empty list. *)
Lemma populate_refused path self e :
  Os.listdir fs (Pathlib.str (Pathlib.parse path)) = Raise e ->
  Qt.populate_list fs env theme_has path self
  = (Ok tt,
     {| Qt.current_path := Qt.current_path self;
        Qt.list_model := [];
        Qt.thumb_cache := Qt.thumb_cache self;
        Qt.log := Qt.log self ++
                  [Qt.Listdir (Pathlib.str (Pathlib.parse path));
                   Qt.Warning "Error" "Could not list directory: " e] |}).
Proof.
  intros Hraise.
  unfold Qt.populate_list, bind, try_except, call, ret, modify,
    Pathlib.iterdir. simpl.
  rewrite Hraise. simpl. unfold Qt.emit. simpl.
  rewrite <- app_assoc. reflexivity.
Qed.

End QtListing.

(* ===================================================================== *)
(** ** The directory lister *)
(* ===================================================================== *)

(** C1, as stated, fails for the Qt lister: a directory that can be
    read but not searched enumerates its children, yet [is_dir] raises
    on the first of them while the sort computes its keys, inside the
    [try]; the list stays empty and the warning carries the
    [PermissionError].  (The Tk lister shows both children.) *)
Lemma unsearchable_directory_not_listed :
  Os.listdir unsearchable_fs "/shut" = Ok ["a.txt"; "sub"] /\
  Qt.populate_list unsearchable_fs no_pillow (fun _ => false) "/shut"
    (qt_start "/shut")
  = (Ok tt, qt_aborted (qt_start "/shut") "/shut" PermissionError) /\
  (forall is_dir,
     ~ listing_of is_dir ["a.txt"; "sub"]
         (List.map Qt.text
            (Qt.list_model
               (snd (Qt.populate_list unsearchable_fs no_pillow
                       (fun _ => false) "/shut" (qt_start "/shut")))))) /\
  List.map row_name
    (Tk.tree (snd (Tk.refresh_file_list unsearchable_fs (tk_start "/shut"))))
  = ["a.txt"; "sub"].
Proof.
  split; [reflexivity|]. split; [vm_compute; reflexivity|].
  split; [|vm_compute; reflexivity].
  intros is_dir [Hperm _].
  assert (List.map Qt.text
            (Qt.list_model
               (snd (Qt.populate_list unsearchable_fs no_pillow
                       (fun _ => false) "/shut" (qt_start "/shut")))) = [])
    as Hnone by (vm_compute; reflexivity).
  rewrite Hnone in Hperm. apply Permutation_nil in Hperm. discriminate Hperm.
Qed.

(** C1, amended.  For every readable directory the Tk lister, and for
    every readable directory whose children can be examined ([is_dir]
    answers for each) the Qt lister, returns normally with exactly the
    children's names (a permutation of what the directory enumerates,
    nothing from below), directories before the rest and each group in
    case-insensitive order of the names; on the directory with [B.txt],
    [a_folder] and [A.txt] the order is [a_folder], [A.txt], [B.txt]. *)
Theorem listing_names_and_order :
  (forall fs self sz entries,
     fs (Tk.current_path self) = Some (Os.Directory sz true entries) ->
     exists self',
       Tk.refresh_file_list fs self = (Ok tt, self') /\
       listing_of (fun x => Os.isdir fs (Os.join (Tk.current_path self) x))
         entries (List.map row_name (Tk.tree self'))) /\
  (forall fs env theme_has path self sz entries,
     fs (Pathlib.str (Pathlib.parse path)) = Some (Os.Directory sz true entries) ->
     can_examine fs (Pathlib.parse path) entries ->
     exists self',
       Qt.populate_list fs env theme_has path self = (Ok tt, self') /\
       (forall x, In x entries ->
          Pathlib.is_dir fs (Pathlib.child (Pathlib.parse path) x)
          = Ok (dir_flag fs (Pathlib.child (Pathlib.parse path) x))) /\
       listing_of
         (fun x => dir_flag fs (Pathlib.child (Pathlib.parse path) x))
         entries (List.map Qt.text (Qt.list_model self'))) /\
  Tk.tree (snd (Tk.refresh_file_list scenario_fs (tk_start "/d")))
  = [("a_folder", "", "Folder"); ("A.txt", "0.0 KB", "File");
     ("B.txt", "0.0 KB", "File")] /\
  List.map Qt.text
    (Qt.list_model
       (snd (Qt.populate_list scenario_fs no_pillow (fun _ => false) "/d"
               (qt_start "/d"))))
  = ["a_folder"; "A.txt"; "B.txt"].
Proof.
  split; [|split; [|split]].
  - intros fs self sz entries Hdir.
    eexists. split; [apply (refresh_readable fs self sz entries Hdir)|].
    simpl. rewrite tk_names. apply sort_is_listing.
  - intros fs env theme_has path self sz entries Hdir Hex.
    destruct (populate_readable fs env theme_has path self sz entries Hdir Hex)
      as (self' & Hrun & Htext & _).
    exists self'. split; [exact Hrun|].
    split; [intros x Hx; apply (can_examine_flag fs _ entries x Hex Hx)|].
    rewrite Htext. apply sort_is_listing.
  - vm_compute. reflexivity.
  - vm_compute. reflexivity.
Qed.

Lemma listing_names_and_order_witness :
  (exists self',
     Tk.refresh_file_list scenario_fs (tk_start "/d") = (Ok tt, self') /\
     listing_of (fun x => Os.isdir scenario_fs (Os.join "/d" x))
       ["B.txt"; "a_folder"; "A.txt"] (List.map row_name (Tk.tree self'))) /\
  can_examine scenario_fs (Pathlib.parse "/d") ["B.txt"; "a_folder"; "A.txt"] /\
  (exists self',
     Qt.populate_list scenario_fs no_pillow (fun _ => false) "/d" (qt_start "/d")
     = (Ok tt, self') /\
     listing_of
       (fun x => dir_flag scenario_fs (Pathlib.child (Pathlib.parse "/d") x))
       ["B.txt"; "a_folder"; "A.txt"] (List.map Qt.text (Qt.list_model self'))).
Proof.
  assert (can_examine scenario_fs (Pathlib.parse "/d")
            ["B.txt"; "a_folder"; "A.txt"]) as Hex.
  { intros x [<-|[<-|[<-|[]]]]; eexists; vm_compute; reflexivity. }
  split; [|split; [exact Hex|]].
  - apply (proj1 listing_names_and_order scenario_fs (tk_start "/d") 4096%N).
    reflexivity.
  - destruct (proj1 (proj2 listing_names_and_order) scenario_fs no_pillow
                (fun _ => false) "/d" (qt_start "/d") 4096%N
                ["B.txt"; "a_folder"; "A.txt"] eq_refl Hex)
      as (self' & Hrun & _ & Hlist).
    exists self'. split; [exact Hrun | exact Hlist].
Defined.

Lemma listdir_unreadable fs p :
  unreadable_dir fs p -> Os.listdir fs p = Raise PermissionError.
Proof. intros (sz & entries & H). unfold Os.listdir. rewrite H. reflexivity. Qed.

Lemma listdir_missing fs p :
  missing fs p -> Os.listdir fs p = Raise FileNotFoundError.
Proof. intros [H|H]; unfold Os.listdir; rewrite H; reflexivity. Qed.

Lemma listdir_not_a_directory fs p :
  not_a_directory fs p -> Os.listdir fs p = Raise NotADirectoryError.
Proof. intros (n & H). unfold Os.listdir. rewrite H. reflexivity. Qed.

(** C2, as stated, fails: on a directory that cannot be read the Tk
    lister does not fail, it shows its error dialog and returns
    normally; the Qt lister returns normally for a directory that cannot
    be read and for a path that does not exist alike, with a warning
    dialog; and where the Tk lister does raise, for the missing path,
    nothing is shown. *)
Lemma listing_errors_are_shown_not_raised :
  Os.listdir broken_fs "/locked" = Raise PermissionError /\
  Os.listdir broken_fs "/nowhere" = Raise FileNotFoundError /\
  fst (Tk.refresh_file_list broken_fs (tk_start "/locked")) = Ok tt /\
  fst (Qt.populate_list broken_fs no_pillow (fun _ => false) "/locked"
         (qt_start "/")) = Ok tt /\
  fst (Qt.populate_list broken_fs no_pillow (fun _ => false) "/nowhere"
         (qt_start "/")) = Ok tt /\
  fst (Tk.refresh_file_list broken_fs (tk_start "/nowhere"))
  = Raise FileNotFoundError /\
  Tk.log (snd (Tk.refresh_file_list broken_fs (tk_start "/nowhere")))
  = [Tk.Listdir "/nowhere"].
Proof. vm_compute. repeat split; reflexivity. Qed.

(** C2, amended.  A directory that exists but cannot be read ends the
    listing with the permission error, a path that is missing or is no
    directory ends it with the not-found errors ([FileNotFoundError],
    [NotADirectoryError]); every time the view is left empty, never
    partly filled.  The Tk lister shows the permission error in its error
    dialog and returns normally, and lets the not-found errors propagate
    to its caller without a dialog; the Qt lister returns normally every
    time and shows each of the errors in its warning dialog. *)
Theorem listing_errors :
  (forall fs self,
     unreadable_dir fs (Tk.current_path self) ->
     Tk.refresh_file_list fs self
     = (Ok tt, tk_aborted self [Tk.Showerror "Error" "Permission Denied"])) /\
  (forall fs self,
     missing fs (Tk.current_path self) ->
     Tk.refresh_file_list fs self
     = (Raise FileNotFoundError, tk_aborted self [])) /\
  (forall fs self,
     not_a_directory fs (Tk.current_path self) ->
     Tk.refresh_file_list fs self
     = (Raise NotADirectoryError, tk_aborted self [])) /\
  (forall fs env theme_has path self,
     unreadable_dir fs (Pathlib.str (Pathlib.parse path)) ->
     Qt.populate_list fs env theme_has path self
     = (Ok tt, qt_aborted self path PermissionError)) /\
  (forall fs env theme_has path self,
     missing fs (Pathlib.str (Pathlib.parse path)) ->
     Qt.populate_list fs env theme_has path self
     = (Ok tt, qt_aborted self path FileNotFoundError)) /\
  (forall fs env theme_has path self,
     not_a_directory fs (Pathlib.str (Pathlib.parse path)) ->
     Qt.populate_list fs env theme_has path self
     = (Ok tt, qt_aborted self path NotADirectoryError)).
Proof.
  split; [|split; [|split; [|split; [|split]]]].
  - intros fs self H. apply listdir_unreadable in H.
    rewrite (refresh_refused fs self _ H). reflexivity.
  - intros fs self H. apply listdir_missing in H.
    rewrite (refresh_refused fs self _ H). reflexivity.
  - intros fs self H. apply listdir_not_a_directory in H.
    rewrite (refresh_refused fs self _ H). reflexivity.
  - intros fs env theme_has path self H. apply listdir_unreadable in H.
    apply populate_refused. exact H.
  - intros fs env theme_has path self H. apply listdir_missing in H.
    apply populate_refused. exact H.
  - intros fs env theme_has path self H. apply listdir_not_a_directory in H.
    apply populate_refused. exact H.
Qed.

Lemma listing_errors_witness :
  Tk.refresh_file_list broken_fs (tk_start "/locked")
  = (Ok tt, tk_aborted (tk_start "/locked")
              [Tk.Showerror "Error" "Permission Denied"]) /\
  Tk.refresh_file_list broken_fs (tk_start "/nowhere")
  = (Raise FileNotFoundError, tk_aborted (tk_start "/nowhere") []) /\
  Tk.refresh_file_list broken_fs (tk_start "/file")
  = (Raise NotADirectoryError, tk_aborted (tk_start "/file") []) /\
  Qt.populate_list broken_fs no_pillow (fun _ => false) "/locked" (qt_start "/")
  = (Ok tt, qt_aborted (qt_start "/") "/locked" PermissionError) /\
  Qt.populate_list broken_fs no_pillow (fun _ => false) "/d/dangling" (qt_start "/")
  = (Ok tt, qt_aborted (qt_start "/") "/d/dangling" FileNotFoundError) /\
  Qt.populate_list broken_fs no_pillow (fun _ => false) "/file" (qt_start "/")
  = (Ok tt, qt_aborted (qt_start "/") "/file" NotADirectoryError).
Proof.
  destruct listing_errors as (Htk1 & Htk2 & Htk3 & Hqt1 & Hqt2 & Hqt3).
  split; [|split; [|split; [|split; [|split]]]].
  - apply Htk1. exists 4096%N, ["x"]. reflexivity.
  - apply Htk2. left. reflexivity.
  - apply Htk3. exists 3%N. reflexivity.
  - apply Hqt1. exists 4096%N, ["x"]. reflexivity.
  - apply Hqt2. right. reflexivity.
  - apply Hqt3. exists 3%N. reflexivity.
Defined.

Lemma string_length_append (a b : string) :
  String.length (a ++ b) = (String.length a + String.length b)%nat.
Proof. induction a as [|c a IH]; simpl; [reflexivity|]. rewrite IH. reflexivity. Qed.

(** A size that was read never prints as ["N/A"]. *)
Lemma format_kb_not_NA n : format_kb n <> "N/A".
Proof.
  intros H. apply (f_equal String.length) in H.
  unfold format_kb in H. rewrite !string_length_append in H.
  simpl in H. lia.
Qed.

Lemma tk_row_in_tree fs cur l x :
  In x l -> In (tk_row fs cur x) (List.map (tk_row fs cur) l).
Proof. apply List.in_map. Qed.

(** C3.  When the size of a non-directory child cannot be read,
    whatever [OSError] [getsize] raises for it (a dangling link, a
    directory that cannot be searched, a loop of links, ...), the Tk
    listing of its (readable) directory still returns normally and shows
    no dialog; every child has its row, readable files with their size
    and folders with none, and the unreadable child has the size ["N/A"],
    which no size that was read prints as (zero bytes print as
    ["0.0 KB"]). *)
Theorem unreadable_size_absorbed :
  forall fs self sz entries e err,
    fs (Tk.current_path self) = Some (Os.Directory sz true entries) ->
    In e entries ->
    Os.isdir fs (Os.join (Tk.current_path self) e) = false ->
    Os.getsize fs (Os.join (Tk.current_path self) e) = Raise err ->
    exists self',
      Tk.refresh_file_list fs self = (Ok tt, self') /\
      Tk.log self' = Tk.log self ++ [Tk.Listdir (Tk.current_path self)] /\
      Permutation (List.map row_name (Tk.tree self')) entries /\
      In (e, "N/A", "File") (Tk.tree self') /\
      (forall x n,
         In x entries ->
         Os.isdir fs (Os.join (Tk.current_path self) x) = false ->
         Os.getsize fs (Os.join (Tk.current_path self) x) = Ok n ->
         In (x, format_kb n, "File") (Tk.tree self')) /\
      (forall x,
         In x entries ->
         Os.isdir fs (Os.join (Tk.current_path self) x) = true ->
         In (x, "", "Folder") (Tk.tree self')) /\
      (forall n, format_kb n <> "N/A") /\
      format_kb 0 = "0.0 KB".
Proof.
  intros fs self sz entries e err Hdir He Hnodir Hsize.
  eexists. split; [apply (refresh_readable fs self sz entries Hdir)|].
  simpl. split; [reflexivity|].
  split; [rewrite tk_names; apply sort_by_Permutation|].
  assert (forall x, In x entries ->
            In (tk_row fs (Tk.current_path self) x)
               (List.map (tk_row fs (Tk.current_path self))
                  (sort_by tuple_lt (Tk.sort_key fs (Tk.current_path self))
                     entries))) as Hrow.
  { intros x Hx. apply tk_row_in_tree. apply sort_by_In. exact Hx. }
  split; [|split; [|split; [|split]]].
  - specialize (Hrow e He). unfold tk_row in Hrow at 1.
    rewrite Hnodir, Hsize in Hrow. exact Hrow.
  - intros x n Hx Hxd Hxs. specialize (Hrow x Hx). unfold tk_row in Hrow at 1.
    rewrite Hxd, Hxs in Hrow. exact Hrow.
  - intros x Hx Hxd. specialize (Hrow x Hx). unfold tk_row in Hrow at 1.
    rewrite Hxd in Hrow. exact Hrow.
  - apply format_kb_not_NA.
  - reflexivity.
Qed.

Lemma unreadable_size_absorbed_witness :
  (exists self',
     Tk.refresh_file_list broken_fs (tk_start "/d") = (Ok tt, self') /\
     Tk.log self' = [Tk.Listdir "/d"] /\
     Permutation (List.map row_name (Tk.tree self'))
       ["notes.txt"; "dangling"; "sub"] /\
     In ("dangling", "N/A", "File") (Tk.tree self') /\
     (forall x n,
        In x ["notes.txt"; "dangling"; "sub"] ->
        Os.isdir broken_fs (Os.join "/d" x) = false ->
        Os.getsize broken_fs (Os.join "/d" x) = Ok n ->
        In (x, format_kb n, "File") (Tk.tree self')) /\
     (forall x,
        In x ["notes.txt"; "dangling"; "sub"] ->
        Os.isdir broken_fs (Os.join "/d" x) = true ->
        In (x, "", "Folder") (Tk.tree self')) /\
     (forall n, format_kb n <> "N/A") /\
     format_kb 0 = "0.0 KB") /\
  Os.getsize unsearchable_fs "/shut/a.txt" = Raise PermissionError /\
  (exists self',
     Tk.refresh_file_list unsearchable_fs (tk_start "/shut") = (Ok tt, self') /\
     In ("a.txt", "N/A", "File") (Tk.tree self')) /\
  Os.getsize looped_fs "/d/loop" = Raise OSError /\
  (exists self',
     Tk.refresh_file_list looped_fs (tk_start "/d") = (Ok tt, self') /\
     In ("loop", "N/A", "File") (Tk.tree self')).
Proof.
  split; [|split; [reflexivity|split; [|split; [reflexivity|]]]].
  - apply (unreadable_size_absorbed broken_fs (tk_start "/d") 4096%N
             ["notes.txt"; "dangling"; "sub"] "dangling" FileNotFoundError).
    + reflexivity.
    + simpl. right. left. reflexivity.
    + reflexivity.
    + reflexivity.
  - destruct (unreadable_size_absorbed unsearchable_fs (tk_start "/shut")
                4096%N ["a.txt"; "sub"] "a.txt" PermissionError)
      as (self' & Hrun & _ & _ & Hrow & _).
    + reflexivity.
    + left. reflexivity.
    + reflexivity.
    + reflexivity.
    + exists self'. split; [exact Hrun | exact Hrow].
  - destruct (unreadable_size_absorbed looped_fs (tk_start "/d")
                4096%N ["loop"] "loop" OSError)
      as (self' & Hrun & _ & _ & Hrow & _).
    + reflexivity.
    + left. reflexivity.
    + reflexivity.
    + reflexivity.
    + exists self'. split; [exact Hrun | exact Hrow].
Defined.

Example broken_fs_listing :
  Tk.tree (snd (Tk.refresh_file_list broken_fs (tk_start "/d")))
  = [("sub", "", "Folder"); ("dangling", "N/A", "File");
     ("notes.txt", "2.0 KB", "File")] /\
  Tk.refresh_file_list unsearchable_fs (tk_start "/shut")
  = (Ok tt,
     {| Tk.current_path := "/shut"; Tk.path_label := "/shut";
        Tk.tree := [("a.txt", "N/A", "File"); ("sub", "N/A", "File")];
        Tk.log := [Tk.Listdir "/shut"] |}).
Proof. vm_compute. split; reflexivity. Qed.

(* ===================================================================== *)
(** ** Determinism of the listing *)
(* ===================================================================== *)

Section SameSnapshot.
Import Eff.

Lemma isdir_same fs1 fs2 p : fs1 p = fs2 p -> Os.isdir fs1 p = Os.isdir fs2 p.
Proof. unfold Os.isdir. intros ->. reflexivity. Qed.

Lemma tk_row_same fs1 fs2 cur x :
  fs1 (Os.join cur x) = fs2 (Os.join cur x) ->
  tk_row fs1 cur x = tk_row fs2 cur x.
Proof. unfold tk_row, Os.isdir, Os.getsize. intros ->. reflexivity. Qed.

Lemma for_each_ext_in {S A} (l : list A) (f g : A -> M S unit) :
  (forall x, In x l -> forall s, f x s = g x s) ->
  forall s, for_each l f s = for_each l g s.
Proof.
  induction l as [|x l IH]; intros Hext s; simpl; [reflexivity|].
  unfold bind. rewrite Hext by (left; reflexivity).
  destruct (g x s) as [[u|e] s']; [|reflexivity].
  apply IH. intros y Hy. apply Hext. right. exact Hy.
Qed.

Lemma is_dir_same fs1 fs2 p :
  fs1 (Pathlib.str p) = fs2 (Pathlib.str p) ->
  Pathlib.is_dir fs1 p = Pathlib.is_dir fs2 p.
Proof. unfold Pathlib.is_dir. intros ->. reflexivity. Qed.

Lemma add_entry_same fs1 fs2 env theme_has p s :
  Pathlib.is_dir fs1 p = Pathlib.is_dir fs2 p ->
  Qt.add_entry fs1 env theme_has p s = Qt.add_entry fs2 env theme_has p s.
Proof. unfold Qt.add_entry. intros ->. reflexivity. Qed.

End SameSnapshot.

(** C8, as stated, fails: two enumerations of one directory whose
    children [A.txt] and [a.txt] have the same sort key are listed in two
    different orders, by both listers. *)
Lemma listing_depends_on_enumeration :
  same_snapshot (case_fs ["A.txt"; "a.txt"]) (case_fs ["a.txt"; "A.txt"])
    "/d" (Os.join "/d") ["A.txt"; "a.txt"] ["a.txt"; "A.txt"] /\
  same_snapshot (case_fs ["A.txt"; "a.txt"]) (case_fs ["a.txt"; "A.txt"])
    "/d" (fun x => Pathlib.str (Pathlib.child (Pathlib.parse "/d") x))
    ["A.txt"; "a.txt"] ["a.txt"; "A.txt"] /\
  List.map row_name
    (Tk.tree (snd (Tk.refresh_file_list (case_fs ["A.txt"; "a.txt"])
                     (tk_start "/d"))))
  = ["A.txt"; "a.txt"] /\
  List.map row_name
    (Tk.tree (snd (Tk.refresh_file_list (case_fs ["a.txt"; "A.txt"])
                     (tk_start "/d"))))
  = ["a.txt"; "A.txt"] /\
  Tk.refresh_file_list (case_fs ["A.txt"; "a.txt"]) (tk_start "/d")
  <> Tk.refresh_file_list (case_fs ["a.txt"; "A.txt"]) (tk_start "/d") /\
  List.map Qt.text
    (Qt.list_model
       (snd (Qt.populate_list (case_fs ["A.txt"; "a.txt"]) no_pillow
               (fun _ => false) "/d" (qt_start "/d"))))
  = ["A.txt"; "a.txt"] /\
  List.map Qt.text
    (Qt.list_model
       (snd (Qt.populate_list (case_fs ["a.txt"; "A.txt"]) no_pillow
               (fun _ => false) "/d" (qt_start "/d"))))
  = ["a.txt"; "A.txt"] /\
  Qt.populate_list (case_fs ["A.txt"; "a.txt"]) no_pillow (fun _ => false)
    "/d" (qt_start "/d")
  <> Qt.populate_list (case_fs ["a.txt"; "A.txt"]) no_pillow (fun _ => false)
       "/d" (qt_start "/d").
Proof.
  assert (forall child_path,
            child_path "A.txt" = "/d/A.txt" -> child_path "a.txt" = "/d/a.txt" ->
            same_snapshot (case_fs ["A.txt"; "a.txt"])
              (case_fs ["a.txt"; "A.txt"]) "/d" child_path
              ["A.txt"; "a.txt"] ["a.txt"; "A.txt"]) as Hsame.
  { intros child_path HA Ha. split; [exists 4096%N; reflexivity|].
    split; [exists 4096%N; reflexivity|].
    split; [apply perm_swap|].
    intros x [<-|[<-|[]]]; [rewrite HA|rewrite Ha]; reflexivity. }
  split; [apply Hsame; reflexivity|].
  split; [apply Hsame; reflexivity|].
  split; [vm_compute; reflexivity|].
  split; [vm_compute; reflexivity|].
  split.
  { intros H. apply (f_equal (fun r => List.map row_name (Tk.tree (snd r)))) in H.
    vm_compute in H. discriminate H. }
  split; [vm_compute; reflexivity|].
  split; [vm_compute; reflexivity|].
  intros H.
  apply (f_equal (fun r => List.map Qt.text (Qt.list_model (snd r)))) in H.
  vm_compute in H. discriminate H.
Qed.

(** C8, amended.  The listing is a function of what the directory
    enumerates, and when no two children share a sort key (the same group
    and the same lower-cased name) it does not depend on the order of the
    enumeration either: two snapshots with the same children and the
    same nodes give the same result, state and log included.  For the Qt
    lister the sort keys are there only when the children can be
    examined; where [is_dir] raises, the listing ends with the exception
    of the first child enumerated. *)
Theorem listing_deterministic :
  (forall fs1 fs2 self entries1 entries2,
     same_snapshot fs1 fs2 (Tk.current_path self)
       (Os.join (Tk.current_path self)) entries1 entries2 ->
     List.NoDup
       (List.map
          (name_key (fun x => Os.isdir fs1 (Os.join (Tk.current_path self) x)))
          entries1) ->
     Tk.refresh_file_list fs1 self = Tk.refresh_file_list fs2 self) /\
  (forall fs1 fs2 env theme_has path self entries1 entries2,
     same_snapshot fs1 fs2 (Pathlib.str (Pathlib.parse path))
       (fun x => Pathlib.str (Pathlib.child (Pathlib.parse path) x))
       entries1 entries2 ->
     can_examine fs1 (Pathlib.parse path) entries1 ->
     List.NoDup
       (List.map
          (name_key
             (fun x => dir_flag fs1 (Pathlib.child (Pathlib.parse path) x)))
          entries1) ->
     Qt.populate_list fs1 env theme_has path self
     = Qt.populate_list fs2 env theme_has path self).
Proof.
  split.
  - intros fs1 fs2 self e1 e2 ((sz1 & Hd1) & (sz2 & Hd2) & Hperm & Hnodes) Hnd.
    rewrite (refresh_readable fs1 self sz1 e1 Hd1),
            (refresh_readable fs2 self sz2 e2 Hd2).
    do 2 f_equal.
    assert (sort_by tuple_lt (Tk.sort_key fs2 (Tk.current_path self)) e2
            = sort_by tuple_lt (Tk.sort_key fs1 (Tk.current_path self)) e1)
      as ->.
    { transitivity
        (sort_by tuple_lt (Tk.sort_key fs1 (Tk.current_path self)) e2).
      - apply sort_by_ext_in. intros x Hx. unfold Tk.sort_key.
        rewrite (isdir_same fs1 fs2); [reflexivity|].
        apply Hnodes. eapply Permutation_in; [symmetry; exact Hperm|exact Hx].
      - symmetry.
        apply (sort_by_order_independent tuple_lt _
                 tuple_lt_irrefl tuple_lt_trans tuple_lt_total);
          assumption. }
    apply List.map_ext_in. intros x Hx. apply tk_row_same.
    apply Hnodes. apply sort_by_In in Hx. exact Hx.
  - intros fs1 fs2 env theme_has path self e1 e2
      ((sz1 & Hd1) & (sz2 & Hd2) & Hperm & Hnodes) Hex1 Hnd.
    set (p := Pathlib.parse path) in *.
    assert (forall x, In x e1 ->
              Pathlib.is_dir fs1 (Pathlib.child p x)
              = Pathlib.is_dir fs2 (Pathlib.child p x)) as Hdirs.
    { intros x Hx. apply is_dir_same. apply Hnodes. exact Hx. }
    assert (can_examine fs2 p e2) as Hex2.
    { intros x Hx.
      assert (In x e1) as Hx1
        by (eapply Permutation_in; [symmetry; exact Hperm|exact Hx]).
      rewrite <- (Hdirs x Hx1). apply Hex1. exact Hx1. }
    assert (sort_by tuple_lt
              (name_key (fun x => dir_flag fs2 (Pathlib.child p x))) e2
            = sort_by tuple_lt
                (name_key (fun x => dir_flag fs1 (Pathlib.child p x))) e1)
      as Hsort.
    { transitivity
        (sort_by tuple_lt
           (name_key (fun x => dir_flag fs1 (Pathlib.child p x))) e2).
      - apply sort_by_ext_in. intros x Hx. unfold name_key, dir_flag.
        rewrite Hdirs; [reflexivity|].
        eapply Permutation_in; [symmetry; exact Hperm|exact Hx].
      - symmetry.
        apply (sort_by_order_independent tuple_lt _
                 tuple_lt_irrefl tuple_lt_trans tuple_lt_total);
          assumption. }
    unfold Qt.populate_list, Eff.bind, Eff.try_except, Eff.call, Eff.ret,
      Eff.modify, Pathlib.iterdir, Os.listdir. simpl.
    fold p. rewrite Hd1, Hd2. simpl.
    rewrite (sorted_children fs1 p e1 Hex1), (sorted_children fs2 p e2 Hex2).
    rewrite Hsort.
    apply for_each_ext_in. intros q Hq s. apply add_entry_same.
    apply List.in_map_iff in Hq as (x & <- & Hx).
    apply sort_by_In in Hx. apply Hdirs. exact Hx.
Qed.

Lemma listing_deterministic_witness :
  Tk.refresh_file_list scenario_fs (tk_start "/d")
  = Tk.refresh_file_list
      (fun p => if String.eqb p "/d"
                then Some (Os.Directory 0 true ["A.txt"; "B.txt"; "a_folder"])
                else scenario_fs p)
      (tk_start "/d") /\
  Qt.populate_list scenario_fs no_pillow (fun _ => false) "/d" (qt_start "/d")
  = Qt.populate_list
      (fun p => if String.eqb p "/d"
                then Some (Os.Directory 0 true ["A.txt"; "B.txt"; "a_folder"])
                else scenario_fs p)
      no_pillow (fun _ => false) "/d" (qt_start "/d").
Proof.
  assert (Permutation ["B.txt"; "a_folder"; "A.txt"]
            ["A.txt"; "B.txt"; "a_folder"]) as Hperm.
  { apply Permutation_sym. apply (Permutation_cons_app ["B.txt"; "a_folder"] []).
    reflexivity. }
  split.
  - apply (proj1 listing_deterministic scenario_fs _ (tk_start "/d")
             ["B.txt"; "a_folder"; "A.txt"] ["A.txt"; "B.txt"; "a_folder"]).
    + split; [exists 4096%N; reflexivity|].
      split; [exists 0%N; reflexivity|].
      split; [exact Hperm|].
      intros x [<-|[<-|[<-|[]]]]; reflexivity.
    + vm_compute. repeat constructor; simpl; intuition discriminate.
  - apply (proj2 listing_deterministic scenario_fs _ no_pillow (fun _ => false)
             "/d" (qt_start "/d")
             ["B.txt"; "a_folder"; "A.txt"] ["A.txt"; "B.txt"; "a_folder"]).
    + split; [exists 4096%N; reflexivity|].
      split; [exists 0%N; reflexivity|].
      split; [exact Hperm|].
      intros x [<-|[<-|[<-|[]]]]; reflexivity.
    + intros x [<-|[<-|[<-|[]]]]; eexists; vm_compute; reflexivity.
    + vm_compute. repeat constructor; simpl; intuition discriminate.
Defined.

(* ===================================================================== *)
(** ** Going up *)
(* ===================================================================== *)

Section GoUp.
Import Eff.

Lemma explorer_update_status_views fs self :
  let self' := snd (Explorer.update_status fs None self) in
  Explorer.current_path self' = Explorer.current_path self /\
  Explorer.address_bar self' = Explorer.address_bar self /\
  Explorer.list_view_root self' = Explorer.list_view_root self /\
  Explorer.tree_view_current self' = Explorer.tree_view_current self.
Proof.
  unfold Explorer.update_status, bind, get_state, try_except, call, modify.
  simpl.
  destruct (Os.listdir fs (Explorer.current_path self)); simpl;
    repeat split; reflexivity.
Qed.

(** The bare [except:] of [update_status] lets nothing out. *)
Lemma explorer_update_status_returns fs self :
  fst (Explorer.update_status fs None self) = Ok tt.
Proof.
  unfold Explorer.update_status, bind, get_state, try_except, call, modify.
  simpl.
  destruct (Os.listdir fs (Explorer.current_path self)); reflexivity.
Qed.

End GoUp.

(** C10.  Going up from a path whose parent is the path itself (the
    root, ["/"]) changes nothing at all: same state, same log (no
    directory is read), normal return.  From any other path the Tk window
    sets the current path to [os.path.dirname] of it and then lists it;
    the Qt explorer sets the current path and its views to
    [str(Path(..).parent)], updates the status and returns normally. *)
Theorem go_up_root_and_parent :
  (forall fs self,
     Os.dirname (Tk.current_path self) = Tk.current_path self ->
     Tk.go_up fs self = (Ok tt, self)) /\
  (forall fs self,
     Os.dirname (Tk.current_path self) <> Tk.current_path self ->
     Tk.go_up fs self
     = Tk.refresh_file_list fs
         (Tk.set_current_path (Os.dirname (Tk.current_path self)) self) /\
     Tk.current_path (snd (Tk.go_up fs self))
     = Os.dirname (Tk.current_path self)) /\
  (forall fs self,
     Pathlib.str (Pathlib.parent (Pathlib.parse (Explorer.current_path self)))
     = Explorer.current_path self ->
     Explorer.go_up fs self = (Ok tt, self)) /\
  (forall fs self parent,
     parent
     = Pathlib.str (Pathlib.parent (Pathlib.parse (Explorer.current_path self))) ->
     parent <> Explorer.current_path self ->
     fst (Explorer.go_up fs self) = Ok tt /\
     Explorer.current_path (snd (Explorer.go_up fs self)) = parent /\
     Explorer.address_bar (snd (Explorer.go_up fs self)) = parent /\
     Explorer.list_view_root (snd (Explorer.go_up fs self)) = parent /\
     Explorer.tree_view_current (snd (Explorer.go_up fs self)) = parent) /\
  Os.dirname "/" = "/" /\
  Pathlib.str (Pathlib.parent (Pathlib.parse "/")) = "/".
Proof.
  split; [|split; [|split; [|split; [|split]]]].
  - intros fs self Hroot.
    unfold Tk.go_up, Eff.bind, Eff.get_state, Eff.ret. simpl.
    rewrite Hroot, String.eqb_refl. reflexivity.
  - intros fs self Hup.
    assert (Tk.go_up fs self
            = Tk.refresh_file_list fs
                (Tk.set_current_path (Os.dirname (Tk.current_path self)) self))
      as Hrun.
    { unfold Tk.go_up, Eff.bind, Eff.get_state, Eff.modify. simpl.
      apply String.eqb_neq in Hup. rewrite Hup. reflexivity. }
    split; [exact Hrun|].
    rewrite Hrun, refresh_current_path. reflexivity.
  - intros fs self Hroot.
    unfold Explorer.go_up, Eff.bind, Eff.get_state, Eff.ret. simpl.
    rewrite Hroot, String.eqb_refl. reflexivity.
  - intros fs self parent -> Hup.
    set (parent :=
           Pathlib.str (Pathlib.parent (Pathlib.parse (Explorer.current_path self))))
      in *.
    assert (Explorer.go_up fs self
            = Explorer.update_status fs None
                (Explorer.set_tree_view_current parent
                   (Explorer.set_list_view_root parent
                      (Explorer.set_address_bar parent
                         (Explorer.set_current_path parent self)))))
      as ->.
    { unfold Explorer.go_up, Eff.bind, Eff.get_state, Eff.modify. simpl.
      fold parent. apply String.eqb_neq in Hup. rewrite Hup. reflexivity. }
    split; [apply explorer_update_status_returns|].
    match goal with |- context [Explorer.update_status fs None ?s] =>
      destruct (explorer_update_status_views fs s) as (-> & -> & -> & ->) end.
    repeat split; reflexivity.
  - reflexivity.
  - reflexivity.
Qed.

Lemma go_up_root_and_parent_witness :
  Tk.go_up scenario_fs (tk_start "/") = (Ok tt, tk_start "/") /\
  Tk.current_path (snd (Tk.go_up scenario_fs (tk_start "/d/a_folder"))) = "/d" /\
  (forall log,
     Explorer.go_up scenario_fs
       {| Explorer.current_path := "/"; Explorer.address_bar := "/";
          Explorer.list_view_root := "/"; Explorer.tree_view_current := "/";
          Explorer.status_label := Explorer.StatusMessage "Ready";
          Explorer.log := log |}
     = (Ok tt,
        {| Explorer.current_path := "/"; Explorer.address_bar := "/";
           Explorer.list_view_root := "/"; Explorer.tree_view_current := "/";
           Explorer.status_label := Explorer.StatusMessage "Ready";
           Explorer.log := log |})) /\
  Explorer.current_path
    (snd (Explorer.go_up scenario_fs
            {| Explorer.current_path := "/d/a_folder";
               Explorer.address_bar := "/d/a_folder";
               Explorer.list_view_root := "/d/a_folder";
               Explorer.tree_view_current := "/d/a_folder";
               Explorer.status_label := Explorer.StatusMessage "Ready";
               Explorer.log := [] |}))
  = "/d".
Proof.
  destruct go_up_root_and_parent as (Htk0 & Htk1 & Hex0 & Hex1 & _).
  split; [apply Htk0; reflexivity|].
  split; [apply Htk1; simpl; discriminate|].
  split; [intros log; apply Hex0; reflexivity|].
  eapply Hex1; [reflexivity|]. simpl. discriminate.
Defined.

Example go_up_then_list :
  Tk.go_up scenario_fs (tk_start "/d/a_folder")
  = (Ok tt,
     {| Tk.current_path := "/d"; Tk.path_label := "/d";
        Tk.tree := [("a_folder", "", "Folder"); ("A.txt", "0.0 KB", "File");
                    ("B.txt", "0.0 KB", "File")];
        Tk.log := [Tk.Listdir "/d"] |}).
Proof. vm_compute. reflexivity. Qed.

(* ===================================================================== *)
(** ** The thumbnail cache *)
(* ===================================================================== *)

Lemma thumbnail_of_decode_fails env size path :
  decode_fails env path ->
  thumbnail_of env size path = Thumb.ThemePixmap "text-x-generic" size.
Proof.
  unfold decode_fails, thumbnail_of.
  intros [H|[(e & H)|[(e & H)|(e & H)]]]; rewrite H; simpl;
    try reflexivity;
    destruct (Thumb.pillow_available env); simpl; try reflexivity;
    destruct (Thumb.image_open env path); try reflexivity;
    destruct (Thumb.image_load env path); reflexivity.
Qed.

Lemma thumbnail_of_qt_load_fails env size path :
  qt_load_fails env path ->
  thumbnail_of env size path = Thumb.ThemePixmap "image-x-generic" size.
Proof.
  unfold qt_load_fails, thumbnail_of.
  intros (-> & (d & ->) & -> & -> & ->). reflexivity.
Qed.

(** The other icon: a file Pillow handles but Qt cannot load gets the
    generic image icon, without any exception on the way. *)
Lemma qt_null_pixmap_icon env path self :
  Thumb.cache self !! (path, Thumb.thumb_size self) = None ->
  qt_load_fails env path ->
  fst (Thumb.get env path self)
  = Ok (Thumb.ThemePixmap "image-x-generic" (Thumb.thumb_size self)).
Proof.
  intros Hmiss Hfail. rewrite (get_miss env path self Hmiss). simpl.
  rewrite thumbnail_of_qt_load_fails by exact Hfail. reflexivity.
Qed.

(** C4.  [get] never raises, for any path, any cache and whatever the
    image libraries do.  When a thumbnail has to be made and Pillow is
    missing, or a statement of the [try] block raises (the file is no
    image, is corrupt or of a format Pillow does not know), the exception
    stays inside and the result is the one placeholder: the generic text
    icon at the thumbnail size. *)
Theorem thumbnail_never_raises :
  forall env path self,
    (exists pix self', Thumb.get env path self = (Ok pix, self')) /\
    (Thumb.cache self !! (path, Thumb.thumb_size self) = None ->
     decode_fails env path ->
     fst (Thumb.get env path self)
     = Ok (Thumb.ThemePixmap "text-x-generic" (Thumb.thumb_size self))).
Proof.
  intros env path self. split; [apply get_returns|].
  intros Hmiss Hfail. rewrite (get_miss env path self Hmiss). simpl.
  rewrite thumbnail_of_decode_fails by exact Hfail. reflexivity.
Qed.

Lemma thumbnail_never_raises_witness :
  fst (Thumb.get no_pillow "/d/x.png" (Thumb.init (128, 128)%Z))
  = Ok (Thumb.ThemePixmap "text-x-generic" (128, 128)%Z) /\
  fst (Thumb.get no_images "/d/notes.png" (Thumb.init (128, 128)%Z))
  = Ok (Thumb.ThemePixmap "text-x-generic" (128, 128)%Z).
Proof.
  split.
  - apply (proj2 (thumbnail_never_raises no_pillow "/d/x.png"
                    (Thumb.init (128, 128)%Z))).
    + reflexivity.
    + left. reflexivity.
  - apply (proj2 (thumbnail_never_raises no_images "/d/notes.png"
                    (Thumb.init (128, 128)%Z))).
    + reflexivity.
    + right. left. exists UnidentifiedImageError. reflexivity.
Defined.

(** C5.  After any call of [get], a second call with the same path (and
    the cache's size) returns the very pixmap of the first, whatever has
    become of the file and the libraries, and leaves the cache object as
    it was: no entry added and no read of the source file. *)
Theorem second_get_is_a_hit :
  forall env1 env2 path self,
    exists pix self1,
      Thumb.get env1 path self = (Ok pix, self1) /\
      Thumb.cache self1 !! (path, Thumb.thumb_size self1) = Some pix /\
      Thumb.get env2 path self1 = (Ok pix, self1) /\
      Thumb.accesses (snd (Thumb.get env2 path self1)) = Thumb.accesses self1.
Proof.
  intros env1 env2 path self.
  assert (exists pix self1,
            Thumb.get env1 path self = (Ok pix, self1) /\
            Thumb.cache self1 !! (path, Thumb.thumb_size self1) = Some pix)
    as (pix & self1 & Hfirst & Hstored).
  { destruct (Thumb.cache self !! (path, Thumb.thumb_size self)) as [pix|] eqn:H.
    - exists pix, self. split; [apply get_hit|]; exact H.
    - eexists _, _. split; [apply (get_miss env1 path self H)|].
      simpl. apply lookup_insert_eq. }
  exists pix, self1. split; [exact Hfirst|]. split; [exact Hstored|].
  rewrite (get_hit env2 path self1 pix Hstored). split; reflexivity.
Qed.

(** C6.  No image is ever scaled.  The statement
    [QPixmap.fromImage(QPixmap.fromImage(QPixmap()).toImage())] hands a
    [QPixmap] to [QPixmap.fromImage], which PyQt6 answers with
    [TypeError]; it stands in the [try] block before the pixmap is
    loaded and scaled.  So whatever Pillow and Qt can decode, a
    thumbnail that has to be made is the generic text icon at the
    thumbnail size, it is what the cache keeps for the path, and the
    file is opened by Pillow at most and never loaded by Qt. *)
Theorem thumbnail_never_scaled :
  forall env path self,
    Thumb.qimage_roundtrip env = Raise TypeError ->
    Thumb.cache self !! (path, Thumb.thumb_size self) = None ->
    fst (Thumb.get env path self)
    = Ok (Thumb.ThemePixmap "text-x-generic" (Thumb.thumb_size self)) /\
    Thumb.cache (snd (Thumb.get env path self)) !! (path, Thumb.thumb_size self)
    = Some (Thumb.ThemePixmap "text-x-generic" (Thumb.thumb_size self)) /\
    forall a,
      In a (Thumb.accesses (snd (Thumb.get env path self))) ->
      In a (Thumb.accesses self) \/ a = Thumb.ImageOpen path.
Proof.
  intros env path self Hline Hmiss.
  assert (decode_fails env path) as Hfail
    by (right; right; right; exists TypeError; exact Hline).
  rewrite (get_miss env path self Hmiss). simpl.
  rewrite (thumbnail_of_decode_fails env _ path Hfail).
  split; [reflexivity|]. split; [apply lookup_insert_eq|].
  intros a Ha. apply List.in_app_or in Ha as [Ha|Ha]; [left; exact Ha|].
  right. unfold thumbnail_reads in Ha. rewrite Hline in Ha.
  destruct (Thumb.pillow_available env); simpl in Ha; [|destruct Ha].
  destruct (Thumb.image_open env path); [destruct (Thumb.image_load env path)|];
    destruct Ha as [<-|[]]; reflexivity.
Qed.

(** A photo of 640 x 480 pixels that Pillow and Qt both decode, asked
    for at 128 x 128: the placeholder, not a bitmap of 128 x 96. *)
Lemma thumbnail_never_scaled_witness :
  fst (Thumb.get (pyqt6_images (640, 480)%Z) "/d/p.png"
         (Thumb.init (128, 128)%Z))
  = Ok (Thumb.ThemePixmap "text-x-generic" (128, 128)%Z).
Proof.
  apply (thumbnail_never_scaled (pyqt6_images (640, 480)%Z) "/d/p.png"
           (Thumb.init (128, 128)%Z)).
  - reflexivity.
  - reflexivity.
Defined.

(** C7.  The cache is a map, so a key has at most one pixmap; a call of
    [get] either leaves the map as it is or adds the pixmap it made under
    a key that had none.  So every stored entry stays, with the same
    pixmap, through any run of calls, whatever becomes of the files and
    the libraries in between. *)
Theorem cache_only_grows :
  forall env path self,
    (Thumb.cache (snd (Thumb.get env path self)) = Thumb.cache self \/
     exists pix,
       Thumb.cache self !! (path, Thumb.thumb_size self) = None /\
       Thumb.cache (snd (Thumb.get env path self))
       = <[(path, Thumb.thumb_size self) := pix]> (Thumb.cache self)) /\
    Thumb.thumb_size (snd (Thumb.get env path self)) = Thumb.thumb_size self /\
    (forall k v,
       Thumb.cache self !! k = Some v ->
       Thumb.cache (snd (Thumb.get env path self)) !! k = Some v) /\
    (forall calls k v,
       Thumb.cache self !! k = Some v ->
       Thumb.cache (run_gets calls self) !! k = Some v).
Proof.
  intros env path self. split; [|split; [|split]].
  - destruct (Thumb.cache self !! (path, Thumb.thumb_size self)) as [pix|] eqn:H.
    + left. rewrite (get_hit env path self pix H). reflexivity.
    + right. eexists. split; [reflexivity|].
      rewrite (get_miss env path self H). reflexivity.
  - apply get_thumb_size.
  - intros k v. apply get_keeps.
  - intros calls k v. apply run_gets_keeps.
Qed.

Lemma cache_only_grows_witness :
  let photo := Thumb.FilePixmap "/d/p.png" (128, 96)%Z in
  let self :=
    {| Thumb.cache := {[ ("/d/p.png", (128, 128)%Z) := photo ]};
       Thumb.thumb_size := (128, 128)%Z;
       Thumb.accesses := [] |} in
  Thumb.cache (snd (Thumb.get no_images "/d/p.png" self))
    !! ("/d/p.png", (128, 128)%Z) = Some photo /\
  Thumb.cache
    (run_gets [(no_images, "/d/q.png"); (no_pillow, "/d/p.png")] self)
    !! ("/d/p.png", (128, 128)%Z) = Some photo.
Proof.
  intros photo self. split.
  - apply (proj1 (proj2 (proj2 (cache_only_grows no_images "/d/p.png" self)))).
    apply lookup_singleton_eq.
  - apply (proj2 (proj2 (proj2 (cache_only_grows no_images "/d/p.png" self)))).
    apply lookup_singleton_eq.
Defined.

(** C9.  When a thumbnail has to be made and making it fails, the
    placeholder that comes back (the generic text icon, or the generic
    image icon when only Qt fails) is stored under the key like any
    thumbnail; after any run of other calls, a call with the same path
    returns that stored placeholder and changes nothing, however well the
    file decodes by then. *)
Theorem failed_decode_is_cached :
  forall env path self calls env',
    Thumb.cache self !! (path, Thumb.thumb_size self) = None ->
    decode_fails env path \/ qt_load_fails env path ->
    exists placeholder self1,
      Thumb.get env path self = (Ok placeholder, self1) /\
      (placeholder = Thumb.ThemePixmap "text-x-generic" (Thumb.thumb_size self) \/
       placeholder = Thumb.ThemePixmap "image-x-generic" (Thumb.thumb_size self)) /\
      Thumb.cache self1 !! (path, Thumb.thumb_size self) = Some placeholder /\
      Thumb.get env' path (run_gets calls self1)
      = (Ok placeholder, run_gets calls self1).
Proof.
  intros env path self calls env' Hmiss Hfail.
  eexists _, _. split; [apply (get_miss env path self Hmiss)|].
  split.
  { destruct Hfail as [Hfail|Hfail].
    - left. apply thumbnail_of_decode_fails. exact Hfail.
    - right. apply thumbnail_of_qt_load_fails. exact Hfail. }
  split; [simpl; apply lookup_insert_eq|].
  apply get_hit. rewrite run_gets_thumb_size. simpl.
  apply run_gets_keeps. simpl. apply lookup_insert_eq.
Qed.

Lemma failed_decode_is_cached_witness :
  exists placeholder self1,
    Thumb.get no_images "/d/p.png" (Thumb.init (128, 128)%Z)
    = (Ok placeholder, self1) /\
    (placeholder = Thumb.ThemePixmap "text-x-generic" (128, 128)%Z \/
     placeholder = Thumb.ThemePixmap "image-x-generic" (128, 128)%Z) /\
    Thumb.cache self1 !! ("/d/p.png", (128, 128)%Z) = Some placeholder /\
    Thumb.get (all_images (640, 480)%Z) "/d/p.png"
      (run_gets [(all_images (640, 480)%Z, "/d/q.png")] self1)
    = (Ok placeholder, run_gets [(all_images (640, 480)%Z, "/d/q.png")] self1).
Proof.
  apply (failed_decode_is_cached no_images "/d/p.png" (Thumb.init (128, 128)%Z)
           [(all_images (640, 480)%Z, "/d/q.png")] (all_images (640, 480)%Z)).
  - reflexivity.
  - left. right. left. exists UnidentifiedImageError. reflexivity.
Defined.

Example stale_placeholder :
  fst (Thumb.get (all_images (640, 480)%Z) "/d/p.png"
         (snd (Thumb.get no_images "/d/p.png" (Thumb.init (128, 128)%Z))))
  = Ok (Thumb.ThemePixmap "text-x-generic" (128, 128)%Z).
Proof. vm_compute. reflexivity. Qed.

(* ===================================================================== *)
(** ** More on the thumbnail cache *)
(* ===================================================================== *)

Section CacheRuns.

(** One call, seen from a key of the cache's own size. *)
Lemma get_lookup env p self path :
  Thumb.cache (snd (Thumb.get env p self)) !! (path, Thumb.thumb_size self)
  = match Thumb.cache self !! (path, Thumb.thumb_size self) with
    | Some v => Some v
    | None => if String.eqb p path
              then Some (thumbnail_of env (Thumb.thumb_size self) path)
              else None
    end.
Proof.
  destruct (Thumb.cache self !! (p, Thumb.thumb_size self)) as [pix|] eqn:Hp.
  - rewrite (get_hit env p self pix Hp). simpl.
    destruct (Thumb.cache self !! (path, Thumb.thumb_size self)) eqn:Hpath;
      [reflexivity|].
    destruct (String.eqb_spec p path) as [->|Hne]; [congruence|reflexivity].
  - rewrite (get_miss env p self Hp). simpl.
    destruct (String.eqb_spec p path) as [->|Hne].
    + rewrite lookup_insert_eq, Hp. reflexivity.
    + rewrite lookup_insert_ne by congruence.
      destruct (Thumb.cache self !! (path, Thumb.thumb_size self)); reflexivity.
Qed.

Lemma get_other_size env p self path sz :
  sz <> Thumb.thumb_size self ->
  Thumb.cache (snd (Thumb.get env p self)) !! (path, sz)
  = Thumb.cache self !! (path, sz).
Proof.
  intros Hsz.
  destruct (Thumb.cache self !! (p, Thumb.thumb_size self)) as [pix|] eqn:Hp.
  - rewrite (get_hit env p self pix Hp). reflexivity.
  - rewrite (get_miss env p self Hp). simpl.
    apply lookup_insert_ne. congruence.
Qed.

End CacheRuns.

(** X1.  After any run of [get] calls, the cache holds for a path what it
    held before the run or else the thumbnail made by the first call of
    the run that asked for the path, under the image libraries of that
    call; paths nobody asked for have no entry, and keys of another size
    than the cache's are never touched. *)
Theorem cache_after_run :
  forall calls self path,
    Thumb.cache (run_gets calls self) !! (path, Thumb.thumb_size self)
    = match Thumb.cache self !! (path, Thumb.thumb_size self) with
      | Some v => Some v
      | None =>
          match first_env calls path with
          | Some env => Some (thumbnail_of env (Thumb.thumb_size self) path)
          | None => None
          end
      end /\
    forall sz,
      sz <> Thumb.thumb_size self ->
      Thumb.cache (run_gets calls self) !! (path, sz)
      = Thumb.cache self !! (path, sz).
Proof.
  induction calls as [|[env p] calls IH]; intros self path.
  - simpl. split; [|reflexivity].
    destruct (Thumb.cache self !! (path, Thumb.thumb_size self)); reflexivity.
  - simpl run_gets. simpl first_env.
    destruct (IH (snd (Thumb.get env p self)) path) as [IHsame IHother].
    rewrite get_thumb_size in IHsame, IHother. split.
    + rewrite IHsame, get_lookup.
      destruct (Thumb.cache self !! (path, Thumb.thumb_size self));
        [reflexivity|].
      destruct (String.eqb p path); reflexivity.
    + intros sz Hsz. rewrite (IHother sz Hsz). apply get_other_size. exact Hsz.
Qed.

Section CacheReads.

Lemma thumbnail_reads_cases env path :
  thumbnail_reads env path = [] \/
  thumbnail_reads env path = [Thumb.ImageOpen path] \/
  thumbnail_reads env path = [Thumb.ImageOpen path; Thumb.QPixmapLoad path].
Proof.
  unfold thumbnail_reads.
  destruct (Thumb.pillow_available env); simpl; [|auto].
  destruct (Thumb.image_open env path); [|auto].
  destruct (Thumb.image_load env path); [|auto].
  destruct (Thumb.qimage_roundtrip env); auto.
Qed.

Lemma get_reads_ok env path self :
  reads_ok self -> reads_ok (snd (Thumb.get env path self)).
Proof.
  intros [Hnd Hin]. unfold reads_ok.
  destruct (Thumb.cache self !! (path, Thumb.thumb_size self)) as [pix|] eqn:Hp.
  - rewrite (get_hit env path self pix Hp). split; assumption.
  - rewrite (get_miss env path self Hp). simpl.
    assert (forall a, In a (thumbnail_reads env path) -> access_path a = path)
      as Hnew.
    { intros a Ha.
      destruct (thumbnail_reads_cases env path) as [H|[H|H]];
        rewrite H in Ha; simpl in Ha; intuition (subst; reflexivity). }
    split.
    + apply List.NoDup_app; [exact Hnd| |].
      * destruct (thumbnail_reads_cases env path) as [H|[H|H]]; rewrite H;
          repeat constructor; simpl; intuition discriminate.
      * intros a Hold Hfresh. apply Hnew in Hfresh.
        specialize (Hin a Hold). rewrite Hfresh, Hp in Hin.
        destruct Hin as [? Hin]. discriminate Hin.
    + intros a Ha. apply List.in_app_or in Ha as [Ha|Ha].
      * destruct (Hin a Ha) as [v Hv]. exists v.
        destruct (String.eqb_spec (access_path a) path) as [Heq|Hne].
        -- rewrite Heq, Hp in Hv. discriminate Hv.
        -- rewrite lookup_insert_ne by congruence. exact Hv.
      * rewrite (Hnew a Ha), lookup_insert_eq. eexists. reflexivity.
Qed.

Lemma run_gets_reads_ok calls : forall self,
  reads_ok self -> reads_ok (run_gets calls self).
Proof.
  induction calls as [|[env path] calls IH]; intros self Hok; simpl;
    [exact Hok|].
  apply IH. apply get_reads_ok. exact Hok.
Qed.

Lemma init_reads_ok size : reads_ok (Thumb.init size).
Proof. split; [constructor|]. intros a []. Qed.

End CacheReads.

Lemma cache_after_run_witness :
  (64, 64)%Z <> Thumb.thumb_size (Thumb.init (128, 128)%Z) /\
  Thumb.cache (run_gets [(all_images (640, 480)%Z, "/d/A.png")] (Thumb.init (128, 128)%Z))
    !! ("/d/A.png", (64, 64)%Z)
  = Thumb.cache (Thumb.init (128, 128)%Z) !! ("/d/A.png", (64, 64)%Z).
Proof.
  assert ((64, 64)%Z <> Thumb.thumb_size (Thumb.init (128, 128)%Z)) as Hsz
    by discriminate.
  split; [exact Hsz|].
  destruct (cache_after_run [(all_images (640, 480)%Z, "/d/A.png")]
              (Thumb.init (128, 128)%Z) "/d/A.png") as [_ Hother].
  exact (Hother (64, 64)%Z Hsz).
Defined.

(** X2.  Over any run of [get] calls on a new cache no read of a source
    file is made twice: Pillow opens a file at most once and Qt loads it
    at most once, however often the thumbnail is asked for and whatever
    the libraries do; and every file that was read has its entry. *)
Theorem no_file_read_twice :
  forall calls size,
    List.NoDup (Thumb.accesses (run_gets calls (Thumb.init size))) /\
    forall a, In a (Thumb.accesses (run_gets calls (Thumb.init size))) ->
      is_Some (Thumb.cache (run_gets calls (Thumb.init size))
                 !! (access_path a, size)).
Proof.
  intros calls size.
  destruct (run_gets_reads_ok calls (Thumb.init size) (init_reads_ok size))
    as [Hnd Hin].
  split; [exact Hnd|]. intros a Ha. specialize (Hin a Ha).
  rewrite run_gets_thumb_size in Hin. exact Hin.
Qed.

Lemma no_file_read_twice_witness :
  In (Thumb.ImageOpen "/d/A.png")
    (Thumb.accesses
       (run_gets [(all_images (640, 480)%Z, "/d/A.png"); (all_images (640, 480)%Z, "/d/A.png")]
          (Thumb.init (128, 128)%Z))) /\
  is_Some
    (Thumb.cache
       (run_gets [(all_images (640, 480)%Z, "/d/A.png"); (all_images (640, 480)%Z, "/d/A.png")]
          (Thumb.init (128, 128)%Z))
     !! ("/d/A.png", (128, 128)%Z)).
Proof.
  assert (In (Thumb.ImageOpen "/d/A.png")
            (Thumb.accesses
               (run_gets [(all_images (640, 480)%Z, "/d/A.png"); (all_images (640, 480)%Z, "/d/A.png")]
                  (Thumb.init (128, 128)%Z)))) as Hin
    by (vm_compute; left; reflexivity).
  split; [exact Hin|].
  destruct (no_file_read_twice
              [(all_images (640, 480)%Z, "/d/A.png"); (all_images (640, 480)%Z, "/d/A.png")]
              (128, 128)%Z) as [_ Hcached].
  exact (Hcached _ Hin).
Defined.

(* ===================================================================== *)
(** ** The Qt listing and its thumbnails *)
(* ===================================================================== *)

Section QtThumbnails.
Import Eff.
Variable fs : Os.filesystem.
Variable theme_has : string -> bool.

Local Abbreviation size_of s := (Thumb.thumb_size (Qt.thumb_cache s)).
Local Abbreviation map_of s := (Thumb.cache (Qt.thumb_cache s)).

(** The item of an entry only depends on the cache through the entry's
    own key, and only when a thumbnail is wanted. *)
Lemma entry_item_agree c1 c2 size p :
  (wants_thumbnail fs p = true ->
   c1 !! (Pathlib.str p, size) = c2 !! (Pathlib.str p, size)) ->
  entry_item fs theme_has c1 size p = entry_item fs theme_has c2 size p.
Proof.
  unfold entry_item, wants_thumbnail. intros Hkey.
  destruct (dir_flag fs p); [reflexivity|].
  destruct (existsb (String.eqb (lower (Pathlib.suffix p))) Qt.image_suffixes);
    [|reflexivity].
  rewrite Hkey by reflexivity. reflexivity.
Qed.

(** One pass of the loop for an entry [is_dir] answers for, with the
    item it appends and what it does to the cache. *)
Lemma add_entry_item env p s :
  (exists d, Pathlib.is_dir fs p = Ok d) ->
  exists s',
    Qt.add_entry fs env theme_has p s = (Ok tt, s') /\
    Qt.list_model s'
    = Qt.list_model s ++ [entry_item fs theme_has (map_of s') (size_of s) p] /\
    size_of s' = size_of s /\
    Qt.log s' = Qt.log s /\
    Qt.current_path s' = Qt.current_path s /\
    (forall k v, map_of s !! k = Some v -> map_of s' !! k = Some v) /\
    (wants_thumbnail fs p = true ->
     is_Some (map_of s' !! (Pathlib.str p, size_of s))) /\
    ((wants_thumbnail fs p = true ->
      is_Some (map_of s !! (Pathlib.str p, size_of s))) ->
     Qt.thumb_cache s' = Qt.thumb_cache s).
Proof.
  intros (d & Hd).
  unfold Qt.add_entry, entry_item, wants_thumbnail, bind, ret, modify, zoom,
    call.
  rewrite (is_dir_flag fs p d Hd), Hd.
  destruct d.
  { eexists. split; [reflexivity|]. simpl.
    repeat split; auto; discriminate. }
  destruct (existsb (String.eqb (lower (Pathlib.suffix p))) Qt.image_suffixes).
  2:{ eexists. split; [reflexivity|]. simpl.
      repeat split; auto; discriminate. }
  simpl negb. simpl andb.
  destruct (map_of s !! (Pathlib.str p, size_of s)) as [pix|] eqn:Hkey.
  - rewrite (get_hit env (Pathlib.str p) (Qt.thumb_cache s) pix Hkey).
    destruct (Qt.isNull theme_has pix) eqn:Hnull;
      (eexists; split; [reflexivity|]); simpl; rewrite Hkey; simpl;
      rewrite Hnull; simpl; repeat split; auto; eexists; reflexivity.
  - rewrite (get_miss env (Pathlib.str p) (Qt.thumb_cache s) Hkey).
    destruct (Qt.isNull theme_has
                (thumbnail_of env (size_of s) (Pathlib.str p))) eqn:Hnull;
      (eexists; split; [reflexivity|]); simpl;
      rewrite lookup_insert_eq; simpl; rewrite Hnull; simpl.
    all: split; [reflexivity|].
    all: split; [reflexivity|].
    all: split; [reflexivity|].
    all: split; [reflexivity|].
    all: split;
      [intros k v Hk; rewrite lookup_insert_ne; [exact Hk|congruence]|].
    all: split; [intros _; eexists; reflexivity|].
    all: intros Hsome; destruct (Hsome eq_refl) as [v Hv]; congruence.
Qed.

(** The whole loop: every item is the one the final cache gives. *)
Lemma for_each_items env entries : forall s,
  (forall p, In p entries -> exists d, Pathlib.is_dir fs p = Ok d) ->
  exists s',
    for_each entries (Qt.add_entry fs env theme_has) s = (Ok tt, s') /\
    Qt.list_model s'
    = Qt.list_model s ++
      List.map (entry_item fs theme_has (map_of s') (size_of s)) entries /\
    size_of s' = size_of s /\
    Qt.log s' = Qt.log s /\
    Qt.current_path s' = Qt.current_path s /\
    (forall k v, map_of s !! k = Some v -> map_of s' !! k = Some v) /\
    (forall p, In p entries -> wants_thumbnail fs p = true ->
       is_Some (map_of s' !! (Pathlib.str p, size_of s))) /\
    ((forall p, In p entries -> wants_thumbnail fs p = true ->
        is_Some (map_of s !! (Pathlib.str p, size_of s))) ->
     Qt.thumb_cache s' = Qt.thumb_cache s).
Proof.
  induction entries as [|p entries IH]; intros s Hdirs.
  - exists s. simpl. rewrite app_nil_r.
    repeat split; auto. intros p [].
  - destruct (add_entry_item env p s (Hdirs p (or_introl eq_refl)))
      as (s1 & Hrun & Hlist1 & Hsize1 & Hlog1 & Hcur1 & Hmono1 & Hhas1 & Hsame1).
    destruct (IH s1 (fun q Hq => Hdirs q (or_intror Hq)))
      as (s' & Hfor & Hlist & Hsize & Hlog & Hcur & Hmono & Hhas & Hsame).
    exists s'. simpl. unfold bind. rewrite Hrun.
    split; [exact Hfor|].
    rewrite Hsize1 in *.
    split.
    { rewrite Hlist, Hlist1, <- app_assoc. simpl. do 2 f_equal.
      apply entry_item_agree. intros Hw.
      destruct (Hhas1 Hw) as [v Hv]. rewrite Hv. symmetry. apply Hmono. exact Hv. }
    split; [congruence|]. split; [congruence|]. split; [congruence|].
    split; [auto|].
    split.
    { intros q [<-|Hq] Hw.
      - destruct (Hhas1 Hw) as [v Hv]. exists v. apply Hmono. exact Hv.
      - apply Hhas; assumption. }
    intros Hall.
    assert (Qt.thumb_cache s1 = Qt.thumb_cache s) as H1
      by (apply Hsame1; intros Hw; apply Hall; [left; reflexivity|exact Hw]).
    rewrite Hsame; [exact H1|].
    intros q Hq Hw. rewrite H1. apply Hall; [right; exact Hq|exact Hw].
Qed.

(** [populate_list] on a directory that can be read and whose sort
    returns is the loop over the sorted children. *)
Lemma populate_is_loop env path self names entries :
  Os.listdir fs (Pathlib.str (Pathlib.parse path)) = Ok names ->
  sorted tuple_lt (Qt.sort_key fs)
    (List.map (Pathlib.child (Pathlib.parse path)) names) = Ok entries ->
  Qt.populate_list fs env theme_has path self
  = for_each entries (Qt.add_entry fs env theme_has)
      (Qt.emit (Qt.Listdir (Pathlib.str (Pathlib.parse path)))
         (Qt.set_list_model [] self)).
Proof.
  intros Hdir Hsort.
  unfold Qt.populate_list, bind, try_except, call, ret, modify,
    Pathlib.iterdir. simpl.
  rewrite Hdir. simpl. rewrite Hsort. reflexivity.
Qed.

End QtThumbnails.

(** X3.  Listing the same directory a second time shows the same items
    with the same icons and leaves the thumbnail cache as the first
    listing left it: no entry is added and no source file is read again,
    whatever has become of the image libraries and the image files. *)
Theorem second_listing_reads_nothing :
  forall fs env1 env2 theme_has path self,
    let s1 := snd (Qt.populate_list fs env1 theme_has path self) in
    let s2 := snd (Qt.populate_list fs env2 theme_has path s1) in
    Qt.list_model s2 = Qt.list_model s1 /\
    Qt.thumb_cache s2 = Qt.thumb_cache s1 /\
    Thumb.accesses (Qt.thumb_cache s2) = Thumb.accesses (Qt.thumb_cache s1).
Proof.
  intros fs env1 env2 theme_has path self.
  destruct (Os.listdir fs (Pathlib.str (Pathlib.parse path)))
    as [names|e] eqn:Hdir.
  - destruct (sorted tuple_lt (Qt.sort_key fs)
                (List.map (Pathlib.child (Pathlib.parse path)) names))
      as [entries|e] eqn:Hsort.
    + pose proof (sorted_entries_examined fs _ entries Hsort) as Hdirs.
      rewrite (populate_is_loop fs theme_has env1 path self names entries
                 Hdir Hsort).
      match goal with |- context [Eff.for_each entries _ ?s0] =>
        destruct (for_each_items fs theme_has env1 entries s0 Hdirs)
          as (s1 & Hrun1 & Hlist1 & Hsize1 & _ & _ & _ & Hhas1 & _) end.
      rewrite Hrun1. simpl.
      rewrite (populate_is_loop fs theme_has env2 path s1 names entries
                 Hdir Hsort).
      match goal with |- context [Eff.for_each entries _ ?s0] =>
        destruct (for_each_items fs theme_has env2 entries s0 Hdirs)
          as (s2 & Hrun2 & Hlist2 & _ & _ & _ & _ & _ & Hsame2) end.
      rewrite Hrun2. simpl in *.
      assert (Qt.thumb_cache s2 = Qt.thumb_cache s1) as Hcache.
      { apply Hsame2. intros p Hp Hw. rewrite Hsize1. apply Hhas1; assumption. }
      split; [|split; [exact Hcache|rewrite Hcache; reflexivity]].
      rewrite Hlist2, Hlist1, Hcache, Hsize1. reflexivity.
    + rewrite (populate_unexamined fs env1 theme_has path self names e
                 Hdir Hsort). simpl.
      rewrite (populate_unexamined fs env2 theme_has path _ names e
                 Hdir Hsort). simpl.
      repeat split; reflexivity.
  - rewrite (populate_refused fs env1 theme_has path self e Hdir). simpl.
    rewrite (populate_refused fs env2 theme_has path _ e Hdir). simpl.
    repeat split; reflexivity.
Qed.

(* ===================================================================== *)
(** ** [os.path.dirname] and [os.path.join] *)
(* ===================================================================== *)

Section PathFacts.

Lemma string_app_assoc (a b c : string) :
  ((a ++ b) ++ c = a ++ (b ++ c))%string.
Proof.
  induction a as [|h a IH]; [reflexivity|].
  change (String h ((a ++ b) ++ c) = String h (a ++ (b ++ c)))%string.
  rewrite IH. reflexivity.
Qed.

Lemma chars_append (a b : string) :
  list_ascii_of_string (a ++ b)
  = list_ascii_of_string a ++ list_ascii_of_string b.
Proof. induction a as [|c a IH]; simpl; [reflexivity|]. rewrite IH. reflexivity. Qed.

Lemma chars_length (s : string) :
  List.length (list_ascii_of_string s) = String.length s.
Proof. induction s as [|c s IH]; simpl; [reflexivity|]. rewrite IH. reflexivity. Qed.

Lemma drop_while_suffix f l : exists a, l = a ++ Os.drop_while f l.
Proof.
  induction l as [|c l [a IH]]; simpl.
  - exists []. reflexivity.
  - destruct (f c).
    + exists (c :: a). simpl. rewrite <- IH. reflexivity.
    + exists []. reflexivity.
Qed.

(** Dropping from the right end leaves a prefix. *)
Lemma rev_drop_prefix f l : exists t, l = rev (Os.drop_while f (rev l)) ++ t.
Proof.
  destruct (drop_while_suffix f (rev l)) as [a Ha].
  exists (rev a). rewrite <- rev_app_distr, <- Ha, rev_involutive. reflexivity.
Qed.

(** [dirname p] is a prefix of [p]. *)
Lemma dirname_prefix p :
  exists t, list_ascii_of_string p = list_ascii_of_string (Os.dirname p) ++ t.
Proof.
  unfold Os.dirname. rewrite list_ascii_of_string_of_list_ascii.
  destruct (rev_drop_prefix (fun c => negb (Os.is_sep c))
              (list_ascii_of_string p)) as [t1 H1].
  fold (Os.upto_last_sep (list_ascii_of_string p)) in H1.
  destruct (negb (forallb Os.is_sep (Os.upto_last_sep (list_ascii_of_string p)))).
  - destruct (rev_drop_prefix Os.is_sep
                (Os.upto_last_sep (list_ascii_of_string p))) as [t2 H2].
    fold (Os.rstrip_sep (Os.upto_last_sep (list_ascii_of_string p))) in H2.
    exists (t2 ++ t1). rewrite app_assoc, <- H2. exact H1.
  - exists t1. exact H1.
Qed.

(** Going to the parent shortens the path, unless it stays the same. *)
Lemma dirname_shorter p :
  Os.dirname p <> p ->
  (String.length (Os.dirname p) < String.length p)%nat.
Proof.
  intros Hne. destruct (dirname_prefix p) as [t Ht].
  destruct t as [|c t].
  - exfalso. apply Hne. rewrite app_nil_r in Ht.
    rewrite <- (string_of_list_ascii_of_string (Os.dirname p)), <- Ht.
    apply string_of_list_ascii_of_string.
  - apply (f_equal (@List.length ascii)) in Ht.
    rewrite List.length_app, !chars_length in Ht. simpl in Ht. lia.
Qed.

Lemma endswith_sep_chars s :
  Os.endswith_sep s
  = match rev (list_ascii_of_string s) with
    | c :: _ => Os.is_sep c
    | [] => false
    end.
Proof.
  induction s as [|c s IH]; [reflexivity|].
  simpl Os.endswith_sep. simpl list_ascii_of_string. simpl rev.
  destruct s as [|c' s]; [reflexivity|].
  rewrite IH. simpl.
  destruct (rev (list_ascii_of_string s) ++ [c']) eqn:E; [|reflexivity].
  apply app_eq_nil in E as [_ E]. discriminate E.
Qed.

Lemma drop_while_app_all f a b :
  forallb f a = true -> Os.drop_while f (a ++ b) = Os.drop_while f b.
Proof.
  induction a as [|c a IH]; simpl; [reflexivity|].
  intros H. apply andb_true_iff in H as [Hc Ha]. rewrite Hc. auto.
Qed.

Lemma forallb_rev {A} (f : A -> bool) l : forallb f (rev l) = forallb f l.
Proof.
  induction l as [|x l IH]; simpl; [reflexivity|].
  rewrite List.forallb_app, IH. simpl. rewrite andb_true_r. apply andb_comm.
Qed.

Lemma upto_last_sep_app_name l t :
  forallb (fun c => negb (Os.is_sep c)) t = true ->
  Os.upto_last_sep (l ++ t) = Os.upto_last_sep l.
Proof.
  intros Ht. unfold Os.upto_last_sep. rewrite rev_app_distr.
  rewrite drop_while_app_all by (rewrite forallb_rev; exact Ht). reflexivity.
Qed.

Lemma upto_last_sep_ends_sep l :
  match rev l with c :: _ => Os.is_sep c | [] => true end = true ->
  Os.upto_last_sep l = l.
Proof.
  unfold Os.upto_last_sep. destruct (rev l) as [|c r] eqn:E.
  - intros _. rewrite <- (rev_involutive l), E. reflexivity.
  - intros Hc. cbn [Os.drop_while]. rewrite Hc. cbn [negb].
    rewrite <- E. apply rev_involutive.
Qed.

Lemma is_sep_sep : Os.is_sep Os.sep = true.
Proof. reflexivity. Qed.

Lemma plain_name_start x : plain_name x -> Os.startswith_sep x = false.
Proof.
  intros [Hx Hplain]. destruct x as [|c x]; [congruence|]. simpl in *.
  apply andb_true_iff in Hplain as [Hc _]. apply negb_true_iff. exact Hc.
Qed.

Lemma join_chars cur x :
  Os.startswith_sep x = false ->
  list_ascii_of_string (Os.join cur x)
  = if String.eqb cur "" || Os.endswith_sep cur
    then list_ascii_of_string cur ++ list_ascii_of_string x
    else (list_ascii_of_string cur ++ [Os.sep]) ++ list_ascii_of_string x.
Proof.
  intros Hstart. unfold Os.join. rewrite Hstart.
  destruct (String.eqb cur "" || Os.endswith_sep cur).
  - apply chars_append.
  - rewrite !chars_append, <- app_assoc. reflexivity.
Qed.

Lemma chars_nil s : list_ascii_of_string s = [] -> s = "".
Proof. destruct s; [reflexivity|discriminate]. Qed.

(** A name added to a directory path and taken off again: the path. *)
Lemma dirname_join cur x :
  normal_path cur -> plain_name x -> Os.dirname (Os.join cur x) = cur.
Proof.
  intros Hnormal Hplain.
  pose proof (plain_name_start x Hplain) as Hstart.
  destruct Hplain as [Hx Hplain].
  unfold Os.dirname. rewrite (join_chars cur x Hstart).
  transitivity (string_of_list_ascii (list_ascii_of_string cur));
    [f_equal|apply string_of_list_ascii_of_string].
  rewrite endswith_sep_chars.
  destruct (rev (list_ascii_of_string cur)) as [|c r] eqn:Hrev.
  { (* the empty path *)
    assert (cur = "") as ->.
    { apply chars_nil. rewrite <- (rev_involutive (list_ascii_of_string cur)),
        Hrev. reflexivity. }
    simpl. rewrite <- (app_nil_l (list_ascii_of_string x)).
    rewrite upto_last_sep_app_name by exact Hplain. reflexivity. }
  assert (String.eqb cur "" = false) as ->.
  { apply String.eqb_neq. intros ->. discriminate Hrev. }
  simpl orb.
  destruct (Os.is_sep c) eqn:Hc.
  - (* the root: slashes only *)
    destruct Hnormal as [Hn|Hall];
      [rewrite endswith_sep_chars, Hrev, Hc in Hn; discriminate Hn|].
    rewrite upto_last_sep_app_name by exact Hplain.
    rewrite upto_last_sep_ends_sep by (rewrite Hrev; exact Hc).
    rewrite Hall. reflexivity.
  - (* a path that ends with a name *)
    rewrite upto_last_sep_app_name by exact Hplain.
    rewrite upto_last_sep_ends_sep
      by (rewrite rev_app_distr; reflexivity).
    rewrite List.forallb_app.
    replace (forallb Os.is_sep (list_ascii_of_string cur)) with false.
    + simpl. unfold Os.rstrip_sep. rewrite rev_app_distr. simpl.
      rewrite Hrev. simpl. rewrite Hc. rewrite <- Hrev. apply rev_involutive.
    + symmetry. rewrite <- forallb_rev, Hrev. simpl. rewrite Hc. reflexivity.
Qed.

(** What [dirname] returns is in normal form. *)
Lemma dirname_normal p : normal_path (Os.dirname p).
Proof.
  unfold normal_path, Os.dirname.
  set (head := Os.upto_last_sep (list_ascii_of_string p)).
  destruct (forallb Os.is_sep head) eqn:Hall; simpl.
  - right. rewrite list_ascii_of_string_of_list_ascii. exact Hall.
  - left. rewrite endswith_sep_chars, list_ascii_of_string_of_list_ascii.
    unfold Os.rstrip_sep. rewrite rev_involutive.
    generalize (rev head). intros l.
    induction l as [|c l IH]; simpl; [reflexivity|].
    destruct (Os.is_sep c) eqn:Hc; [exact IH|exact Hc].
Qed.

(** So is a path with a plain name added. *)
Lemma join_normal cur x : plain_name x -> normal_path (Os.join cur x).
Proof.
  intros Hp. pose proof (plain_name_start x Hp) as Hstart.
  destruct Hp as [Hx Hplain]. left.
  assert (forall a, Os.endswith_sep (a ++ x) = false) as Hend.
  { intros a. rewrite endswith_sep_chars, chars_append, rev_app_distr.
    destruct (rev (list_ascii_of_string x)) as [|c r] eqn:Hrev.
    - exfalso. apply Hx.
      rewrite <- (string_of_list_ascii_of_string x),
              <- (rev_involutive (list_ascii_of_string x)), Hrev.
      reflexivity.
    - simpl. rewrite <- forallb_rev, Hrev in Hplain. simpl in Hplain.
      apply andb_true_iff in Hplain as [Hc _]. apply negb_true_iff. exact Hc. }
  unfold Os.join. rewrite Hstart.
  destruct (String.eqb cur "" || Os.endswith_sep cur); [apply Hend|].
  rewrite <- string_app_assoc. apply Hend.
Qed.

End PathFacts.

(* ===================================================================== *)
(** ** Moving around in the Tk window *)
(* ===================================================================== *)

Section TkMoves.
Import Eff.
Variable fs : Os.filesystem.

Lemma tk_go_up_stay self :
  Os.dirname (Tk.current_path self) = Tk.current_path self ->
  Tk.go_up fs self = (Ok tt, self).
Proof.
  intros Htop. unfold Tk.go_up, bind, get_state, ret. simpl.
  rewrite Htop, String.eqb_refl. reflexivity.
Qed.

Lemma tk_go_up_move self :
  Os.dirname (Tk.current_path self) <> Tk.current_path self ->
  Tk.go_up fs self
  = Tk.refresh_file_list fs
      (Tk.set_current_path (Os.dirname (Tk.current_path self)) self).
Proof.
  intros Hup. unfold Tk.go_up, bind, get_state, modify. simpl.
  apply String.eqb_neq in Hup. rewrite Hup. reflexivity.
Qed.

Lemma tk_go_up_path self :
  Tk.current_path (snd (Tk.go_up fs self)) = Os.dirname (Tk.current_path self).
Proof.
  destruct (String.eqb_spec (Os.dirname (Tk.current_path self))
              (Tk.current_path self)) as [Htop|Hup].
  - rewrite (tk_go_up_stay self Htop). simpl. symmetry. exact Htop.
  - rewrite (tk_go_up_move self Hup), refresh_current_path. reflexivity.
Qed.

(** What a listing shows and how it ends only depends on the current
    path: the rows and the label it finds are replaced. *)
Lemma refresh_view_of_path a b :
  Tk.current_path a = Tk.current_path b ->
  fst (Tk.refresh_file_list fs a) = fst (Tk.refresh_file_list fs b) /\
  Tk.tree (snd (Tk.refresh_file_list fs a))
  = Tk.tree (snd (Tk.refresh_file_list fs b)) /\
  Tk.path_label (snd (Tk.refresh_file_list fs a))
  = Tk.path_label (snd (Tk.refresh_file_list fs b)).
Proof.
  intros Hcur.
  destruct (Os.listdir fs (Tk.current_path a)) as [entries|e] eqn:Hl.
  - unfold Os.listdir in Hl.
    destruct (fs (Tk.current_path a)) as [[sz [] ents| | |blocked]|] eqn:Hfs;
      try discriminate.
    rewrite (refresh_readable fs a sz ents Hfs).
    rewrite Hcur in Hfs. rewrite (refresh_readable fs b sz ents Hfs).
    simpl. rewrite Hcur. repeat split; reflexivity.
  - rewrite (refresh_refused fs a e Hl).
    rewrite Hcur in Hl. rewrite (refresh_refused fs b e Hl).
    destruct (isinstance_PermissionError e); simpl; rewrite Hcur;
      repeat split; reflexivity.
Qed.

Lemma refresh_path_label self :
  Tk.path_label (snd (Tk.refresh_file_list fs self)) = Tk.current_path self.
Proof.
  destruct (Os.listdir fs (Tk.current_path self)) as [entries|e] eqn:Hl.
  - unfold Os.listdir in Hl.
    destruct (fs (Tk.current_path self)) as [[sz [] ents| | |blocked]|] eqn:Hfs;
      try discriminate.
    rewrite (refresh_readable fs self sz ents Hfs). reflexivity.
  - rewrite (refresh_refused fs self e Hl).
    destruct (isinstance_PermissionError e); reflexivity.
Qed.

Lemma ups_at_top n : forall self,
  Os.dirname (Tk.current_path self) = Tk.current_path self ->
  ups fs n self = self.
Proof.
  induction n as [|n IH]; intros self Htop; simpl; [reflexivity|].
  rewrite (tk_go_up_stay self Htop). simpl. apply IH. exact Htop.
Qed.

Lemma ups_prefix n : forall self,
  exists t,
    list_ascii_of_string (Tk.current_path self)
    = list_ascii_of_string (Tk.current_path (ups fs n self)) ++ t.
Proof.
  induction n as [|n IH]; intros self; simpl.
  - exists []. rewrite app_nil_r. reflexivity.
  - destruct (IH (snd (Tk.go_up fs self))) as [t Ht].
    rewrite tk_go_up_path in Ht.
    destruct (dirname_prefix (Tk.current_path self)) as [t' Ht'].
    exists (t ++ t'). rewrite Ht', Ht, <- app_assoc. reflexivity.
Qed.

End TkMoves.

(** X4.  The Up button of the Tk window runs out: after as many clicks
    as the current path has characters (or more), whatever the listings
    on the way end with, the window is at a path that is its own parent
    and a beginning of the path it started from, and a further click
    changes nothing. *)
Theorem up_reaches_the_top :
  forall fs self n,
    (String.length (Tk.current_path self) <= n)%nat ->
    Os.dirname (Tk.current_path (ups fs n self))
    = Tk.current_path (ups fs n self) /\
    Tk.go_up fs (ups fs n self) = (Ok tt, ups fs n self) /\
    exists rest,
      list_ascii_of_string (Tk.current_path self)
      = list_ascii_of_string (Tk.current_path (ups fs n self)) ++ rest.
Proof.
  intros fs self n Hlen.
  assert (Os.dirname (Tk.current_path (ups fs n self))
          = Tk.current_path (ups fs n self)) as Htop.
  { revert self Hlen. induction n as [|n IH]; intros self Hlen.
    - simpl. destruct (Tk.current_path self); [reflexivity|].
      simpl in Hlen. lia.
    - simpl.
      destruct (String.eqb_spec (Os.dirname (Tk.current_path self))
                  (Tk.current_path self)) as [Hstay|Hup].
      + rewrite (tk_go_up_stay fs self Hstay). simpl.
        rewrite (ups_at_top fs n self Hstay). exact Hstay.
      + apply IH. rewrite tk_go_up_path.
        pose proof (dirname_shorter _ Hup). lia. }
  split; [exact Htop|]. split; [apply tk_go_up_stay; exact Htop|].
  apply ups_prefix.
Qed.

Lemma up_reaches_the_top_witness :
  Os.dirname (Tk.current_path (ups scenario_fs 11 (tk_start "/d/a_folder")))
  = Tk.current_path (ups scenario_fs 11 (tk_start "/d/a_folder")) /\
  Tk.go_up scenario_fs (ups scenario_fs 11 (tk_start "/d/a_folder"))
  = (Ok tt, ups scenario_fs 11 (tk_start "/d/a_folder")) /\
  exists rest,
    list_ascii_of_string "/d/a_folder"
    = list_ascii_of_string
        (Tk.current_path (ups scenario_fs 11 (tk_start "/d/a_folder"))) ++ rest.
Proof.
  apply (up_reaches_the_top scenario_fs (tk_start "/d/a_folder") 11).
  simpl. lia.
Defined.

Example up_from_a_folder :
  Tk.current_path (ups scenario_fs 2 (tk_start "/d/a_folder")) = "/" /\
  Tk.current_path (ups scenario_fs 3 (tk_start "d/a_folder")) = "".
Proof. split; vm_compute; reflexivity. Qed.

(** X5.  Refreshing replaces what the window shows: the rows, the label
    and the way the listing ends are those of the current path, whatever
    rows the tree held before; so a second refresh shows exactly what the
    first one did, with no row added twice. *)
Theorem refresh_replaces_rows :
  forall fs self,
    (forall rows,
       Tk.tree (snd (Tk.refresh_file_list fs (Tk.set_tree rows self)))
       = Tk.tree (snd (Tk.refresh_file_list fs self))) /\
    fst (Tk.refresh_file_list fs (snd (Tk.refresh_file_list fs self)))
    = fst (Tk.refresh_file_list fs self) /\
    Tk.tree (snd (Tk.refresh_file_list fs (snd (Tk.refresh_file_list fs self))))
    = Tk.tree (snd (Tk.refresh_file_list fs self)) /\
    Tk.path_label
      (snd (Tk.refresh_file_list fs (snd (Tk.refresh_file_list fs self))))
    = Tk.current_path self.
Proof.
  intros fs self. split.
  - intros rows.
    apply (refresh_view_of_path fs (Tk.set_tree rows self) self). reflexivity.
  - destruct (refresh_view_of_path fs
                (snd (Tk.refresh_file_list fs self)) self
                (refresh_current_path fs self)) as (Hend & Htree & Hlabel).
    split; [exact Hend|]. split; [exact Htree|].
    rewrite Hlabel. apply refresh_path_label.
Qed.

(* ===================================================================== *)
(** ** Double clicks in the Tk window *)
(* ===================================================================== *)

Section TkClicks.
Import Eff.
Variable fs : Os.filesystem.
Variable host : Desk.Host.

(** [open_file] always returns: it records the attempt, and a launcher
    that raises leaves one error dialog in the log of the window. *)
Lemma open_file_run filepath self :
  Desk.open_file host filepath self
  = (Ok tt,
     {| Desk.window :=
          match launch_answer host filepath with
          | Ok _ => Desk.window self
          | Raise e =>
              Tk.emit (Tk.Showerror "Error"
                         ("Could not open file: " ++ Desk.describe host e))
                (Desk.window self)
          end;
        Desk.launched := Desk.launched self ++ [launch_for host filepath] |}).
Proof.
  unfold Desk.open_file, launch_answer, launch_for, Desk.on_window,
    try_except, bind, modify, call, zoom.
  destruct (String.eqb (Desk.system host) "Darwin"); simpl.
  - destruct (Desk.subprocess_call host "open" filepath) as [[]|e]; reflexivity.
  - destruct (String.eqb (Desk.system host) "Windows"); simpl.
    + destruct (Desk.startfile host filepath) as [[]|e]; reflexivity.
    + destruct (Desk.subprocess_call host "xdg-open" filepath) as [[]|e];
        reflexivity.
Qed.

Lemma double_click_folder row rest self :
  Os.isdir fs (Os.join (Tk.current_path (Desk.window self)) (row_name row))
  = true ->
  Desk.on_double_click fs host (row :: rest) self
  = (Desk.Finished
       (fst (Tk.refresh_file_list fs
               (Tk.set_current_path
                  (Os.join (Tk.current_path (Desk.window self)) (row_name row))
                  (Desk.window self)))),
     Desk.set_window
       (snd (Tk.refresh_file_list fs
               (Tk.set_current_path
                  (Os.join (Tk.current_path (Desk.window self)) (row_name row))
                  (Desk.window self))))
       self).
Proof.
  intros Hdir. unfold Desk.on_double_click. fold (row_name row).
  rewrite Hdir. unfold Desk.on_window, zoom, bind, modify. simpl.
  destruct (Tk.refresh_file_list fs _) as [r w]. reflexivity.
Qed.

Lemma double_click_file row rest self :
  Os.isdir fs (Os.join (Tk.current_path (Desk.window self)) (row_name row))
  = false ->
  Desk.on_double_click fs host (row :: rest) self
  = (Desk.Finished (Ok tt),
     snd (Desk.open_file host
            (Os.join (Tk.current_path (Desk.window self)) (row_name row))
            self)).
Proof.
  intros Hfile. unfold Desk.on_double_click. fold (row_name row).
  rewrite Hfile, open_file_run. reflexivity.
Qed.

Lemma open_file_current_path filepath self :
  Tk.current_path (Desk.window (snd (Desk.open_file host filepath self)))
  = Tk.current_path (Desk.window self).
Proof.
  rewrite open_file_run. simpl.
  destruct (launch_answer host filepath); reflexivity.
Qed.

Lemma join_longer cur x :
  plain_name x -> Os.join cur x <> cur.
Proof.
  intros Hp Heq. pose proof (plain_name_start x Hp) as Hstart.
  destruct Hp as [Hx _].
  apply (f_equal (fun s => List.length (list_ascii_of_string s))) in Heq.
  rewrite (join_chars cur x Hstart) in Heq.
  assert (0 < List.length (list_ascii_of_string x))%nat.
  { destruct x; [congruence|simpl; lia]. }
  destruct (String.eqb cur "" || Os.endswith_sep cur);
    rewrite ?List.length_app in Heq; simpl in Heq; lia.
Qed.

End TkClicks.

(** X6.  Into a folder and back: a double click on the row of a folder
    moves the Tk window to the folder's path, and the Up button then
    brings it back to the path it came from, with the rows, the label
    and the ending a refresh there would have given.  The path it came
    from has to be in normal form and the row's name a plain name. *)
Theorem enter_then_up :
  forall fs host row rest self,
    normal_path (Tk.current_path (Desk.window self)) ->
    plain_name (row_name row) ->
    Os.isdir fs (Os.join (Tk.current_path (Desk.window self)) (row_name row))
    = true ->
    let inside := snd (Desk.on_double_click fs host (row :: rest) self) in
    let back := Tk.go_up fs (Desk.window inside) in
    Tk.current_path (Desk.window inside)
    = Os.join (Tk.current_path (Desk.window self)) (row_name row) /\
    Desk.launched inside = Desk.launched self /\
    Tk.current_path (snd back) = Tk.current_path (Desk.window self) /\
    fst back = fst (Tk.refresh_file_list fs (Desk.window self)) /\
    Tk.tree (snd back)
    = Tk.tree (snd (Tk.refresh_file_list fs (Desk.window self))) /\
    Tk.path_label (snd back) = Tk.current_path (Desk.window self).
Proof.
  intros fs host row rest self Hnormal Hplain Hdir inside back.
  subst back inside.
  rewrite (double_click_folder fs host row rest self Hdir). simpl.
  set (cur := Tk.current_path (Desk.window self)) in *.
  set (w1 := snd (Tk.refresh_file_list fs
                    (Tk.set_current_path (Os.join cur (row_name row))
                       (Desk.window self)))).
  assert (Tk.current_path w1 = Os.join cur (row_name row)) as Hin
    by (unfold w1; rewrite refresh_current_path; reflexivity).
  split; [exact Hin|]. split; [reflexivity|].
  assert (Os.dirname (Tk.current_path w1) = cur) as Hparent
    by (rewrite Hin; apply dirname_join; assumption).
  assert (Os.dirname (Tk.current_path w1) <> Tk.current_path w1) as Hup.
  { rewrite Hparent, Hin. intros Heq. symmetry in Heq. revert Heq.
    apply join_longer. exact Hplain. }
  rewrite (tk_go_up_move fs w1 Hup), Hparent.
  split; [apply refresh_current_path|].
  destruct (refresh_view_of_path fs (Tk.set_current_path cur w1)
              (Desk.window self) eq_refl) as (Hend & Htree & Hlabel).
  split; [exact Hend|]. split; [exact Htree|].
  rewrite Hlabel. apply refresh_path_label.
Qed.

Lemma enter_then_up_witness :
  let self := desk_start "/d" in
  let inside :=
    snd (Desk.on_double_click scenario_fs bare_host
           [("a_folder", "", "Folder")] self) in
  let back := Tk.go_up scenario_fs (Desk.window inside) in
  Tk.current_path (Desk.window inside) = Os.join "/d" "a_folder" /\
  Desk.launched inside = [] /\
  Tk.current_path (snd back) = "/d" /\
  fst back = fst (Tk.refresh_file_list scenario_fs (tk_start "/d")) /\
  Tk.tree (snd back)
  = Tk.tree (snd (Tk.refresh_file_list scenario_fs (tk_start "/d"))) /\
  Tk.path_label (snd back) = "/d".
Proof.
  apply (enter_then_up scenario_fs bare_host ("a_folder", "", "Folder") []
           (desk_start "/d")).
  - left. reflexivity.
  - split; [discriminate|reflexivity].
  - reflexivity.
Defined.

(** X7.  The current path of the Tk window keeps its normal form (no
    slash at the end, unless it is nothing but slashes): after the Up
    button it has that form whatever it was before, and a double click
    keeps the form when the selected rows carry plain names, as the
    rows of a listing do. *)
Theorem current_path_stays_normal :
  (forall fs self, normal_path (Tk.current_path (snd (Tk.go_up fs self)))) /\
  (forall fs host selection self,
     (forall row, In row selection -> plain_name (row_name row)) ->
     normal_path (Tk.current_path (Desk.window self)) ->
     normal_path
       (Tk.current_path
          (Desk.window (snd (Desk.on_double_click fs host selection self))))).
Proof.
  split.
  - intros fs self. rewrite tk_go_up_path. apply dirname_normal.
  - intros fs host selection self Hplain Hnormal.
    destruct selection as [|row rest]; [exact Hnormal|].
    destruct (Os.isdir fs
                (Os.join (Tk.current_path (Desk.window self)) (row_name row)))
      eqn:Hdir.
    + rewrite (double_click_folder fs host row rest self Hdir). simpl.
      rewrite refresh_current_path. simpl.
      apply join_normal. apply Hplain. left. reflexivity.
    + rewrite (double_click_file fs host row rest self Hdir). simpl.
      rewrite open_file_current_path. exact Hnormal.
Qed.

Lemma current_path_stays_normal_witness :
  normal_path
    (Tk.current_path
       (Desk.window
          (snd (Desk.on_double_click scenario_fs bare_host
                  [("a_folder", "", "Folder")] (desk_start "/d"))))).
Proof.
  apply (proj2 current_path_stays_normal scenario_fs bare_host
           [("a_folder", "", "Folder")] (desk_start "/d")).
  - intros row [<-|[]]. split; [discriminate|reflexivity].
  - left. reflexivity.
Defined.

(** X8.  A double click on the row of something that is no directory
    never moves the Tk window and never raises: it makes one attempt to
    start the default application for the entry's path (by [open],
    [os.startfile] or [xdg-open], after the platform), and when that
    attempt raises, the only trace is one error dialog.  A double click
    with nothing selected ends with [IndexError] and changes nothing. *)
Theorem double_click_on_a_file :
  (forall fs host self,
     Desk.on_double_click fs host [] self = (Desk.IndexError, self)) /\
  (forall fs host row rest self,
     Os.isdir fs (Os.join (Tk.current_path (Desk.window self)) (row_name row))
     = false ->
     let full_path :=
       Os.join (Tk.current_path (Desk.window self)) (row_name row) in
     let after := snd (Desk.on_double_click fs host (row :: rest) self) in
     fst (Desk.on_double_click fs host (row :: rest) self)
     = Desk.Finished (Ok tt) /\
     Desk.launched after = Desk.launched self ++ [launch_for host full_path] /\
     Tk.current_path (Desk.window after) = Tk.current_path (Desk.window self) /\
     Tk.path_label (Desk.window after) = Tk.path_label (Desk.window self) /\
     Tk.tree (Desk.window after) = Tk.tree (Desk.window self) /\
     Tk.log (Desk.window after)
     = Tk.log (Desk.window self) ++
       match launch_answer host full_path with
       | Ok _ => []
       | Raise e =>
           [Tk.Showerror "Error"
              ("Could not open file: " ++ Desk.describe host e)]
       end).
Proof.
  split; [reflexivity|].
  intros fs host row rest self Hfile full_path after. subst after full_path.
  rewrite (double_click_file fs host row rest self Hfile), open_file_run.
  simpl.
  destruct (launch_answer host _); simpl; rewrite ?app_nil_r;
    repeat split; reflexivity.
Qed.

Lemma double_click_on_a_file_witness :
  let after :=
    snd (Desk.on_double_click scenario_fs bare_host
           [("A.txt", "0.0 KB", "File")] (desk_start "/d")) in
  fst (Desk.on_double_click scenario_fs bare_host
         [("A.txt", "0.0 KB", "File")] (desk_start "/d"))
  = Desk.Finished (Ok tt) /\
  Desk.launched after = [Desk.Subprocess "xdg-open" "/d/A.txt"] /\
  Tk.current_path (Desk.window after) = "/d" /\
  Tk.path_label (Desk.window after) = "/d" /\
  Tk.tree (Desk.window after) = [] /\
  Tk.log (Desk.window after)
  = [Tk.Showerror "Error"
       "Could not open file: No such file or directory: 'xdg-open'"].
Proof.
  apply (proj2 double_click_on_a_file scenario_fs bare_host
           ("A.txt", "0.0 KB", "File") [] (desk_start "/d")).
  reflexivity.
Defined.

(* ===================================================================== *)
(** ** Moving around in the Qt [ModernFileManager] *)
(* ===================================================================== *)

Section QtMoves.
Import Eff.

(** What a listing leaves behind, in every case: it returns, keeps the
    current path, and logs the directory read, followed by the warning
    when the directory could not be listed or a child could not be
    examined. *)
Lemma populate_summary fs env theme_has path self :
  exists self',
    Qt.populate_list fs env theme_has path self = (Ok tt, self') /\
    Qt.current_path self' = Qt.current_path self /\
    match Os.listdir fs (Pathlib.str (Pathlib.parse path)) with
    | Ok names =>
        (can_examine fs (Pathlib.parse path) names ->
         Qt.log self'
         = Qt.log self ++ [Qt.Listdir (Pathlib.str (Pathlib.parse path))] /\
         List.length (Qt.list_model self') = List.length names) /\
        (forall x e,
           In x names ->
           Pathlib.is_dir fs (Pathlib.child (Pathlib.parse path) x) = Raise e ->
           exists e',
             Qt.log self'
             = Qt.log self ++
               [Qt.Listdir (Pathlib.str (Pathlib.parse path));
                Qt.Warning "Error" "Could not list directory: " e'] /\
             Qt.list_model self' = [])
    | Raise e =>
        Qt.log self'
        = Qt.log self ++
          [Qt.Listdir (Pathlib.str (Pathlib.parse path));
           Qt.Warning "Error" "Could not list directory: " e] /\
        Qt.list_model self' = []
    end /\
    exists more,
      Qt.log self'
      = Qt.log self ++ Qt.Listdir (Pathlib.str (Pathlib.parse path)) :: more.
Proof.
  destruct (Os.listdir fs (Pathlib.str (Pathlib.parse path)))
    as [names|e] eqn:Hdir.
  - destruct (sorted tuple_lt (Qt.sort_key fs)
                (List.map (Pathlib.child (Pathlib.parse path)) names))
      as [entries|e] eqn:Hsort.
    + pose proof (sorted_entries_examined fs _ entries Hsort) as Hdirs.
      rewrite (populate_is_loop fs theme_has env path self names entries
                 Hdir Hsort).
      match goal with |- context [for_each entries _ ?s0] =>
        destruct (for_each_items fs theme_has env entries s0 Hdirs)
          as (s1 & Hrun & Hlist & _ & Hlog & Hcur & _) end.
      exists s1. split; [exact Hrun|]. split; [exact Hcur|].
      split; [|exists []; exact Hlog].
      split.
      * intros _. split; [exact Hlog|].
        rewrite Hlist. simpl. rewrite List.length_map.
        rewrite (Permutation_length (sorted_Permutation _ _ _ _ Hsort)).
        apply List.length_map.
      * intros x e Hx Hraise. exfalso.
        destruct (Hdirs (Pathlib.child (Pathlib.parse path) x)) as (d & Hd);
          [|congruence].
        eapply Permutation_in;
          [symmetry; apply (sorted_Permutation _ _ _ _ Hsort)|].
        apply List.in_map. exact Hx.
    + rewrite (populate_unexamined fs env theme_has path self names e
                 Hdir Hsort).
      eexists. split; [reflexivity|]. split; [reflexivity|].
      split; [|eexists; reflexivity].
      split.
      * intros Hex. exfalso.
        rewrite (sorted_children fs _ names Hex) in Hsort. discriminate Hsort.
      * intros x e' Hx Hraise. exists e. split; reflexivity.
  - rewrite (populate_refused fs env theme_has path self e Hdir).
    eexists. split; [reflexivity|]. simpl.
    split; [reflexivity|]. split; [split; reflexivity|].
    eexists; reflexivity.
Qed.

(** [change_directory] commits to the path before it lists it. *)
Lemma change_directory_run w path self :
  exists self',
    QtNav.change_directory w path self = (Ok tt, self') /\
    Qt.current_path (QtNav.manager self') = path /\
    QtNav.address_bar self' = path /\
    QtNav.notices self' = QtNav.notices self /\
    match Os.listdir (QtNav.fs w) (Pathlib.str (Pathlib.parse path)) with
    | Ok names =>
        (can_examine (QtNav.fs w) (Pathlib.parse path) names ->
         Qt.log (QtNav.manager self')
         = Qt.log (QtNav.manager self) ++
           [Qt.Listdir (Pathlib.str (Pathlib.parse path))] /\
         List.length (Qt.list_model (QtNav.manager self'))
         = List.length names) /\
        (forall x e,
           In x names ->
           Pathlib.is_dir (QtNav.fs w) (Pathlib.child (Pathlib.parse path) x)
           = Raise e ->
           exists e',
             Qt.log (QtNav.manager self')
             = Qt.log (QtNav.manager self) ++
               [Qt.Listdir (Pathlib.str (Pathlib.parse path));
                Qt.Warning "Error" "Could not list directory: " e'] /\
             Qt.list_model (QtNav.manager self') = [])
    | Raise e =>
        Qt.log (QtNav.manager self')
        = Qt.log (QtNav.manager self) ++
          [Qt.Listdir (Pathlib.str (Pathlib.parse path));
           Qt.Warning "Error" "Could not list directory: " e] /\
        Qt.list_model (QtNav.manager self') = []
    end /\
    exists more,
      Qt.log (QtNav.manager self')
      = Qt.log (QtNav.manager self) ++
        Qt.Listdir (Pathlib.str (Pathlib.parse path)) :: more.
Proof.
  unfold QtNav.change_directory, QtNav.populate_list, bind, modify, zoom, ret.
  simpl.
  match goal with |- context [Qt.populate_list ?f ?e ?t path ?s0] =>
    destruct (populate_summary f e t path s0)
      as (m & Hrun & Hcur & Hsum & Hmore) end.
  rewrite Hrun. simpl in Hcur, Hsum, Hmore.
  destruct (QtNav.index_valid w path); eexists; (split; [reflexivity|]);
    simpl; repeat split; try assumption; try reflexivity.
Qed.

End QtMoves.

(** X9.  The Up button of the Qt [ModernFileManager] has no test for the
    root: every click returns normally, sets the current path and the
    address bar to the parent path, and reads that directory, also when
    the parent is the path itself (at ["/"] it lists ["/"] again).  A
    parent whose children can be examined is shown with one item for
    each child; a parent that cannot be listed, or that has a child on
    which [is_dir] raises, still becomes the current path, with an empty
    list and one warning. *)
Theorem qt_up_always_lists :
  forall w self,
    let parent :=
      Pathlib.str
        (Pathlib.parent (Pathlib.parse (Qt.current_path (QtNav.manager self)))) in
    exists self',
      QtNav.go_up w self = (Ok tt, self') /\
      Qt.current_path (QtNav.manager self') = parent /\
      QtNav.address_bar self' = parent /\
      QtNav.notices self' = QtNav.notices self /\
      match Os.listdir (QtNav.fs w) (Pathlib.str (Pathlib.parse parent)) with
      | Ok names =>
          (can_examine (QtNav.fs w) (Pathlib.parse parent) names ->
           Qt.log (QtNav.manager self')
           = Qt.log (QtNav.manager self) ++
             [Qt.Listdir (Pathlib.str (Pathlib.parse parent))] /\
           List.length (Qt.list_model (QtNav.manager self'))
           = List.length names) /\
          (forall x e,
             In x names ->
             Pathlib.is_dir (QtNav.fs w)
               (Pathlib.child (Pathlib.parse parent) x) = Raise e ->
             exists e',
               Qt.log (QtNav.manager self')
               = Qt.log (QtNav.manager self) ++
                 [Qt.Listdir (Pathlib.str (Pathlib.parse parent));
                  Qt.Warning "Error" "Could not list directory: " e'] /\
               Qt.list_model (QtNav.manager self') = [])
      | Raise e =>
          Qt.log (QtNav.manager self')
          = Qt.log (QtNav.manager self) ++
            [Qt.Listdir (Pathlib.str (Pathlib.parse parent));
             Qt.Warning "Error" "Could not list directory: " e] /\
          Qt.list_model (QtNav.manager self') = []
      end.
Proof.
  intros w self parent. subst parent.
  unfold QtNav.go_up, Eff.bind, Eff.get_state. simpl.
  destruct (change_directory_run w
              (Pathlib.str
                 (Pathlib.parent
                    (Pathlib.parse (Qt.current_path (QtNav.manager self)))))
              self)
    as (self' & Hrun & Hcur & Hbar & Hnotes & Hsum & _).
  exists self'. repeat (split; [assumption|]). exact Hsum.
Qed.

Example qt_up_at_the_root :
  let after := snd (QtNav.go_up scenario_world (nav_start "/")) in
  Qt.current_path (QtNav.manager after) = "/" /\
  Qt.log (QtNav.manager after) = [Qt.Listdir "/"] /\
  List.map Qt.text (Qt.list_model (QtNav.manager after)) = ["d"].
Proof. vm_compute. repeat split; reflexivity. Qed.

(** Up into a directory that can be read but not searched. *)
Example qt_up_into_an_unsearchable_directory :
  let w := {| QtNav.fs := unsearchable_fs; QtNav.images := no_pillow;
              QtNav.theme_has := fun _ => false;
              QtNav.index_valid := fun _ => true |} in
  let after := snd (QtNav.go_up w (nav_start "/shut/sub")) in
  Qt.current_path (QtNav.manager after) = "/shut" /\
  Qt.log (QtNav.manager after)
  = [Qt.Listdir "/shut";
     Qt.Warning "Error" "Could not list directory: " PermissionError] /\
  Qt.list_model (QtNav.manager after) = [].
Proof. vm_compute. repeat split; reflexivity. Qed.

(** X10.  The address bar of the Qt [ModernFileManager] only leads to
    directories.  The text is stripped of white space first; when what
    is left is no directory, the window stays where it is (same path,
    same list, same cache, nothing read) and shows one warning with the
    stripped text; when it is a directory, it becomes the current path
    and the text of the address bar, and is listed. *)
Theorem address_bar_leads_to_directories :
  forall w self,
    let path := PyStr.strip (QtNav.address_bar self) in
    exists self',
      QtNav.on_address_entered w self = (Ok tt, self') /\
      (Os.isdir (QtNav.fs w) path = false ->
       QtNav.manager self' = QtNav.manager self /\
       QtNav.address_bar self' = QtNav.address_bar self /\
       QtNav.notices self'
       = QtNav.notices self ++
         [QtNav.Warning "Path error" ("Path not found: " ++ path)]) /\
      (Os.isdir (QtNav.fs w) path = true ->
       Qt.current_path (QtNav.manager self') = path /\
       QtNav.address_bar self' = path /\
       QtNav.notices self' = QtNav.notices self /\
       exists more,
         Qt.log (QtNav.manager self')
         = Qt.log (QtNav.manager self) ++
           Qt.Listdir (Pathlib.str (Pathlib.parse path)) :: more).
Proof.
  intros w self path. subst path.
  unfold QtNav.on_address_entered, Eff.bind, Eff.get_state. simpl.
  destruct (Os.isdir (QtNav.fs w) (PyStr.strip (QtNav.address_bar self)))
    eqn:Hdir.
  - destruct (change_directory_run w (PyStr.strip (QtNav.address_bar self)) self)
      as (self' & Hrun & Hcur & Hbar & Hnotes & _ & Hmore).
    exists self'. split; [exact Hrun|]. split; [discriminate|].
    intros _. split; [exact Hcur|]. split; [exact Hbar|].
    split; [exact Hnotes|]. exact Hmore.
  - eexists. split; [reflexivity|]. split; [|discriminate].
    intros _. repeat split; reflexivity.
Qed.

Example address_with_spaces :
  let typed := QtNav.set_address_bar "  /d/a_folder  " (nav_start "/d") in
  let after := snd (QtNav.on_address_entered scenario_world typed) in
  Qt.current_path (QtNav.manager after) = "/d/a_folder" /\
  QtNav.address_bar after = "/d/a_folder" /\
  List.map Qt.text (Qt.list_model (QtNav.manager after)) = ["inner.txt"].
Proof. vm_compute. repeat split; reflexivity. Qed.

Lemma address_bar_leads_to_directories_witness :
  let typed := QtNav.set_address_bar " /d/B.txt " (nav_start "/d") in
  let there := QtNav.set_address_bar "/d/a_folder " (nav_start "/d") in
  (exists self',
     QtNav.on_address_entered scenario_world typed = (Ok tt, self') /\
     QtNav.manager self' = QtNav.manager typed /\
     QtNav.address_bar self' = " /d/B.txt " /\
     QtNav.notices self'
     = [QtNav.Warning "Path error" "Path not found: /d/B.txt"]) /\
  (exists self',
     QtNav.on_address_entered scenario_world there = (Ok tt, self') /\
     Qt.current_path (QtNav.manager self') = "/d/a_folder" /\
     QtNav.address_bar self' = "/d/a_folder").
Proof.
  intros typed there. split.
  - destruct (address_bar_leads_to_directories scenario_world typed)
      as (self' & Hrun & Hno & _).
    exists self'. split; [exact Hrun|]. apply Hno. reflexivity.
  - destruct (address_bar_leads_to_directories scenario_world there)
      as (self' & Hrun & _ & Hyes).
    exists self'. split; [exact Hrun|].
    destruct (Hyes eq_refl) as (Hcur & Hbar & _). split; assumption.
Defined.

(* ===================================================================== *)
(** ** The handlers of the [ModernFileExplorer] *)
(* ===================================================================== *)

Section ExplorerHandlers.
Import Eff.
Variable fs : Os.filesystem.
Variable host : ExplorerNav.Host.

(** [update_status] with or without a message: it returns, and only the
    status label and the log change. *)
Lemma update_status_frame message self :
  fst (Explorer.update_status fs message self) = Ok tt /\
  Explorer.current_path (snd (Explorer.update_status fs message self))
  = Explorer.current_path self /\
  Explorer.address_bar (snd (Explorer.update_status fs message self))
  = Explorer.address_bar self /\
  Explorer.list_view_root (snd (Explorer.update_status fs message self))
  = Explorer.list_view_root self /\
  Explorer.tree_view_current (snd (Explorer.update_status fs message self))
  = Explorer.tree_view_current self.
Proof.
  destruct message as [[|c m]|].
  2:{ simpl. repeat split; reflexivity. }
  all: unfold Explorer.update_status, bind, get_state, try_except, call,
         modify; simpl;
       destruct (Os.listdir fs (Explorer.current_path self)); simpl;
       repeat split; reflexivity.
Qed.

Lemma show_directory_run path set_address set_tree self :
  fst (ExplorerNav.show_directory fs path set_address set_tree self) = Ok tt /\
  let e := ExplorerNav.explorer
             (snd (ExplorerNav.show_directory fs path set_address set_tree self))
  in
  Explorer.current_path e = path /\
  Explorer.list_view_root e = path /\
  Explorer.address_bar e
  = (if set_address then path
     else Explorer.address_bar (ExplorerNav.explorer self)) /\
  ExplorerNav.dialogs
    (snd (ExplorerNav.show_directory fs path set_address set_tree self))
  = ExplorerNav.dialogs self /\
  ExplorerNav.commands
    (snd (ExplorerNav.show_directory fs path set_address set_tree self))
  = ExplorerNav.commands self.
Proof.
  unfold ExplorerNav.show_directory, ExplorerNav.on_explorer, zoom, bind,
    modify, ret.
  destruct set_address, set_tree; cbv beta iota;
    match goal with |- context [Explorer.update_status fs None ?s] =>
      destruct (update_status_frame None s) as (Hret & Hcur & Hbar & Hroot & _);
      destruct (Explorer.update_status fs None s) as [r e] end;
    simpl in *; subst r; repeat split; assumption.
Qed.

Lemma explorer_go_up_run self :
  fst (Explorer.go_up fs self) = Ok tt /\
  (views_agree self -> views_agree (snd (Explorer.go_up fs self))).
Proof.
  unfold Explorer.go_up, bind, get_state, modify, ret. cbv beta iota.
  destruct (negb (String.eqb _ (Explorer.current_path self))); cbv beta iota;
    [|split; [reflexivity|auto]].
  match goal with |- context [Explorer.update_status fs None ?s] =>
    destruct (update_status_frame None s) as (Hret & Hcur & Hbar & Hroot & _);
    destruct (Explorer.update_status fs None s) as [r e] end.
  simpl in *. split; [exact Hret|]. intros _. split; congruence.
Qed.

(** Every handler returns, and leaves the address bar and the list view
    on the current path when it found them there. *)
Lemma handle_keeps_views a self :
  fst (ExplorerNav.handle fs host a self) = Ok tt /\
  (views_agree (ExplorerNav.explorer self) ->
   views_agree (ExplorerNav.explorer (snd (ExplorerNav.handle fs host a self)))).
Proof.
  destruct a as [path|path|typed| | | | |]; simpl.
  - unfold ExplorerNav.on_tree_clicked.
    destruct (Os.isdir fs path); [|split; [reflexivity|auto]].
    destruct (show_directory_run path true false self)
      as (Hret & Hcur & Hroot & Hbar & _).
    split; [exact Hret|]. intros _. split; congruence.
  - unfold ExplorerNav.on_item_double_clicked.
    destruct (Os.isdir fs path).
    + destruct (show_directory_run path true true self)
        as (Hret & Hcur & Hroot & Hbar & _).
      split; [exact Hret|]. intros _. split; congruence.
    + unfold try_except, bind, modify, call.
      destruct (String.eqb (ExplorerNav.platform host) "win32"); simpl.
      * destruct (ExplorerNav.startfile host path) as [[]|e]; simpl; auto.
      * destruct (String.eqb (ExplorerNav.platform host) "darwin"); simpl;
          destruct (ExplorerNav.os_system host _) as [[]|e]; simpl; auto.
  - unfold ExplorerNav.navigate_to_path, ExplorerNav.on_explorer, zoom, bind,
      get_state, modify. simpl.
    destruct (PyStr.exists_ fs typed && Os.isdir fs typed).
    + match goal with |- context [ExplorerNav.show_directory fs typed false true ?s] =>
        destruct (show_directory_run typed false true s)
          as (Hret & Hcur & Hroot & Hbar & _) end.
      split; [exact Hret|]. intros _. simpl in Hbar. split; congruence.
    + simpl. split; [reflexivity|]. intros [_ Hroot]. split; [reflexivity|].
      exact Hroot.
  - unfold ExplorerNav.go_up, ExplorerNav.on_explorer, zoom.
    destruct (explorer_go_up_run (ExplorerNav.explorer self)) as [Hret Hviews].
    destruct (Explorer.go_up fs (ExplorerNav.explorer self)) as [r e].
    simpl in *. split; [exact Hret|exact Hviews].
  - unfold ExplorerNav.go_home.
    destruct (show_directory_run (ExplorerNav.home host) true true self)
      as (Hret & Hcur & Hroot & Hbar & _).
    split; [exact Hret|]. intros _. split; congruence.
  - split; [reflexivity|auto].
  - split; [reflexivity|auto].
  - split; [reflexivity|auto].
Qed.

End ExplorerHandlers.

(** X11.  No handler of the [ModernFileExplorer] lets an exception out
    (tree and item clicks, the address bar, Up, Home, Back, Forward,
    Refresh), and through any session of them the address bar and the
    list view keep showing the current path: a rejected address is
    replaced by the current path, an accepted one becomes it. *)
Theorem explorer_views_follow :
  forall fs host actions self,
    (forall a s, fst (ExplorerNav.handle fs host a s) = Ok tt) /\
    (views_agree (ExplorerNav.explorer self) ->
     views_agree (ExplorerNav.explorer (ExplorerNav.session fs host actions self))).
Proof.
  intros fs host actions self.
  split; [intros a s; apply handle_keeps_views|].
  revert self. induction actions as [|a actions IH]; intros self Hviews;
    simpl; [exact Hviews|].
  apply IH. apply handle_keeps_views. exact Hviews.
Qed.

Lemma explorer_views_follow_witness :
  views_agree
    (ExplorerNav.explorer
       (ExplorerNav.session scenario_fs scenario_host
          [ExplorerNav.AddressEntered "/nowhere";
           ExplorerNav.ItemDoubleClicked "/d/a_folder";
           ExplorerNav.ItemDoubleClicked "/d/a_folder/inner.txt";
           ExplorerNav.Up; ExplorerNav.Back]
          (explorer_start "/d"))).
Proof.
  apply (proj2 (explorer_views_follow scenario_fs scenario_host
                  [ExplorerNav.AddressEntered "/nowhere";
                   ExplorerNav.ItemDoubleClicked "/d/a_folder";
                   ExplorerNav.ItemDoubleClicked "/d/a_folder/inner.txt";
                   ExplorerNav.Up; ExplorerNav.Back]
                  (explorer_start "/d"))).
  split; reflexivity.
Defined.

Example explorer_session :
  let after :=
    ExplorerNav.session scenario_fs scenario_host
      [ExplorerNav.AddressEntered "/nowhere";
       ExplorerNav.ItemDoubleClicked "/d/a_folder";
       ExplorerNav.ItemDoubleClicked "/d/a_folder/inner.txt"]
      (explorer_start "/d") in
  Explorer.current_path (ExplorerNav.explorer after) = "/d/a_folder" /\
  Explorer.status_label (ExplorerNav.explorer after)
  = Explorer.StatusCounts 0 1 "/d/a_folder" /\
  List.length (ExplorerNav.dialogs after) = 1%nat /\
  List.length (ExplorerNav.commands after) = 1%nat.
Proof. vm_compute. repeat split; reflexivity. Qed.

(** X12.  The status line of the [ModernFileExplorer] never fails and
    its two counts add up: for a current path that can be listed it
    shows the number of directory entries and of the others, neither
    negative, which together are the number of entries; for one that
    cannot, it shows the path alone.  One directory read is logged
    either way, and nothing else of the window changes. *)
Theorem status_counts_add_up :
  forall fs self,
    exists st,
      Explorer.update_status fs None self
      = (Ok tt,
         Explorer.set_status_label st
           (Explorer.emit (Explorer.Listdir (Explorer.current_path self)) self)) /\
      match Os.listdir fs (Explorer.current_path self) with
      | Ok items =>
          exists dirs files,
            st = Explorer.StatusCounts dirs files (Explorer.current_path self) /\
            (0 <= dirs)%Z /\ (0 <= files)%Z /\
            (dirs + files = Z.of_nat (List.length items))%Z /\
            dirs
            = Z.of_nat
                (List.length
                   (List.filter
                      (fun x =>
                         Os.isdir fs (Os.join (Explorer.current_path self) x))
                      items))
      | Raise _ => st = Explorer.StatusCurrent (Explorer.current_path self)
      end.
Proof.
  intros fs self.
  unfold Explorer.update_status, Eff.bind, Eff.get_state, Eff.try_except,
    Eff.call, Eff.modify. simpl.
  destruct (Os.listdir fs (Explorer.current_path self)) as [items|e].
  - eexists. split; [reflexivity|].
    eexists _, _. split; [reflexivity|].
    unfold Explorer.count_dirs.
    pose proof (List.filter_length_le
                  (fun x => Os.isdir fs (Os.join (Explorer.current_path self) x))
                  items).
    repeat split; lia.
  - eexists. split; reflexivity.
Qed.

(* ===================================================================== *)
(** ** Sizes in print *)
(* ===================================================================== *)

Section Rounding.
Local Open Scope N_scope.

Lemma round_half_even_bounds num den :
  0 < den ->
  num / den <= round_half_even num den <= num / den + 1.
Proof.
  intros Hden. unfold round_half_even. cbv zeta.
  destruct (2 * (num mod den) ?= den); [destruct (N.even (num / den))| |]; lia.
Qed.

Lemma round_half_even_exact k den :
  0 < den -> round_half_even (k * den) den = k.
Proof.
  intros Hden. unfold round_half_even. cbv zeta.
  rewrite N.Div0.mod_mul. rewrite N.div_mul by lia.
  assert ((2 * 0 ?= den) = Lt) as -> by (apply N.compare_lt_iff; lia).
  reflexivity.
Qed.

Lemma round_half_even_small num den :
  2 * num < den -> round_half_even num den = 0.
Proof.
  intros Hsmall. unfold round_half_even. cbv zeta.
  rewrite N.mod_small, N.div_small by lia.
  assert ((2 * num ?= den) = Lt) as -> by (apply N.compare_lt_iff; lia).
  reflexivity.
Qed.

(** Rounding only looks at the ratio. *)
Lemma round_half_even_scale c num den :
  0 < c -> round_half_even (c * num) (c * den) = round_half_even num den.
Proof.
  intros Hc. unfold round_half_even. cbv zeta.
  rewrite N.Div0.mul_mod_distr_l, N.Div0.div_mul_cancel_l by lia.
  replace (2 * (c * (num mod den))) with (c * (2 * (num mod den))) by lia.
  destruct (N.compare_spec (2 * (num mod den)) den) as [H|H|H].
  - rewrite H, N.compare_refl. reflexivity.
  - assert ((c * (2 * (num mod den)) ?= c * den) = Lt) as ->
      by (apply N.compare_lt_iff; nia).
    reflexivity.
  - assert ((c * (2 * (num mod den)) ?= c * den) = Gt) as ->
      by (apply N.compare_gt_iff; nia).
    reflexivity.
Qed.

Lemma size_small n : n < 2 ^ 53 <-> N.size n <= 53.
Proof.
  destruct (N.eq_dec n 0) as [->|Hn]; [simpl; split; intros; lia|].
  rewrite N.size_log2 by exact Hn.
  rewrite N.log2_lt_pow2 by lia. lia.
Qed.

Lemma float_of_int_small n : n < 2 ^ 53 -> float_of_int n = n.
Proof.
  intros Hn. unfold float_of_int.
  apply size_small, N.leb_le in Hn. rewrite Hn. reflexivity.
Qed.

Lemma size_mul_pow2 j k : 0 < k -> N.size (2 ^ j * k) = N.size k + j.
Proof.
  intros Hk.
  assert (0 < 2 ^ j) by (apply N.neq_0_lt_0, N.pow_nonzero; lia).
  rewrite !N.size_log2 by nia.
  rewrite (N.mul_comm (2 ^ j) k), N.log2_mul_pow2 by lia. lia.
Qed.

(** Multiplying by a power of two moves the exponent only. *)
Lemma float_of_int_scale j k : float_of_int (2 ^ j * k) = 2 ^ j * float_of_int k.
Proof.
  destruct (N.eq_dec k 0) as [->|Hk];
    [rewrite N.mul_0_r; change (float_of_int 0) with 0; lia|].
  assert (0 < 2 ^ j) as Hj by (apply N.neq_0_lt_0, N.pow_nonzero; lia).
  unfold float_of_int. rewrite size_mul_pow2 by lia.
  destruct (N.leb_spec (N.size k) 53) as [Hs|Hs].
  - destruct (N.leb_spec (N.size k + j) 53) as [Hs'|Hs']; [reflexivity|].
    cbv zeta.
    set (e := N.size k + j - 53).
    assert (2 ^ j = 2 ^ (j - e) * 2 ^ e) as Hsplit
      by (rewrite <- N.pow_add_r; f_equal; lia).
    assert (0 < 2 ^ e) by (apply N.neq_0_lt_0, N.pow_nonzero; lia).
    replace (2 ^ j * k) with ((2 ^ (j - e) * k) * 2 ^ e) at 1
      by (rewrite Hsplit; lia).
    rewrite round_half_even_exact by lia. rewrite Hsplit. lia.
  - destruct (N.leb_spec (N.size k + j) 53) as [Hs'|Hs']; [lia|].
    cbv zeta.
    replace (N.size k + j - 53) with (j + (N.size k - 53)) by lia.
    rewrite N.pow_add_r, round_half_even_scale by lia. lia.
Qed.

(** A float of 54 bits or more is at least [2^52]. *)
Lemma float_of_int_large n : 2 ^ 53 <= n -> 2 ^ 52 <= float_of_int n.
Proof.
  intros Hn. unfold float_of_int.
  assert (n <> 0) as Hn0 by (intros ->; simpl in Hn; lia).
  assert (53 < N.size n) as Hs.
  { destruct (N.le_gt_cases (N.size n) 53) as [H|H]; [|exact H].
    apply size_small in H. lia. }
  destruct (N.leb_spec (N.size n) 53) as [H|_]; [lia|]. cbv zeta.
  set (e := N.size n - 53).
  assert (0 < 2 ^ e) as He by (apply N.neq_0_lt_0, N.pow_nonzero; lia).
  assert (2 ^ 52 * 2 ^ e <= n) as Hlow.
  { rewrite <- N.pow_add_r.
    replace (52 + e) with (N.log2 n)
      by (subst e; rewrite N.size_log2 in * by exact Hn0; lia).
    apply N.log2_spec. lia. }
  pose proof (round_half_even_bounds n (2 ^ e) He) as [Hq _].
  assert (2 ^ 52 <= n / 2 ^ e) by (apply N.div_le_lower_bound; lia).
  nia.
Qed.

(** From 52 bytes on, the tenths of the kilobytes round to one at
    least. *)
Lemma tenths_from_52 m : 52 <= m -> 1 <= round_half_even (m * 10) 1024.
Proof.
  intros Hm.
  pose proof (round_half_even_bounds (m * 10) 1024 ltac:(lia)) as [Hq _].
  destruct (N.eq_dec (m * 10 / 1024) 0) as [Hz|Hnz].
  2:{ apply N.neq_0_lt_0 in Hnz.
      generalize dependent (round_half_even (m * 10) 1024). intros r Hq.
      generalize dependent (m * 10 / 1024). intros q Hq Hnz. lia. }
  unfold round_half_even. cbv zeta. rewrite Hz.
  apply N.div_small_iff in Hz; [|lia].
  rewrite N.mod_small by exact Hz.
  assert (1024 < 2 * (m * 10)) as Hgt by lia.
  apply N.compare_gt_iff in Hgt. rewrite Hgt. lia.
Qed.

(** A value between one and 1024 prints between [1.00] and [1024.00]. *)
Lemma hundredths_range n den :
  0 < den -> den <= n -> n < 1024 * den ->
  100 <= round_half_even (n * 100) den <= 102400.
Proof.
  intros Hden Hlo Hhi.
  pose proof (round_half_even_bounds (n * 100) den Hden) as [Hq1 Hq2].
  assert (100 <= n * 100 / den)
    by (apply N.div_le_lower_bound; lia).
  assert (n * 100 / den < 102400)
    by (apply N.Div0.div_lt_upper_bound; lia).
  lia.
Qed.

End Rounding.

(** X13.  The size column of the Tk listing: a file of a whole number
    of kilobytes (below [2^63] bytes, as every file is) prints as that
    number with [.0]; every file below 52 bytes, empty or not, prints as
    ["0.0 KB"], and from 52 bytes on the tenths are at least one. *)
Theorem kilobytes_in_print :
  (forall k, (1024 * k < 2 ^ 63)%N ->
     format_kb (1024 * k) = (decimal k ++ ".0 KB")%string) /\
  (forall n, (n <= 51)%N -> format_kb n = "0.0 KB") /\
  (forall n, (52 <= n)%N -> (1 <= tenths_kb n)%N).
Proof.
  split; [|split].
  - intros k Hk.
    assert (tenths_kb (1024 * k) = (k * 10)%N) as Htenths.
    { unfold tenths_kb.
      pose proof (float_of_int_scale 10 k) as Hscale.
      change (2 ^ 10)%N with 1024%N in Hscale. rewrite Hscale.
      rewrite float_of_int_small
        by (change (2 ^ 63)%N with (1024 * 2 ^ 53)%N in Hk; lia).
      replace (1024 * k * 10)%N with ((k * 10) * 1024)%N by lia.
      apply round_half_even_exact. lia. }
    unfold format_kb. rewrite Htenths. cbv zeta.
    rewrite N.div_mul by lia. rewrite N.Div0.mod_mul. reflexivity.
  - intros n Hn. unfold format_kb, tenths_kb.
    rewrite float_of_int_small by (simpl; lia).
    rewrite round_half_even_small by lia. reflexivity.
  - intros n Hn. unfold tenths_kb. apply tenths_from_52.
    destruct (N.lt_ge_cases n (2 ^ 53)) as [Hsmall|Hlarge].
    + rewrite float_of_int_small by exact Hsmall. exact Hn.
    + apply float_of_int_large in Hlarge. simpl in Hlarge. lia.
Qed.

Lemma kilobytes_in_print_witness :
  format_kb (1024 * 3) = "3.0 KB" /\
  format_kb 51 = "0.0 KB" /\ (1 <= tenths_kb 52)%N.
Proof.
  split; [|split].
  - apply (proj1 kilobytes_in_print 3%N). reflexivity.
  - apply (proj1 (proj2 kilobytes_in_print) 51%N). lia.
  - apply (proj2 (proj2 kilobytes_in_print) 52%N). lia.
Defined.

(** Beyond [2^53] bytes the quotient is the nearest float: half a
    kilobyte above [2^52] kilobytes is not seen. *)
Example kilobytes_of_a_huge_file :
  format_kb (2 ^ 62 + 512) = "4503599627370496.0 KB" /\
  format_kb (2 ^ 53 + 1) = "8796093022208.0 KB" /\
  format_kb 1536 = "1.5 KB" /\
  format_kb 1600 = "1.6 KB".
Proof. vm_compute. repeat split; reflexivity. Qed.

Section FormatSize.
Local Open Scope N_scope.

Lemma two_digits_of_hundreds n : ExplorerNav.two_digits (n * 100) = "00"%string.
Proof.
  unfold ExplorerNav.two_digits.
  replace (n * 100 / 10) with (n * 10)
    by (replace (n * 100) with (n * 10 * 10) by lia;
        rewrite N.div_mul by lia; reflexivity).
  rewrite N.Div0.mod_mul.
  replace ((n * 100) mod 10) with 0
    by (replace (n * 100) with (n * 10 * 10) by lia;
        rewrite N.Div0.mod_mul; reflexivity).
  reflexivity.
Qed.

Lemma format_size_step unit rest num den :
  ExplorerNav.format_size_from (unit :: rest) num den
  = if num <? 1024 * den
    then (ExplorerNav.format_2f num den ++ " " ++ unit)%string
    else ExplorerNav.format_size_from rest num (den * 1024).
Proof. reflexivity. Qed.

End FormatSize.

(** X14.  [format_size] picks the unit by powers of 1024 and prints two
    decimals: bytes below 1024 print as the number with [.00 B]; a size
    from [1024^k] up to but not including [1024^(k+1)] prints in the
    k-th unit (KB, MB, GB, TB) as a number from [1.00] to [1024.00], the
    upper end included because of rounding; everything from [1024^5] on
    (below [2^63], as every size is) prints in PB, as the float nearest
    to the byte count divided by [1024^5]. *)
Theorem format_size_units :
  forall n,
    ((n < 1024)%N ->
     ExplorerNav.format_size n = (decimal n ++ ".00 B")%string) /\
    (forall k unit,
       In (k, unit) [(1, "KB"); (2, "MB"); (3, "GB"); (4, "TB")]%N ->
       (1024 ^ k <= n < 1024 ^ (k + 1))%N ->
       ExplorerNav.format_size n
       = (ExplorerNav.format_2f n (1024 ^ k) ++ " " ++ unit)%string /\
       (100 <= round_half_even (n * 100) (1024 ^ k) <= 102400)%N) /\
    ((1024 ^ 5 <= n < 2 ^ 63)%N ->
     ExplorerNav.format_size n
     = (ExplorerNav.format_2f (float_of_int n) (1024 ^ 5) ++ " PB")%string /\
     (1024 ^ 5 <= float_of_int n)%N /\
     ((n < 2 ^ 53)%N -> float_of_int n = n)).
Proof.
  intros n. unfold ExplorerNav.format_size.
  assert (forall a b, (b <= a)%N -> (a <? b)%N = false) as Hge
    by (intros; apply N.ltb_ge; assumption).
  assert (forall a b, (a < b)%N -> (a <? b)%N = true) as Hlt
    by (intros; apply N.ltb_lt; assumption).
  split; [|split].
  - intros Hn. rewrite (Hlt n 1024%N Hn).
    unfold ExplorerNav.format_2f.
    assert (round_half_even (n * 100) 1 = (n * 100)%N) as ->
      by (rewrite <- (N.mul_1_r (n * 100)) at 1;
          apply round_half_even_exact; lia).
    rewrite two_digits_of_hundreds. rewrite N.div_mul by lia.
    rewrite !string_app_assoc. reflexivity.
  - intros k unit Hin [Hlo Hhi].
    assert (n < 2 ^ 53)%N as Hexact.
    { simpl in Hin.
      destruct Hin as [H|[H|[H|[H|[]]]]]; inversion H; subst k;
        simpl in Hhi; simpl; lia. }
    assert (1024 <= n)%N as Hkb.
    { simpl in Hin.
      destruct Hin as [H|[H|[H|[H|[]]]]]; inversion H; subst k;
        simpl in Hlo; lia. }
    rewrite (Hge n 1024%N Hkb), (float_of_int_small n Hexact).
    simpl in Hin.
    destruct Hin as [H|[H|[H|[H|[]]]]]; inversion H; subst k unit; clear H;
      change (1024 ^ (1 + 1))%N with (1024 * 1024 ^ 1)%N in Hhi;
      change (1024 ^ (2 + 1))%N with (1024 * 1024 ^ 2)%N in Hhi;
      change (1024 ^ (3 + 1))%N with (1024 * 1024 ^ 3)%N in Hhi;
      change (1024 ^ (4 + 1))%N with (1024 * 1024 ^ 4)%N in Hhi;
      (split; [|apply hundredths_range; [reflexivity|exact Hlo|exact Hhi]]).
    + rewrite format_size_step.
      change 1024%N with (1024 ^ 1)%N at 2 3.
      rewrite (Hlt n (1024 * 1024 ^ 1)%N) by exact Hhi. reflexivity.
    + rewrite format_size_step, (Hge n (1024 * 1024)%N) by (simpl in *; lia).
      rewrite format_size_step.
      change (1024 * 1024)%N with (1024 ^ 2)%N.
      rewrite (Hlt n (1024 * 1024 ^ 2)%N) by exact Hhi. reflexivity.
    + rewrite format_size_step, (Hge n (1024 * 1024)%N) by (simpl in *; lia).
      rewrite format_size_step, (Hge n (1024 * (1024 * 1024))%N)
        by (simpl in *; lia).
      rewrite format_size_step.
      change (1024 * 1024 * 1024)%N with (1024 ^ 3)%N.
      rewrite (Hlt n (1024 * 1024 ^ 3)%N) by exact Hhi. reflexivity.
    + rewrite format_size_step, (Hge n (1024 * 1024)%N) by (simpl in *; lia).
      rewrite format_size_step, (Hge n (1024 * (1024 * 1024))%N)
        by (simpl in *; lia).
      rewrite format_size_step, (Hge n (1024 * (1024 * 1024 * 1024))%N)
        by (simpl in *; lia).
      rewrite format_size_step.
      change (1024 * 1024 * 1024 * 1024)%N with (1024 ^ 4)%N.
      rewrite (Hlt n (1024 * 1024 ^ 4)%N) by exact Hhi. reflexivity.
  - intros [Hn _].
    assert (1024 ^ 5 <= float_of_int n)%N as Hfloat.
    { destruct (N.lt_ge_cases n (2 ^ 53)) as [Hsmall|Hlarge].
      - rewrite float_of_int_small by exact Hsmall. exact Hn.
      - apply float_of_int_large in Hlarge. simpl in *. lia. }
    split; [|split; [exact Hfloat|apply float_of_int_small]].
    rewrite (Hge n 1024%N) by (simpl in Hn; lia).
    generalize dependent (float_of_int n). intros m Hm.
    rewrite format_size_step, (Hge m (1024 * 1024)%N) by (simpl in *; lia).
    rewrite format_size_step, (Hge m (1024 * (1024 * 1024))%N)
      by (simpl in *; lia).
    rewrite format_size_step, (Hge m (1024 * (1024 * 1024 * 1024))%N)
      by (simpl in *; lia).
    rewrite format_size_step,
      (Hge m (1024 * (1024 * 1024 * 1024 * 1024))%N) by (simpl in *; lia).
    reflexivity.
Qed.

Lemma format_size_units_witness :
  ExplorerNav.format_size 1023 = (decimal 1023 ++ ".00 B")%string /\
  ExplorerNav.format_size 1048575
  = (ExplorerNav.format_2f 1048575 (1024 ^ 1) ++ " " ++ "KB")%string /\
  ExplorerNav.format_size (2 ^ 53 + 1)
  = (ExplorerNav.format_2f (float_of_int (2 ^ 53 + 1)) (1024 ^ 5) ++ " PB")%string.
Proof.
  split; [|split].
  - apply (proj1 (format_size_units 1023%N)). reflexivity.
  - apply (proj1 (proj2 (format_size_units 1048575%N)) 1%N "KB").
    + left. reflexivity.
    + split; [discriminate|reflexivity].
  - apply (proj2 (proj2 (format_size_units (2 ^ 53 + 1)%N))).
    split; [discriminate|reflexivity].
Defined.

Example sizes_in_print :
  ExplorerNav.format_size 0 = "0.00 B" /\
  ExplorerNav.format_size 1536 = "1.50 KB" /\
  ExplorerNav.format_size 1048575 = "1024.00 KB" /\
  ExplorerNav.format_size 1048576 = "1.00 MB" /\
  ExplorerNav.format_size 1234567890 = "1.15 GB" /\
  ExplorerNav.format_size 9147936743096321 = "8.12 PB" /\
  float_of_int 9147936743096321 = 9147936743096320%N.
Proof. vm_compute. repeat split; reflexivity. Qed.

(* ===================================================================== *)
(** ** Copy and paste in the Qt [ModernFileManager] *)
(* ===================================================================== *)

Section Clipboard.
Import Eff.
Variable sh : QtClip.Shell.
Variable images : Thumb.Env.
Variable theme_has : string -> bool.

(** One pass of the loop of [paste]: one call into [shutil] for the
    source, and a warning when it raises; the pass itself returns. *)
Local Ltac exists_with op :=
  eexists _, op; (split; [reflexivity|]); cbn [fst snd];
  match goal with H : QtClip.run _ _ _ = _ |- _ => rewrite ?H end;
  cbn -[Nat.leb]; rewrite ?List.length_app; cbn [List.length];
  repeat split; intros; try reflexivity; try discriminate; try congruence;
  try lia.

Lemma paste_one_run src self :
  exists self' op,
    QtClip.paste_one sh src self = (Ok tt, self') /\
    QtClip.operations self' = QtClip.operations self ++ [op] /\
    op_src op = src /\
    (QtClip.cut_mode self = false -> is_move op = false) /\
    QtClip.clipboard_paths self' = QtClip.clipboard_paths self /\
    QtClip.cut_mode self' = QtClip.cut_mode self /\
    QtNav.manager (QtClip.window self') = QtNav.manager (QtClip.window self) /\
    (List.length (QtNav.notices (QtClip.window self'))
     <= S (List.length (QtNav.notices (QtClip.window self))))%nat /\
    (fst (QtClip.run sh op (QtClip.disk self)) = Ok tt ->
     QtNav.notices (QtClip.window self') = QtNav.notices (QtClip.window self)).
Proof.
  unfold QtClip.paste_one, bind, get_state, try_except, QtClip.shutil, zoom,
    modify. cbv beta iota.
  destruct (Os.isdir (QtClip.disk self) src), (QtClip.cut_mode self) eqn:Hcut;
    match goal with |- context [QtClip.run sh ?op ?d] =>
      destruct (QtClip.run sh op d) as [[[]|e] d'] eqn:Hrun;
      exists_with op
    end.
Qed.

(** Out of cut mode the call is a copy, of a tree or of one file. *)
Lemma paste_one_copies src self :
  QtClip.cut_mode self = false ->
  QtClip.operations (snd (QtClip.paste_one sh src self))
  = QtClip.operations self ++
    [let dest :=
       Os.join (Qt.current_path (QtNav.manager (QtClip.window self)))
         (QtClip.basename src) in
     if Os.isdir (QtClip.disk self) src then QtClip.Copytree src dest
     else QtClip.Copy2 src dest].
Proof.
  intros Hcut.
  unfold QtClip.paste_one, bind, get_state, try_except, QtClip.shutil, zoom,
    modify. cbv beta iota zeta. rewrite Hcut.
  destruct (Os.isdir (QtClip.disk self) src);
    match goal with |- context [QtClip.run sh ?op ?d] =>
      destruct (QtClip.run sh op d) as [[[]|e] d'] end;
    reflexivity.
Qed.

(** The whole loop: one call per source, in the order of the clipboard,
    whether or not the calls before it failed. *)
Lemma paste_loop_run paths : forall self,
  exists self' ops,
    for_each paths (QtClip.paste_one sh) self = (Ok tt, self') /\
    QtClip.operations self' = QtClip.operations self ++ ops /\
    List.map op_src ops = paths /\
    (QtClip.cut_mode self = false ->
     Forall (fun op => is_move op = false) ops) /\
    QtClip.clipboard_paths self' = QtClip.clipboard_paths self /\
    QtClip.cut_mode self' = QtClip.cut_mode self /\
    QtNav.manager (QtClip.window self') = QtNav.manager (QtClip.window self) /\
    (List.length (QtNav.notices (QtClip.window self'))
     <= List.length (QtNav.notices (QtClip.window self)) + List.length paths)%nat.
Proof.
  induction paths as [|src paths IH]; intros self.
  - exists self, []. simpl. rewrite app_nil_r.
    repeat split; auto. lia.
  - destruct (paste_one_run src self)
      as (s1 & op & Hrun & Hops & Hsrc & Hmove & Hclip & Hcut & Hman & Hlen & _).
    destruct (IH s1)
      as (s2 & ops & Hrun2 & Hops2 & Hsrc2 & Hmove2 & Hclip2 & Hcut2
          & Hman2 & Hlen2).
    exists s2, (op :: ops). simpl. unfold bind. rewrite Hrun.
    split; [exact Hrun2|].
    split; [rewrite Hops2, Hops, <- app_assoc; reflexivity|].
    split; [rewrite Hsrc, Hsrc2; reflexivity|].
    split.
    { intros Hfalse. constructor; [auto|].
      apply Hmove2. rewrite Hcut. exact Hfalse. }
    split; [congruence|]. split; [congruence|]. split; [congruence|]. lia.
Qed.

(** The listing at the end of [paste]. *)
Lemma relist_run self :
  exists self',
    QtClip.relist images theme_has self = (Ok tt, self') /\
    QtClip.clipboard_paths self' = QtClip.clipboard_paths self /\
    QtClip.cut_mode self' = QtClip.cut_mode self /\
    QtClip.disk self' = QtClip.disk self /\
    QtClip.operations self' = QtClip.operations self /\
    QtNav.notices (QtClip.window self') = QtNav.notices (QtClip.window self) /\
    Qt.current_path (QtNav.manager (QtClip.window self'))
    = Qt.current_path (QtNav.manager (QtClip.window self)) /\
    exists more,
      Qt.log (QtNav.manager (QtClip.window self'))
      = Qt.log (QtNav.manager (QtClip.window self)) ++
        Qt.Listdir
          (Pathlib.str
             (Pathlib.parse
                (Qt.current_path (QtNav.manager (QtClip.window self)))))
        :: more.
Proof.
  unfold QtClip.relist, bind, get_state, zoom. cbv beta iota.
  destruct (populate_summary (QtClip.disk self) images theme_has
              (Qt.current_path (QtNav.manager (QtClip.window self)))
              (QtNav.manager (QtClip.window self)))
    as (m & Hrun & Hcur & _ & Hmore).
  rewrite Hrun. eexists. split; [reflexivity|]. simpl.
  repeat split; try reflexivity; try assumption.
Qed.

(** [paste] as a whole. *)
Lemma paste_run self :
  QtClip.clipboard_paths self <> [] ->
  exists self' ops,
    QtClip.paste sh images theme_has self = (Ok tt, self') /\
    QtClip.operations self' = QtClip.operations self ++ ops /\
    List.map op_src ops = QtClip.clipboard_paths self /\
    (QtClip.cut_mode self = false ->
     Forall (fun op => is_move op = false) ops) /\
    QtClip.clipboard_paths self' = [] /\
    QtClip.cut_mode self' = false /\
    Qt.current_path (QtNav.manager (QtClip.window self'))
    = Qt.current_path (QtNav.manager (QtClip.window self)) /\
    (List.length (QtNav.notices (QtClip.window self'))
     <= List.length (QtNav.notices (QtClip.window self))
        + List.length (QtClip.clipboard_paths self))%nat /\
    exists more,
      Qt.log (QtNav.manager (QtClip.window self'))
      = Qt.log (QtNav.manager (QtClip.window self)) ++
        Qt.Listdir
          (Pathlib.str
             (Pathlib.parse
                (Qt.current_path (QtNav.manager (QtClip.window self)))))
        :: more.
Proof.
  intros Hfull.
  destruct (paste_loop_run (QtClip.clipboard_paths self) self)
    as (s1 & ops & Hrun & Hops & Hsrc & Hmove & _ & _ & Hman & Hlen).
  destruct (relist_run
              (QtClip.set_cut_mode false (QtClip.set_clipboard_paths [] s1)))
    as (s2 & Hrun2 & Hclip2 & Hcut2 & _ & Hops2 & Hnotes2 & Hcur2 & more & Hlog2).
  exists s2, ops.
  unfold QtClip.paste, Eff.bind, Eff.get_state, Eff.modify. cbv beta iota.
  destruct (QtClip.clipboard_paths self) as [|src paths] eqn:Hclip;
    [congruence|].
  rewrite Hrun. cbv beta iota. rewrite Hrun2.
  simpl in *.
  split; [reflexivity|]. split; [congruence|]. split; [exact Hsrc|].
  split; [exact Hmove|].
  split; [exact Hclip2|]. split; [exact Hcut2|].
  split; [congruence|]. split; [rewrite Hnotes2; exact Hlen|].
  exists more. rewrite Hlog2, Hman. reflexivity.
Qed.

Lemma paste_empty self :
  QtClip.clipboard_paths self = [] ->
  QtClip.paste sh images theme_has self = (Ok tt, self).
Proof.
  intros Hempty. unfold QtClip.paste, Eff.bind, Eff.get_state.
  cbv beta iota. rewrite Hempty. reflexivity.
Qed.

(** One action of the user on a window that is not in cut mode. *)
Lemma handle_without_cut a self :
  QtClip.cut_mode self = false ->
  exists ops,
    QtClip.operations (snd (QtClip.handle sh images theme_has a self))
    = QtClip.operations self ++ ops /\
    Forall (fun op => is_move op = false) ops /\
    QtClip.cut_mode (snd (QtClip.handle sh images theme_has a self)) = false.
Proof.
  intros Hcut. destruct a as [[it|]|]; simpl.
  - exists []. rewrite app_nil_r. repeat split; constructor.
  - exists []. rewrite app_nil_r. repeat split; [constructor|exact Hcut].
  - destruct (QtClip.clipboard_paths self) as [|src paths] eqn:Hclip.
    + rewrite paste_empty by exact Hclip.
      exists []. rewrite app_nil_r. repeat split; [constructor|exact Hcut].
    + destruct (paste_run self)
        as (s2 & ops & Hrun & Hops & _ & Hmove & _ & Hcut2 & _);
        [congruence|].
      rewrite Hrun. exists ops. simpl. auto.
Qed.

Lemma session_without_cut actions : forall self,
  QtClip.cut_mode self = false ->
  exists ops,
    QtClip.operations (QtClip.session sh images theme_has actions self)
    = QtClip.operations self ++ ops /\
    Forall (fun op => is_move op = false) ops /\
    QtClip.cut_mode (QtClip.session sh images theme_has actions self) = false.
Proof.
  induction actions as [|a rest IH]; intros self Hcut.
  - exists []. simpl. rewrite app_nil_r. repeat split; [constructor|exact Hcut].
  - destruct (handle_without_cut a self Hcut) as (ops1 & Hops1 & Hmove1 & Hcut1).
    destruct (IH _ Hcut1) as (ops2 & Hops2 & Hmove2 & Hcut2).
    exists (ops1 ++ ops2). simpl.
    split; [rewrite Hops2, Hops1, <- app_assoc; reflexivity|].
    split; [apply Forall_app; split; assumption | exact Hcut2].
Qed.

End Clipboard.

(** X15.  [paste] goes through the whole clipboard whatever fails: with
    an empty clipboard it does nothing at all; otherwise it calls
    [shutil] once for every path of the clipboard, in order, turns each
    call that raises into at most one warning and goes on, then empties
    the clipboard, resets the cut flag and lists the current directory
    again, and returns normally. *)
Theorem paste_goes_through :
  forall sh images theme_has self,
    (QtClip.clipboard_paths self = [] ->
     QtClip.paste sh images theme_has self = (Ok tt, self)) /\
    (QtClip.clipboard_paths self <> [] ->
     exists self' ops,
       QtClip.paste sh images theme_has self = (Ok tt, self') /\
       QtClip.operations self' = QtClip.operations self ++ ops /\
       List.map op_src ops = QtClip.clipboard_paths self /\
       QtClip.clipboard_paths self' = [] /\
       QtClip.cut_mode self' = false /\
       Qt.current_path (QtNav.manager (QtClip.window self'))
       = Qt.current_path (QtNav.manager (QtClip.window self)) /\
       (List.length (QtNav.notices (QtClip.window self'))
        <= List.length (QtNav.notices (QtClip.window self))
           + List.length (QtClip.clipboard_paths self))%nat /\
       exists more,
         Qt.log (QtNav.manager (QtClip.window self'))
         = Qt.log (QtNav.manager (QtClip.window self)) ++
           Qt.Listdir
             (Pathlib.str
                (Pathlib.parse
                   (Qt.current_path (QtNav.manager (QtClip.window self)))))
           :: more).
Proof.
  intros sh images theme_has self. split.
  - apply paste_empty.
  - intros Hfull.
    destruct (paste_run sh images theme_has self Hfull)
      as (s2 & ops & Hrun & Hops & Hsrc & _ & Hrest).
    exists s2, ops. auto.
Qed.

(** A batch in which every copy fails: both sources are still tried, in
    order, and each failure gives its warning. *)
Example paste_after_failures :
  let s := snd (QtClip.paste failing_shell no_pillow (fun _ => true)
                  (clip_start "/d/a_folder" ["/d/a_folder"; "/d/A.txt"])) in
  QtClip.operations s
  = [QtClip.Copytree "/d/a_folder" "/d/a_folder/a_folder";
     QtClip.Copy2 "/d/A.txt" "/d/a_folder/A.txt"] /\
  QtNav.notices (QtClip.window s)
  = [QtNav.Warning "Paste failed" "Permission denied";
     QtNav.Warning "Paste failed" "Permission denied"] /\
  QtClip.clipboard_paths s = [].
Proof. vm_compute. repeat split. Qed.

Lemma paste_goes_through_witness :
  QtClip.clipboard_paths (clip_start "/d/a_folder" ["/d/A.txt"]) <> [] /\
  exists self',
    QtClip.paste failing_shell no_pillow (fun _ => true)
      (clip_start "/d/a_folder" ["/d/A.txt"]) = (Ok tt, self') /\
    QtClip.clipboard_paths self' = [].
Proof.
  assert (QtClip.clipboard_paths (clip_start "/d/a_folder" ["/d/A.txt"]) <> [])
    as Hfull by discriminate.
  split; [exact Hfull|].
  destruct (paste_goes_through failing_shell no_pillow (fun _ => true)
              (clip_start "/d/a_folder" ["/d/A.txt"])) as [_ H].
  destruct (H Hfull) as (s & ops & Hrun & _ & _ & Hclip & _).
  exists s. split; [exact Hrun | exact Hclip].
Defined.

(** X16.  Nothing is ever moved.  The window starts out of cut mode and
    no handler sets it: over any sequence of Copy and Paste actions the
    cut flag stays off and every call into [shutil] is a [copytree] or a
    [copy2], never a [move]. *)
Theorem paste_never_moves :
  forall sh images theme_has actions self,
    QtClip.cut_mode self = false ->
    exists ops,
      QtClip.operations (QtClip.session sh images theme_has actions self)
      = QtClip.operations self ++ ops /\
      Forall (fun op => is_move op = false) ops /\
      QtClip.cut_mode (QtClip.session sh images theme_has actions self) = false.
Proof.
  intros sh images theme_has actions self Hcut.
  exact (session_without_cut sh images theme_has actions self Hcut).
Qed.

(** A file and then a folder, each copied and pasted: two calls, a
    [copy2] and a [copytree]. *)
Lemma paste_never_moves_witness :
  let file := {| Qt.text := "A.txt"; Qt.icon := Qt.IconFromTheme "text-x-generic";
                 Qt.data := "/d/A.txt" |} in
  let folder := {| Qt.text := "a_folder"; Qt.icon := Qt.IconFromTheme "folder";
                   Qt.data := "/d/a_folder" |} in
  let after :=
    QtClip.session failing_shell no_pillow (fun _ => true)
      [QtClip.CopyItem (Some file); QtClip.Paste;
       QtClip.CopyItem (Some folder); QtClip.Paste]
      (clip_start "/d/a_folder" []) in
  QtClip.cut_mode (clip_start "/d/a_folder" []) = false /\
  QtClip.operations after
  = [QtClip.Copy2 "/d/A.txt" "/d/a_folder/A.txt";
     QtClip.Copytree "/d/a_folder" "/d/a_folder/a_folder"] /\
  Forall (fun op => is_move op = false) (QtClip.operations after) /\
  QtClip.cut_mode after = false.
Proof.
  intros file folder after.
  split; [reflexivity|]. split; [vm_compute; reflexivity|].
  destruct (paste_never_moves failing_shell no_pillow (fun _ => true)
              [QtClip.CopyItem (Some file); QtClip.Paste;
               QtClip.CopyItem (Some folder); QtClip.Paste]
              (clip_start "/d/a_folder" []))
    as (ops & Hops & Hmove & Hcut); [reflexivity|].
  fold after in Hops, Hcut. rewrite Hops. split; [exact Hmove | exact Hcut].
Defined.

(** X17.  Copy, paste, paste: copying an item and pasting makes exactly
    one call, a [copytree] of the item into the current directory if it
    is a directory and a [copy2] otherwise, under the item's own name;
    pasting once more does nothing, the clipboard having been emptied. *)
Theorem copy_paste_paste :
  forall sh images theme_has it self,
    let copied := snd (QtClip.copy_action (Some it) self) in
    let pasted := snd (QtClip.paste sh images theme_has copied) in
    let src := Qt.data it in
    let dest :=
      Os.join (Qt.current_path (QtNav.manager (QtClip.window self)))
        (QtClip.basename src) in
    QtClip.operations pasted
    = QtClip.operations self ++
      [if Os.isdir (QtClip.disk self) src then QtClip.Copytree src dest
       else QtClip.Copy2 src dest] /\
    QtClip.paste sh images theme_has pasted = (Ok tt, pasted).
Proof.
  intros sh images theme_has it self copied pasted src dest.
  assert (QtClip.cut_mode copied = false) as Hcut by reflexivity.
  destruct (paste_one_run sh src copied)
    as (s1 & op & Hone & _ & _ & _ & Hclip1 & Hcut1 & _).
  pose proof (paste_one_copies sh src copied Hcut) as Hop.
  rewrite Hone in Hop. cbn [snd] in Hop.
  destruct (relist_run images theme_has
              (QtClip.set_cut_mode false (QtClip.set_clipboard_paths [] s1)))
    as (s2 & Hrel & Hclip2 & _ & _ & Hops2 & _).
  assert (QtClip.paste sh images theme_has copied = (Ok tt, s2)) as Hrun.
  { unfold QtClip.paste, Eff.bind, Eff.get_state, Eff.modify.
    cbv beta iota.
    change (QtClip.clipboard_paths copied) with [src].
    cbn [Eff.for_each]. unfold Eff.bind. rewrite Hone.
    cbv beta iota. unfold Eff.ret. cbv beta iota. exact Hrel. }
  subst pasted. rewrite Hrun. cbn [snd]. split.
  - rewrite Hops2. exact Hop.
  - apply paste_empty. exact Hclip2.
Qed.
